(** * jsii: the Go class projection of jsii-pacmak and the exit code of jsii-diff

    A shallow embedding of
    - [packages/jsii-pacmak/lib/targets/go/types/class.ts]
      ([GoClass], [GoClassConstructor], [ClassMethod], [StaticMethod]), and
    - [packages/jsii-diff/bin/jsii-diff.ts] ([main]),
    followed by the properties of the projection that the reference
    documentation states.

    Conventions.  A JavaScript object whose class is declared elsewhere
    ([jsii-reflect], [codemaker], [go-type.ts], [type-member.ts],
    [runtime.ts]) is a record of the fields that [class.ts] reads; a method
    of such a class is a member of [Externals].  Calls that write to the
    [EmitContext] are recorded, in order, as a list of [Emitted] calls. *)

From Stdlib Require Import String Ascii List ZArith Lia Bool Permutation Sorted DecimalString.
Import ListNotations.
Local Open Scope string_scope.
Local Open Scope list_scope.

Set Implicit Arguments.

(** ** JavaScript built-ins *)

Module JS.

(** The three states of an optional field: never assigned, [null], or a
    value. *)
Inductive Nullable (A : Type) : Type :=
| undefined : Nullable A
| null : Nullable A
| value : A -> Nullable A.
Arguments undefined {A}.
Arguments null {A}.
Arguments value {A} _.

Section Sort.
Context {A : Type} (comparefn : A -> A -> Z).

(** [x] is put before the first element that does not sort strictly
    before it. *)
Fixpoint insert (x : A) (l : list A) : list A :=
  match l with
  | [] => [x]
  | y :: l' => if (comparefn x y <=? 0)%Z then x :: l else y :: insert x l'
  end.

(** [Array.prototype.sort(comparefn)]: a stable sort (ECMAScript 2019).
    For a consistent comparator every stable sort returns this list. *)
Definition Array_sort (l : list A) : list A := fold_right insert [] l.

(** [x] may stand before [y] in a sorted array. *)
Definition le_by (x y : A) : Prop := (comparefn x y <= 0)%Z.

Definition defined (l : list (option A)) : list A :=
  flat_map (fun o => match o with Some a => [a] | None => [] end) l.

Definition holes (l : list (option A)) : list (option A) :=
  filter (fun o => match o with Some _ => false | None => true end) l.

(** On an array with [undefined] elements, [sort] never passes them to
    the comparator and moves them to the end. *)
Definition Array_sort_sparse (l : list (option A)) : list (option A) :=
  map Some (Array_sort (defined l)) ++ holes l.

End Sort.

(** [Array.prototype.join] *)
Definition join (sep : string) (l : list string) : string := String.concat sep l.

(** The one-character string holding a double quote *)
Definition quote : string := String (ascii_of_nat 34) EmptyString.

(** Truthiness of a string: every string but the empty one. *)
Definition truthy (s : string) : bool := negb (s =? "")%string.

End JS.
Import JS.

(** ** The reflected type graph ([jsii-reflect]) *)

Record Docs := { summary : string; Docs_toString : string }.

(** A [reflect.TypeReference]; [class.ts] only passes it on. *)
Record TypeReference := { TypeReference_id : string }.

Inductive TypeKind := ClassKind | InterfaceKind.

(** What [class.ts] reads of another type of the graph: of [type.base], of
    the elements of [type.interfaces] and [type.getAncestors()], and of a
    member's [definingType]. *)
Module ReflectType.
Record t := { fqn : string; assembly_fqn : string; kind : TypeKind }.
End ReflectType.

Module Param.
Record t := { name : string; type : TypeReference }.
End Param.

Module Method.
Record t := {
  name : string;
  static : bool;
  definingType : ReflectType.t;
  docs : Docs;
  parameters : list Param.t
}.
End Method.

Module Property.
Record t := {
  name : string;
  static : bool;
  immutable : bool;
  definingType : ReflectType.t
}.
End Property.

Module Initializer.
Record t := { parameters : list Param.t; docs : Docs }.
End Initializer.

Module ClassType.
Record t := {
  fqn : string;
  assembly_fqn : string;
  docs : Docs;
  base : option ReflectType.t;
  interfaces : list ReflectType.t;
  getAncestors : list ReflectType.t;
  ownMethods : list Method.t;
  ownProperties : list Property.t;
  allMethods : list Method.t;
  allProperties : list Property.t;
  initializer : option Initializer.t
}.
End ClassType.

(** ** The Go type model *)

(** A [Package]; two packages are the same object ([===]) when they have
    the same name. *)
Record Package := { packageName : string }.

Definition Package_eqb (p q : Package) : bool :=
  (packageName p =? packageName q)%string.

(** The fields that the [GoType] constructor ([super(pkg, type)],
    [go-type.ts]) initialises, and [type.reference]. *)
Module GoType.
Record t := {
  pkg : Package;
  name : string;
  proxyName : string;
  fqn : string;
  type_reference : TypeReference
}.
End GoType.

(** [new GoTypeRef(this.pkg.root, reference)]; there is one root. *)
Record GoTypeRef := { GoTypeRef_reference : TypeReference }.

(** [new ClassMethod(parent, method)] and [new StaticMethod(parent, method)] *)
Record ClassMethod := { ClassMethod_parent : GoType.t; method : Method.t }.

Definition StaticMethod := ClassMethod.

(** [new GoProperty(parent, property)] *)
Record GoProperty := { GoProperty_parent : GoType.t; property : Property.t }.

(** [new GoParameter(parent, parameter)] *)
Record GoParameter := { GoParameter_parent : GoType.t; parameter : Param.t }.

(** [new GoClassConstructor(parent, type)]; [constructorRuntimeCall] is
    [new ClassConstructor(this)], so it is determined by the record. *)
Module GoClassConstructor.
Record t := {
  parent : GoType.t;
  type : Initializer.t;
  parameters : list GoParameter
}.
End GoClassConstructor.

(** What the modules that [class.ts] imports compute. *)
Class Externals := {
  (** [String.prototype.localeCompare] *)
  localeCompare : string -> string -> Z;
  (** [String.prototype.toLowerCase] *)
  toLowerCase : string -> string;
  (** [toPascalCase] of [codemaker] *)
  toPascalCase : string -> string;
  (** [this.pkg.root.findType(fqn)] *)
  findType : string -> option GoType.t;
  (** [GoTypeRef]: [scopedInterfaceName(pkg)] and [void] *)
  scopedInterfaceName : GoTypeRef -> Package -> string;
  GoTypeRef_void : GoTypeRef -> bool;
  (** [GoMethod]: [name], [paramString()] and [reference] *)
  GoMethod_name : ClassMethod -> string;
  GoMethod_paramString : ClassMethod -> string;
  GoMethod_reference : ClassMethod -> option GoTypeRef;
  (** [Method.toString()] of [jsii-reflect] *)
  Method_toString : Method.t -> string;
  (** [GoProperty]: [name], [returnType] and [immutable] *)
  GoProperty_name : GoProperty -> string;
  GoProperty_returnType : GoProperty -> string;
  GoProperty_immutable : GoProperty -> bool;
  (** [GoParameter.toString()] *)
  GoParameter_toString : GoParameter -> string;
  (** [JSII_RT_ALIAS] of [../runtime] *)
  JSII_RT_ALIAS : string
}.

(** The objects that [comparators.byName] compares. *)
Class Named (A : Type) := nameOf : A -> string.

#[export] Instance Named_ClassMethod `{Externals} : Named ClassMethod := GoMethod_name.
#[export] Instance Named_GoProperty `{Externals} : Named GoProperty := GoProperty_name.

(** Modelled from the spec: [comparators.byName] ([../comparators] is not
    among the sources).  The members of a group are "sorted by name"; the
    comparison is the one [class.ts] itself uses to order [implements]. *)
Definition byName `{Externals} {A : Type} `{Named A} (l r : A) : Z :=
  localeCompare (nameOf l) (nameOf r).

(** ** [GoClass] *)

Module GoClass.
Record t := {
  super : GoType.t;
  type : ClassType.t;
  methods : list ClassMethod;
  staticMethods : list StaticMethod;
  properties : list GoProperty;
  staticProperties : list GoProperty;
  reimplementedMethods : option (list ClassMethod);
  reimplementedProperties : option (list GoProperty);
  _extends : Nullable GoType.t;
  _implements : option (list (option GoType.t));
  initializer : option GoClassConstructor.t
}.

Definition pkg (c : t) : Package := GoType.pkg (super c).
Definition name (c : t) : string := GoType.name (super c).
Definition proxyName (c : t) : string := GoType.proxyName (super c).
Definition fqn (c : t) : string := GoType.fqn (super c).
End GoClass.

Section Construction.
Context `{Externals}.

(** [method.definingType !== type]: the types of one type system are
    unique objects per fully-qualified name. *)
Definition isType (d : ReflectType.t) (type : ClassType.t) : bool :=
  (ReflectType.fqn d =? ClassType.fqn type)%string.

Definition new_GoClassConstructor (parent : GoType.t) (type : Initializer.t)
  : GoClassConstructor.t :=
  {| GoClassConstructor.parent := parent;
     GoClassConstructor.type := type;
     GoClassConstructor.parameters :=
       map (fun param => Build_GoParameter parent param)
           (Initializer.parameters type) |}.

(** [type.interfaces.length > (type.base ? 0 : 1)] *)
Definition hasMultipleBases (type : ClassType.t) : bool :=
  (match ClassType.base type with Some _ => 0 | None => 1 end
     <? length (ClassType.interfaces type))%nat.

Definition foreignAncestor (type : ClassType.t) (ancestor : ReflectType.t) : bool :=
  negb (ReflectType.assembly_fqn ancestor =? ClassType.assembly_fqn type)%string.

Definition inheritedMethod (type : ClassType.t) (method : Method.t) : bool :=
  negb (Method.static method) && negb (isType (Method.definingType method) type).

Definition inheritedProperty (type : ClassType.t) (property : Property.t) : bool :=
  negb (Property.static property) && negb (isType (Property.definingType property) type).

(** The constructor, with [this] the result of [super(pkg, type)]. *)
Definition new_GoClass (this : GoType.t) (type : ClassType.t) : GoClass.t :=
  let methods :=
    map (Build_ClassMethod this)
        (filter (fun method => negb (Method.static method)) (ClassType.ownMethods type)) in
  let staticMethods :=
    map (Build_ClassMethod this)
        (filter (fun method => Method.static method) (ClassType.ownMethods type)) in
  let properties :=
    map (Build_GoProperty this)
        (filter (fun prop => negb (Property.static prop)) (ClassType.ownProperties type)) in
  let staticProperties :=
    map (Build_GoProperty this)
        (filter (fun prop => Property.static prop) (ClassType.ownProperties type)) in
  let flatten :=
    hasMultipleBases type
    && existsb (foreignAncestor type) (ClassType.getAncestors type) in
  {| GoClass.super := this;
     GoClass.type := type;
     GoClass.methods := Array_sort byName methods;
     GoClass.staticMethods := Array_sort byName staticMethods;
     GoClass.properties := Array_sort byName properties;
     GoClass.staticProperties := Array_sort byName staticProperties;
     GoClass.reimplementedMethods :=
       if flatten
       then Some (Array_sort byName
                    (map (Build_ClassMethod this)
                         (filter (inheritedMethod type) (ClassType.allMethods type))))
       else None;
     GoClass.reimplementedProperties :=
       if flatten
       then Some (Array_sort byName
                    (map (Build_GoProperty this)
                         (filter (inheritedProperty type) (ClassType.allProperties type))))
       else None;
     GoClass._extends := undefined;
     GoClass._implements := None;
     GoClass.initializer :=
       match ClassType.initializer type with
       | Some i => Some (new_GoClassConstructor this i)
       | None => None
       end |}.

End Construction.

(** ** Emission *)

(** The calls that reach the [EmitContext]: those on [context.code] (a
    [CodeMaker]) and [context.documenter], and the calls into [runtime.ts],
    [type-member.ts] and [go-type.ts] that receive the context. *)
Inductive Emitted :=
| code_line (s : string)
| code_line_empty
| code_openBlock (s : string)
| code_closeBlock
| code_open (s : string)
| code_close (s : string)
| documenter_emit (d : Docs)
| emitGetterDecl (p : GoProperty)
| emitSetterDecl (p : GoProperty)
| emitGetterProxy (p : GoProperty)
| emitSetterProxy (p : GoProperty)
| ClassConstructor_emit (c : GoClassConstructor.t)
| MethodCall_emit (m : ClassMethod)
| StaticGetProperty_emit (p : GoProperty)
| StaticSetProperty_emit (p : GoProperty)
| emitProxyMakerFunction (bases : list (option GoType.t)).

(** The state a method of [GoClass] runs in: the object itself (only
    [_extends] and [_implements] are ever assigned after construction),
    the fully-qualified names [findType] was called with, and the calls
    made on the context, both oldest first. *)
Record Heap := {
  this : GoClass.t;
  lookups : list string;
  written : list Emitted
}.

Inductive Completion (A : Type) : Type :=
| Normal : A -> Completion A
| TypeError : Completion A.
Arguments Normal {A} _.
Arguments TypeError {A}.

Definition M (A : Type) : Type := Heap -> Completion A * Heap.

Definition ret {A} (a : A) : M A := fun h => (Normal a, h).

Definition bind {A B} (m : M A) (k : A -> M B) : M B :=
  fun h => match m h with
           | (Normal a, h') => k a h'
           | (TypeError, h') => (TypeError, h')
           end.

Declare Scope js_scope.
Delimit Scope js_scope with js.
Notation "x <- c ;; k" := (bind c (fun x => k))
  (at level 100, c at next level, right associativity) : js_scope.
Notation "c ;; k" := (bind c (fun _ => k))
  (at level 100, right associativity) : js_scope.
Local Open Scope js_scope.

Definition getThis : M GoClass.t := fun h => (Normal (this h), h).

Definition setThis (c : GoClass.t) : M unit :=
  fun h => (Normal tt, {| this := c; lookups := lookups h; written := written h |}).

(** Reading a property of [undefined] *)
Definition deref {A} (o : option A) : M A :=
  match o with
  | Some a => ret a
  | None => fun h => (TypeError, h)
  end.

Definition tell (l : list Emitted) : M unit :=
  fun h => (Normal tt, {| this := this h; lookups := lookups h; written := written h ++ l |}).

(** [for (const x of l) body] *)
Fixpoint forEach {A} (l : list A) (body : A -> M unit) : M unit :=
  match l with
  | [] => ret tt
  | x :: l' => body x ;; forEach l' body
  end.

(** [l.map(f)] for a callback with effects *)
Fixpoint mapM {A B} (f : A -> M B) (l : list A) : M (list B) :=
  match l with
  | [] => ret []
  | x :: l' => y <- f x ;; ys <- mapM f l' ;; ret (y :: ys)
  end.

Definition set_extends (c : GoClass.t) (v : Nullable GoType.t) : GoClass.t :=
  {| GoClass.super := GoClass.super c;
     GoClass.type := GoClass.type c;
     GoClass.methods := GoClass.methods c;
     GoClass.staticMethods := GoClass.staticMethods c;
     GoClass.properties := GoClass.properties c;
     GoClass.staticProperties := GoClass.staticProperties c;
     GoClass.reimplementedMethods := GoClass.reimplementedMethods c;
     GoClass.reimplementedProperties := GoClass.reimplementedProperties c;
     GoClass._extends := v;
     GoClass._implements := GoClass._implements c;
     GoClass.initializer := GoClass.initializer c |}.

Definition set_implements (c : GoClass.t) (v : list (option GoType.t)) : GoClass.t :=
  {| GoClass.super := GoClass.super c;
     GoClass.type := GoClass.type c;
     GoClass.methods := GoClass.methods c;
     GoClass.staticMethods := GoClass.staticMethods c;
     GoClass.properties := GoClass.properties c;
     GoClass.staticProperties := GoClass.staticProperties c;
     GoClass.reimplementedMethods := GoClass.reimplementedMethods c;
     GoClass.reimplementedProperties := GoClass.reimplementedProperties c;
     GoClass._extends := GoClass._extends c;
     GoClass._implements := Some v;
     GoClass.initializer := GoClass.initializer c |}.

Section Methods.
Context `{Externals}.

(** [this.pkg.root.findType(fqn)], with the call recorded *)
Definition root_findType (fqn : string) : M (option GoType.t) :=
  fun h => (Normal (findType fqn),
            {| this := this h; lookups := lookups h ++ [fqn]; written := written h |}).

(** [get extends()] *)
Definition get_extends : M (option GoType.t) :=
  this <- getThis ;;
  (match GoClass._extends this with
   | undefined =>
       match ClassType.base (GoClass.type this) with
       | Some base =>
           found <- root_findType (ReflectType.fqn base) ;;
           setThis (set_extends this
                      (match found with Some c => value c | None => undefined end))
       | None => setThis (set_extends this null)
       end
   | _ => ret tt
   end) ;;
  this <- getThis ;;
  ret (match GoClass._extends this with
       | value c => Some c
       | _ => None
       end).

(** [get implements()] *)
Definition get_implements : M (list (option GoType.t)) :=
  this <- getThis ;;
  (match GoClass._implements this with
   | None =>
       found <- mapM (fun iface => root_findType (ReflectType.fqn iface))
                     (ClassType.interfaces (GoClass.type this)) ;;
       setThis (set_implements this
                  (Array_sort_sparse
                     (fun l r => localeCompare (GoType.fqn l) (GoType.fqn r)) found))
   | Some _ => ret tt
   end) ;;
  this <- getThis ;;
  ret (match GoClass._implements this with
       | Some l => l
       | None => []
       end).

(** [get baseTypes()] *)
Definition get_baseTypes : M (list (option GoType.t)) :=
  e <- get_extends ;;
  first <- (match e with
            | Some _ => e' <- get_extends ;; ret [e']
            | None => ret []
            end) ;;
  rest <- get_implements ;;
  ret (first ++ rest).

(** [get interfaces()] *)
Definition get_interfaces (c : GoClass.t) : list string :=
  map ReflectType.fqn (ClassType.interfaces (GoClass.type c)).

(** *** [ClassMethod] and [StaticMethod] *)

Definition ClassMethod_returnType (m : ClassMethod) : string :=
  match GoMethod_reference m with
  | Some reference => scopedInterfaceName reference (GoType.pkg (ClassMethod_parent m))
  | None => Method_toString (method m)
  end.

Definition ClassMethod_instanceArg (m : ClassMethod) : string :=
  toLowerCase (substring 0 1 (GoType.name (ClassMethod_parent m))).

(** [this.reference?.void ? '' : ` ${this.returnType}`] *)
Definition returnTypeString (m : ClassMethod) : string :=
  if match GoMethod_reference m with
     | Some reference => GoTypeRef_void reference
     | None => false
     end
  then ""
  else (" " ++ ClassMethod_returnType m)%string.

Definition ClassMethod_emit (m : ClassMethod) : list Emitted :=
  [ documenter_emit (Method.docs (method m));
    code_openBlock ("func (" ++ ClassMethod_instanceArg m ++ " *"
                      ++ GoType.proxyName (ClassMethod_parent m) ++ ") "
                      ++ GoMethod_name m ++ "(" ++ GoMethod_paramString m ++ ")"
                      ++ returnTypeString m)%string;
    MethodCall_emit m;
    code_closeBlock;
    code_line_empty ].

Definition ClassMethod_emitDecl (m : ClassMethod) : list Emitted :=
  [ code_line (GoMethod_name m ++ "(" ++ GoMethod_paramString m ++ ")"
                 ++ returnTypeString m)%string ].

Definition StaticMethod_emit (m : StaticMethod) : list Emitted :=
  [ documenter_emit (Method.docs (method m));
    code_openBlock ("func " ++ GoType.name (ClassMethod_parent m) ++ "_" ++ GoMethod_name m
                      ++ "(" ++ GoMethod_paramString m ++ ")" ++ returnTypeString m)%string;
    MethodCall_emit m;
    code_closeBlock;
    code_line_empty ].

(** *** [GoClassConstructor.emit] *)

Definition GoClassConstructor_emit (i : GoClassConstructor.t) : list Emitted :=
  let constr := ("New" ++ GoType.name (GoClassConstructor.parent i))%string in
  let paramString :=
    if (length (GoClassConstructor.parameters i) =? 0)%nat
    then ""
    else join ", " (map GoParameter_toString (GoClassConstructor.parameters i)) in
  let docs := Initializer.docs (GoClassConstructor.type i) in
  (if truthy (summary docs)
   then [code_line ("// " ++ Docs_toString docs)%string]
   else [])
  ++ [ code_openBlock ("func " ++ constr ++ "(" ++ paramString ++ ") "
                         ++ GoType.name (GoClassConstructor.parent i))%string;
       ClassConstructor_emit i;
       code_closeBlock;
       code_line_empty ].

(** *** The emitters of [GoClass] *)

Definition embedded (this : GoClass.t) (ancestor : GoType.t) : string :=
  if Package_eqb (GoType.pkg ancestor) (GoClass.pkg this)
  then GoType.proxyName ancestor
  else scopedInterfaceName (Build_GoTypeRef (GoType.type_reference ancestor))
                           (GoClass.pkg this).

Definition emitInterface : M unit :=
  this <- getThis ;;
  tell [documenter_emit (ClassType.docs (GoClass.type this))] ;;
  tell [code_openBlock ("type " ++ GoClass.name this ++ " interface")%string] ;;
  e <- get_extends ;;
  (match e with
   | Some _ =>
       e' <- get_extends ;;
       base <- deref e' ;;
       tell [code_line (scopedInterfaceName
                          (Build_GoTypeRef (GoType.type_reference base))
                          (GoClass.pkg this))]
   | None => ret tt
   end) ;;
  ifaces <- get_implements ;;
  forEach ifaces (fun i =>
    iface <- deref i ;;
    tell [code_line (scopedInterfaceName
                       (Build_GoTypeRef (GoType.type_reference iface))
                       (GoClass.pkg this))]) ;;
  forEach (GoClass.properties this) (fun property =>
    tell [emitGetterDecl property] ;;
    tell [emitSetterDecl property]) ;;
  forEach (GoClass.methods this) (fun method => tell (ClassMethod_emitDecl method)) ;;
  tell [code_closeBlock] ;;
  tell [code_line_empty].

Definition orEmpty {A} (o : option (list A)) : list A :=
  match o with Some l => l | None => [] end.

Definition emitGetters : M unit :=
  this <- getThis ;;
  if (length (GoClass.properties this) =? 0)%nat
  then ret tt
  else
    forEach (GoClass.properties this) (fun property => tell [emitGetterProxy property]) ;;
    forEach (orEmpty (GoClass.reimplementedProperties this))
            (fun property => tell [emitGetterProxy property]) ;;
    tell [code_line_empty].

Definition emitStruct : M unit :=
  this <- getThis ;;
  tell [code_line ("// The jsii proxy struct for " ++ GoClass.name this)%string] ;;
  tell [code_openBlock ("type " ++ GoClass.proxyName this ++ " struct")%string] ;;
  e <- get_extends ;;
  bare <- (match e with
           | None => ifaces <- get_implements ;; ret (length ifaces =? 0)%nat
           | Some _ => ret false
           end) ;;
  (if bare
   then tell [code_line "_ byte // padding"]
   else
     e <- get_extends ;;
     (match e with
      | Some _ =>
          e1 <- get_extends ;;
          base1 <- deref e1 ;;
          embed <- (if Package_eqb (GoType.pkg base1) (GoClass.pkg this)
                    then e2 <- get_extends ;; base2 <- deref e2 ;;
                         ret (GoType.proxyName base2)
                    else e2 <- get_extends ;; base2 <- deref e2 ;;
                         ret (scopedInterfaceName
                                (Build_GoTypeRef (GoType.type_reference base2))
                                (GoClass.pkg this))) ;;
          e3 <- get_extends ;;
          base3 <- deref e3 ;;
          tell [code_line (embed ++ " // extends " ++ GoType.fqn base3)%string]
      | None => ret tt
      end) ;;
     ifaces <- get_implements ;;
     forEach ifaces (fun i =>
       iface <- deref i ;;
       tell [code_line (embedded this iface ++ " // implements "
                          ++ GoType.fqn iface)%string])) ;;
  tell [code_closeBlock] ;;
  tell [code_line_empty].

Definition emitStaticProperty (this : GoClass.t) (prop : GoProperty) : list Emitted :=
  let propertyName := toPascalCase (GoProperty_name prop) in
  let name := (GoClass.name this ++ "_" ++ propertyName)%string in
  [ code_openBlock ("func " ++ name ++ "() " ++ GoProperty_returnType prop)%string;
    StaticGetProperty_emit prop;
    code_closeBlock;
    code_line_empty ]
  ++ (if negb (GoProperty_immutable prop)
      then
        let name := (GoClass.name this ++ "_Set" ++ propertyName)%string in
        [ code_openBlock ("func " ++ name ++ "(val " ++ GoProperty_returnType prop ++ ")")%string;
          StaticSetProperty_emit prop;
          code_closeBlock;
          code_line_empty ]
      else []).

Definition emitSetters : M unit :=
  this <- getThis ;;
  forEach (GoClass.properties this) (fun property => tell [emitSetterProxy property]) ;;
  forEach (orEmpty (GoClass.reimplementedProperties this))
          (fun property => tell [emitSetterProxy property]).

Definition emit : M unit :=
  emitInterface ;;
  emitStruct ;;
  emitGetters ;;
  this <- getThis ;;
  (match GoClass.initializer this with
   | Some initializer => tell (GoClassConstructor_emit initializer)
   | None => ret tt
   end) ;;
  emitSetters ;;
  forEach (GoClass.staticMethods this) (fun method => tell (StaticMethod_emit method)) ;;
  forEach (GoClass.staticProperties this)
          (fun prop => tell (emitStaticProperty this prop)) ;;
  forEach (GoClass.methods this) (fun method => tell (ClassMethod_emit method)) ;;
  forEach (orEmpty (GoClass.reimplementedMethods this))
          (fun method => tell (ClassMethod_emit method)).

Definition emitRegistration : M unit :=
  this <- getThis ;;
  tell [code_open (JSII_RT_ALIAS ++ ".RegisterClass(")%string] ;;
  tell [code_line (quote ++ GoClass.fqn this ++ quote ++ ",")%string] ;;
  tell [code_line ("reflect.TypeOf((*" ++ GoClass.name this ++ ")(nil)).Elem(),")%string] ;;
  bases <- get_baseTypes ;;
  tell [emitProxyMakerFunction bases] ;;
  tell [code_close ")"].

(** A freshly constructed object, before any call *)
Definition fresh (c : GoClass.t) : Heap :=
  {| this := c; lookups := []; written := [] |}.

End Methods.

(** ** [jsii-diff]: [bin/jsii-diff.ts] *)

Module JsiiDiff.

(** [reflect.Assembly], as far as [main] reads it *)
Record Assembly := { name : string; version : string }.

(** [DownloadFailure] of [../lib/util] *)
Record DownloadFailure := { failure : string }.

(** A thrown [Error] *)
Record Error := { message : string }.

Inductive Outcome (A : Type) : Type :=
| Returned : A -> Outcome A
| Thrown : Error -> Outcome A.
Arguments Returned {A} _.
Arguments Thrown {A} _.

(** The result of [downloadNpmPackage] and the second half of
    [LoadAssemblyResult] *)
Inductive Load :=
| success (assembly : Assembly)
| failed (reason : DownloadFailure).

Record LoadAssemblyResult := { requested : string; resolved : string; load : Load }.

(** The result of [compareAssemblies] *)
Record Mismatches := { count : Z; messages : list string }.

Record Argv := {
  original : string;
  updated : string;
  verbose : Z;
  default_stability : string
}.

(** What the process writes and logs, oldest first *)
Inductive Output :=
| configureLog4js (verbosity : Z)
| LOG_debug (s : string)
| LOG_info (s : string)
| stderr_write (s : string).

(** The file system, the registry and the modules [jsii-diff.ts] imports *)
Class World := {
  fs_pathExists : string -> bool;
  (** [spec.validateAssembly(await fs.readJSON(file))], then [.name] *)
  readAssemblyName : string -> Outcome string;
  (** [(await fs.stat(name)).isDirectory()] *)
  fs_stat_isDirectory : string -> Outcome bool;
  ts_loadModule : string -> Outcome Assembly;
  ts_loadFile : string -> Outcome Assembly;
  downloadNpmPackage : string -> (string -> Outcome Assembly) -> Outcome Load;
  showDownloadFailure : DownloadFailure -> string;
  compareAssemblies : Assembly -> Assembly -> bool -> Mismatches
}.

Definition LF : string := String (ascii_of_nat 10) EmptyString.

(** [s.split('\n')] *)
Fixpoint split_lines (s : string) : list string :=
  match s with
  | EmptyString => [EmptyString]
  | String c s' =>
      if Ascii.eqb c (ascii_of_nat 10)
      then EmptyString :: split_lines s'
      else match split_lines s' with
           | l :: ls => String c l :: ls
           | [] => [String c EmptyString]
           end
  end.

(** [s.replace(/^npm:(\/\/)?/, '')]: [None] when the expression does not
    match *)
Definition strip_NPM_REGEX (s : string) : option string :=
  if prefix "npm://" s then Some (substring 6 (String.length s - 6) s)
  else if prefix "npm:" s then Some (substring 4 (String.length s - 4) s)
  else None.

(** [pkg.indexOf('@', 1) === -1] *)
Definition no_version (pkg : string) : bool :=
  match index 1 "@" pkg with
  | Some _ => false
  | None => true
  end.

(** [`${n}`] for an integer *)
Definition Number_toString (n : Z) : string :=
  DecimalString.NilZero.string_of_int (Z.to_int n).

Section Program.
Context `{World}.

Definition loadPackageNameFromAssembly : Outcome string :=
  let JSII_ASSEMBLY_FILE := ".jsii" in
  if negb (fs_pathExists JSII_ASSEMBLY_FILE)
  then Thrown {| message := "No NPM package name given and no " ++ JSII_ASSEMBLY_FILE
                   ++ " file in the current directory. Please specify a package name." |}
  else
    match readAssemblyName JSII_ASSEMBLY_FILE with
    | Thrown e => Thrown e
    | Returned name =>
        if negb (truthy name)
        then Thrown {| message := "Could not find package in " ++ JSII_ASSEMBLY_FILE |}
        else Returned name
    end.

Definition loadFromFilesystem (name : string) : Outcome Assembly :=
  match fs_stat_isDirectory name with
  | Thrown e => Thrown e
  | Returned true => ts_loadModule name
  | Returned false => ts_loadFile name
  end.

(** The [catch] block of [loadAssembly]: what it logs and what it throws *)
Definition rethrow (resolved : string) (e : Error) : list Output * Error :=
  let maxLines := 3%nat in
  let messageWithContext :=
    ("Error loading assembly '" ++ resolved ++ "': " ++ message e)%string in
  let errorLines := split_lines messageWithContext in
  if (length errorLines <? maxLines)%nat
  then ([], {| message := messageWithContext |})
  else (map LOG_info errorLines,
        {| message := join LF (firstn maxLines errorLines ++ ["..."]) |}).

Definition loadAssembly (requested : string) : list Output * Outcome LoadAssemblyResult :=
  let catch (resolved : string) (e : Error) :=
    let (log, e') := rethrow resolved e in (log, @Thrown LoadAssemblyResult e') in
  match strip_NPM_REGEX requested with
  | Some pkg0 =>
      match (if negb (truthy pkg0) then loadPackageNameFromAssembly else Returned pkg0) with
      | Thrown e => catch requested e
      | Returned pkg =>
          let resolved := ("npm://" ++ pkg)%string in
          let resolved := if no_version pkg then (resolved ++ "@latest")%string else resolved in
          match downloadNpmPackage pkg loadFromFilesystem with
          | Thrown e => catch resolved e
          | Returned download =>
              ([], Returned {| requested := requested; resolved := resolved; load := download |})
          end
      end
  | None =>
      match loadFromFilesystem requested with
      | Thrown e => catch requested e
      | Returned assembly =>
          ([], Returned {| requested := requested; resolved := requested;
                           load := success assembly |})
      end
  end.

Definition skipping (l : LoadAssemblyResult) (reason : DownloadFailure) : Output :=
  stderr_write ("Could not load '" ++ resolved l ++ "': " ++ showDownloadFailure reason
                  ++ ". Skipping analysis" ++ LF).

(** [main], given the parsed command line; the result is what the
    promise settles to. *)
Definition main (argv : Argv) : list Output * Outcome Z :=
  let out :=
    [configureLog4js (verbose argv);
     LOG_debug ("Loading original assembly from " ++ original argv)] in
  match loadAssembly (original argv) with
  | (log, Thrown e) => (out ++ log, Thrown e)
  | (log, Returned loadOriginal) =>
      let out := out ++ log in
      match load loadOriginal with
      | failed reason => (out ++ [skipping loadOriginal reason], Returned 0%Z)
      | success original =>
          let out := out ++ [LOG_debug ("Loading updated assembly from " ++ updated argv)] in
          match loadAssembly (updated argv) with
          | (log, Thrown e) => (out ++ log, Thrown e)
          | (log, Returned loadUpdated) =>
              let out := out ++ log in
              match load loadUpdated with
              | failed reason => (out ++ [skipping loadUpdated reason], Returned 0%Z)
              | success updated =>
                  let out :=
                    out ++
                    (if negb (name original =? name updated)%string
                     then [stderr_write ("Look like different assemblies: '" ++ name original
                                           ++ "' vs '" ++ name updated
                                           ++ "'. Comparing is probably pointless..." ++ LF)]
                     else []) ++
                    [LOG_info "Starting analysis"] in
                  let mismatches :=
                    compareAssemblies original updated
                      (default_stability argv =? "experimental")%string in
                  let out :=
                    out ++ [LOG_info ("Found " ++ Number_toString (count mismatches)
                                        ++ " issues")] in
                  if (count mismatches >? 0)%Z
                  then
                    (out ++
                     [stderr_write ("Original assembly: " ++ name original ++ "@"
                                      ++ version original ++ LF);
                      stderr_write ("Updated assembly:  " ++ name updated ++ "@"
                                      ++ version updated ++ LF);
                      stderr_write ("API elements with incompatible changes:" ++ LF)] ++
                     map (fun msg => stderr_write ("- " ++ msg ++ LF)) (messages mismatches),
                     Returned 1%Z)
                  else (out, Returned 0%Z)
              end
          end
      end
  end.

(** [main().then(n => process.exit(n)).catch(e => ... process.exit(100))] *)
Definition exitCode (argv : Argv) : Z :=
  match snd (main argv) with
  | Returned n => n
  | Thrown _ => 100%Z
  end.

End Program.

End JsiiDiff.

(** ** Vocabulary of the properties *)

Section Vocabulary.
Context `{Externals}.

(** The comparator of [get implements()] *)
Definition byFqn (l r : GoType.t) : Z := localeCompare (GoType.fqn l) (GoType.fqn r).

(** The direct ancestors of a class: its base class, if any, and the
    interfaces it implements. *)
Definition directBases (type : ClassType.t) : nat :=
  match ClassType.base type with Some _ => 1 | None => 0 end
  + length (ClassType.interfaces type).

Definition moreThanOneDirectBase (type : ClassType.t) : Prop :=
  match ClassType.base type with
  | Some _ => directBases type > 1
  | None => length (ClassType.interfaces type) > 1
  end.

(** Some element of [type.getAncestors()] belongs to another assembly. *)
Definition hasForeignAncestor (type : ClassType.t) : Prop :=
  exists ancestor,
    In ancestor (ClassType.getAncestors type)
    /\ ReflectType.assembly_fqn ancestor <> ClassType.assembly_fqn type.

(** What the registry answers for the references of a class *)
Definition foundInterfaces (type : ClassType.t) : list (option GoType.t) :=
  map (fun iface => findType (ReflectType.fqn iface)) (ClassType.interfaces type).

Definition extends_of (type : ClassType.t) : Nullable GoType.t :=
  match ClassType.base type with
  | Some base =>
      match findType (ReflectType.fqn base) with
      | Some c => value c
      | None => undefined
      end
  | None => null
  end.

Definition implements_of (type : ClassType.t) : list (option GoType.t) :=
  Array_sort_sparse byFqn (foundInterfaces type).

Definition toOption {A} (v : Nullable A) : option A :=
  match v with value a => Some a | _ => None end.

(** Every reference of the class is in the registry. *)
Definition Resolved (type : ClassType.t) : Prop :=
  (forall base, ClassType.base type = Some base -> findType (ReflectType.fqn base) <> None)
  /\ Forall (fun iface => findType (ReflectType.fqn iface) <> None) (ClassType.interfaces type).

(** The comparator never puts two strings each strictly after the other. *)
Definition Consistent : Prop :=
  forall a b : string, (localeCompare a b <= 0)%Z \/ (localeCompare b a <= 0)%Z.

Definition nameLe {A} `{Named A} (l r : A) : Prop := (byName l r <= 0)%Z.

Definition fqnLe (l r : GoType.t) : Prop := (byFqn l r <= 0)%Z.

(** The object with its two caches cleared: what construction fixed. *)
Definition frozen (c : GoClass.t) : GoClass.t :=
  {| GoClass.super := GoClass.super c;
     GoClass.type := GoClass.type c;
     GoClass.methods := GoClass.methods c;
     GoClass.staticMethods := GoClass.staticMethods c;
     GoClass.properties := GoClass.properties c;
     GoClass.staticProperties := GoClass.staticProperties c;
     GoClass.reimplementedMethods := GoClass.reimplementedMethods c;
     GoClass.reimplementedProperties := GoClass.reimplementedProperties c;
     GoClass._extends := undefined;
     GoClass._implements := None;
     GoClass.initializer := GoClass.initializer c |}.

(** A cache is either unset or holds what the getter computes. *)
Definition coherent (c : GoClass.t) : Prop :=
  (GoClass._extends c = undefined \/ GoClass._extends c = extends_of (GoClass.type c))
  /\ (GoClass._implements c = None
      \/ GoClass._implements c = Some (implements_of (GoClass.type c))).

(** The references of a class that the registry is asked for *)
Definition references (type : ClassType.t) : list string :=
  match ClassType.base type with Some base => [ReflectType.fqn base] | None => [] end
  ++ map ReflectType.fqn (ClassType.interfaces type).

(** The registry lookups that the state of the caches accounts for *)
Definition resolutions (c : GoClass.t) : list string :=
  match GoClass._extends c, ClassType.base (GoClass.type c) with
  | undefined, _ => []
  | _, None => []
  | _, Some base => [ReflectType.fqn base]
  end
  ++ match GoClass._implements c with
     | None => []
     | Some _ => map ReflectType.fqn (ClassType.interfaces (GoClass.type c))
     end.

(** The states of the object constructed as [c0]: construction fixed
    everything but the caches, a cache is unset or right, and every lookup
    made so far filled a cache. *)
Definition Reachable (c0 : GoClass.t) (h : Heap) : Prop :=
  frozen (this h) = frozen c0
  /\ coherent (this h)
  /\ Permutation (lookups h) (resolutions (this h)).

(** A cache that is set in [h] holds the same value in [h']. *)
Definition keeps (h h' : Heap) : Prop :=
  (GoClass._extends (this h) <> undefined ->
   GoClass._extends (this h') = GoClass._extends (this h))
  /\ (GoClass._implements (this h) <> None ->
      GoClass._implements (this h') = GoClass._implements (this h)).

(** [m] returns [a] and writes [l], from every state of the object, and
    clears no cache. *)
Definition runs {A} (c0 : GoClass.t) (m : M A) (a : A) (l : list Emitted) : Prop :=
  forall h, Reachable c0 h ->
    exists h', m h = (Normal a, h') /\ Reachable c0 h' /\ written h' = written h ++ l
               /\ keeps h h'.

(** The public operations of a [GoClass] *)
Inductive Operation :=
| op_extends
| op_implements
| op_baseTypes
| op_emit
| op_emitRegistration.

Definition perform (o : Operation) (h : Heap) : Heap :=
  match o with
  | op_extends => snd (get_extends h)
  | op_implements => snd (get_implements h)
  | op_baseTypes => snd (get_baseTypes h)
  | op_emit => snd (emit h)
  | op_emitRegistration => snd (emitRegistration h)
  end.

Definition performAll (ops : list Operation) (h : Heap) : Heap :=
  fold_left (fun h o => perform o h) ops h.

(** The lines of the body of the proxy struct that [emitStruct] is to
    write for a class with the given resolved ancestors. *)
Definition embedExtends (this : GoClass.t) (base : GoType.t) : Emitted :=
  code_line (embedded this base ++ " // extends " ++ GoType.fqn base)%string.

Definition embedImplements (this : GoClass.t) (iface : GoType.t) : Emitted :=
  code_line (embedded this iface ++ " // implements " ++ GoType.fqn iface)%string.

Definition structHeader (this : GoClass.t) : list Emitted :=
  [ code_line ("// The jsii proxy struct for " ++ GoClass.name this)%string;
    code_openBlock ("type " ++ GoClass.proxyName this ++ " struct")%string ].

Definition blockEnd : list Emitted := [code_closeBlock; code_line_empty].

(** The interfaces of a class as [get implements()] returns them when
    they all resolve *)
Definition resolvedInterfaces (type : ClassType.t) : list GoType.t :=
  Array_sort byFqn (defined (foundInterfaces type)).

Definition interfaceName (this : GoClass.t) (ancestor : GoType.t) : Emitted :=
  code_line (scopedInterfaceName (Build_GoTypeRef (GoType.type_reference ancestor))
                                 (GoClass.pkg this)).

(** What each emitter writes for a class whose references resolve *)
Definition interface_out (c : GoClass.t) : list Emitted :=
  [ documenter_emit (ClassType.docs (GoClass.type c));
    code_openBlock ("type " ++ GoClass.name c ++ " interface")%string ]
  ++ match toOption (extends_of (GoClass.type c)) with
     | Some base => [interfaceName c base]
     | None => []
     end
  ++ map (interfaceName c) (resolvedInterfaces (GoClass.type c))
  ++ flat_map (fun p => [emitGetterDecl p; emitSetterDecl p]) (GoClass.properties c)
  ++ flat_map ClassMethod_emitDecl (GoClass.methods c)
  ++ blockEnd.

Definition struct_body (c : GoClass.t) : list Emitted :=
  match toOption (extends_of (GoClass.type c)), resolvedInterfaces (GoClass.type c) with
  | None, [] => [code_line "_ byte // padding"]
  | e, ifaces =>
      match e with Some base => [embedExtends c base] | None => [] end
      ++ map (embedImplements c) ifaces
  end.

Definition struct_out (c : GoClass.t) : list Emitted :=
  structHeader c ++ struct_body c ++ blockEnd.

Definition getters_out (c : GoClass.t) : list Emitted :=
  if (length (GoClass.properties c) =? 0)%nat
  then []
  else map emitGetterProxy (GoClass.properties c)
       ++ map emitGetterProxy (orEmpty (GoClass.reimplementedProperties c))
       ++ [code_line_empty].

Definition constructor_out (c : GoClass.t) : list Emitted :=
  match GoClass.initializer c with
  | Some i => GoClassConstructor_emit i
  | None => []
  end.

Definition setters_out (c : GoClass.t) : list Emitted :=
  map emitSetterProxy (GoClass.properties c)
  ++ map emitSetterProxy (orEmpty (GoClass.reimplementedProperties c)).

Definition statics_out (c : GoClass.t) : list Emitted :=
  flat_map StaticMethod_emit (GoClass.staticMethods c)
  ++ flat_map (emitStaticProperty c) (GoClass.staticProperties c).

Definition methods_out (c : GoClass.t) : list Emitted :=
  flat_map ClassMethod_emit (GoClass.methods c)
  ++ flat_map ClassMethod_emit (orEmpty (GoClass.reimplementedMethods c)).

Definition emit_out (c : GoClass.t) : list Emitted :=
  interface_out c ++ struct_out c ++ getters_out c ++ constructor_out c
  ++ setters_out c ++ statics_out c ++ methods_out c.

(** The body of the proxy struct with the interfaces embedded in the
    order the class declares them *)
Definition struct_as_declared (c : GoClass.t) : list Emitted :=
  structHeader c
  ++ match toOption (extends_of (GoClass.type c)) with
     | Some base => [embedExtends c base]
     | None => []
     end
  ++ map (embedImplements c) (defined (foundInterfaces (GoClass.type c)))
  ++ blockEnd.

(** The constructors whose runtime call is among the emitted calls *)
Definition constructions (l : list Emitted) : list GoClassConstructor.t :=
  flat_map (fun e => match e with ClassConstructor_emit i => [i] | _ => [] end) l.

(** The properties whose getter proxy, and whose setter proxy, is among
    the emitted calls *)
Definition getterProxies (l : list Emitted) : list GoProperty :=
  flat_map (fun e => match e with emitGetterProxy p => [p] | _ => [] end) l.

Definition setterProxies (l : list Emitted) : list GoProperty :=
  flat_map (fun e => match e with emitSetterProxy p => [p] | _ => [] end) l.

(** The methods whose runtime call is among the emitted calls *)
Definition methodCalls (l : list Emitted) : list ClassMethod :=
  flat_map (fun e => match e with MethodCall_emit m => [m] | _ => [] end) l.

(** The headers of the blocks opened among the emitted calls *)
Definition openedBlocks (l : list Emitted) : list string :=
  flat_map (fun e => match e with code_openBlock s => [s] | _ => [] end) l.

(** The headers of the functions of a class: the construction function,
    the free function of a static method, the getter and the setter
    function of a static property, and the implementation of an instance
    method, which has the proxy struct as its receiver *)
Definition constructorFunction (i : GoClassConstructor.t) : string :=
  ("func " ++ ("New" ++ GoType.name (GoClassConstructor.parent i))
     ++ "(" ++ join ", " (map GoParameter_toString (GoClassConstructor.parameters i))
     ++ ") " ++ GoType.name (GoClassConstructor.parent i))%string.

Definition staticFunction (m : StaticMethod) : string :=
  ("func " ++ GoType.name (ClassMethod_parent m) ++ "_" ++ GoMethod_name m
     ++ "(" ++ GoMethod_paramString m ++ ")" ++ returnTypeString m)%string.

Definition staticGetter (c : GoClass.t) (p : GoProperty) : string :=
  ("func " ++ (GoClass.name c ++ "_" ++ toPascalCase (GoProperty_name p))
     ++ "() " ++ GoProperty_returnType p)%string.

Definition staticSetter (c : GoClass.t) (p : GoProperty) : string :=
  ("func " ++ (GoClass.name c ++ "_Set" ++ toPascalCase (GoProperty_name p))
     ++ "(val " ++ GoProperty_returnType p ++ ")")%string.

Definition staticAccessors (c : GoClass.t) (p : GoProperty) : list string :=
  staticGetter c p :: if GoProperty_immutable p then [] else [staticSetter c p].

Definition methodFunction (m : ClassMethod) : string :=
  ("func (" ++ ClassMethod_instanceArg m ++ " *" ++ GoType.proxyName (ClassMethod_parent m)
     ++ ") " ++ GoMethod_name m ++ "(" ++ GoMethod_paramString m ++ ")"
     ++ returnTypeString m)%string.

End Vocabulary.




(** ** What [jsii-reflect] hands to the constructor

    [jsii-reflect] is not among the sources.  Its [ClassType] computes
    [getAncestors()] as the chain of base classes, the base class first,
    and [allMethods] and [allProperties] as the values of an object that
    is keyed by member name and holds the members of the base classes
    and of the class itself.  An interface is not among the ancestors,
    and a member that only an interface declares is not among the
    members. *)
Definition Reflected (type : ClassType.t) : Prop :=
  match ClassType.base type with
  | Some base => exists rest, ClassType.getAncestors type = base :: rest
  | None => ClassType.getAncestors type = []
  end
  /\ Forall (fun ancestor => ReflectType.kind ancestor = ClassKind)
            (ClassType.getAncestors type)
  /\ NoDup (map Method.name (ClassType.allMethods type))
  /\ NoDup (map Property.name (ClassType.allProperties type))
  /\ Forall (fun m => isType (Method.definingType m) type = true
                      \/ In (Method.definingType m) (ClassType.getAncestors type))
            (ClassType.allMethods type)
  /\ Forall (fun p => isType (Property.definingType p) type = true
                      \/ In (Property.definingType p) (ClassType.getAncestors type))
            (ClassType.allProperties type).

(** Some direct or transitive ancestor of the class, base class or
    interface, that the class names itself or that [getAncestors()]
    returns, belongs to another assembly. *)
Definition namesForeignAncestor (type : ClassType.t) : Prop :=
  exists ancestor,
    (ClassType.base type = Some ancestor
     \/ In ancestor (ClassType.interfaces type)
     \/ In ancestor (ClassType.getAncestors type))
    /\ ReflectType.assembly_fqn ancestor <> ClassType.assembly_fqn type.

(** ** A sample world *)

Module Sample.

Definition codeUnitCompare (a b : string) : Z :=
  match String.compare a b with Lt => (-1)%Z | Eq => 0%Z | Gt => 1%Z end.

Definition lower (c : ascii) : ascii :=
  let n := nat_of_ascii c in
  if ((65 <=? n) && (n <=? 90))%nat then ascii_of_nat (n + 32) else c.

Definition upper (c : ascii) : ascii :=
  let n := nat_of_ascii c in
  if ((97 <=? n) && (n <=? 122))%nat then ascii_of_nat (n - 32) else c.

Fixpoint lowercase (s : string) : string :=
  match s with
  | EmptyString => EmptyString
  | String c s' => String (lower c) (lowercase s')
  end.

Definition capitalize (s : string) : string :=
  match s with
  | EmptyString => EmptyString
  | String c s' => String (upper c) s'
  end.

(** A world over a registry of Go types, with plain spellings *)
Definition externals (registry : list GoType.t) : Externals :=
  {| localeCompare := codeUnitCompare;
     toLowerCase := lowercase;
     toPascalCase := capitalize;
     findType := fun fqn => find (fun c => (GoType.fqn c =? fqn)%string) registry;
     scopedInterfaceName := fun r _ => TypeReference_id (GoTypeRef_reference r);
     GoTypeRef_void := fun _ => false;
     GoMethod_name := fun m => capitalize (Method.name (method m));
     GoMethod_paramString := fun _ => "";
     GoMethod_reference := fun _ => None;
     Method_toString := fun _ => "string";
     GoProperty_name := fun p => capitalize (Property.name (property p));
     GoProperty_returnType := fun _ => "string";
     GoProperty_immutable := fun p => Property.immutable (property p);
     GoParameter_toString := fun p =>
       (Param.name (parameter p) ++ " " ++ TypeReference_id (Param.type (parameter p)))%string;
     JSII_RT_ALIAS := "_jsii_" |}.

Definition noDocs : Docs := {| summary := ""; Docs_toString := "" |}.

Definition pkgA : Package := {| packageName := "a" |}.
Definition pkgB : Package := {| packageName := "b" |}.

Definition goType (pkg : Package) (name : string) : GoType.t :=
  {| GoType.pkg := pkg;
     GoType.name := name;
     GoType.proxyName := ("jsiiProxy_" ++ name)%string;
     GoType.fqn := (packageName pkg ++ "." ++ name)%string;
     GoType.type_reference :=
       {| TypeReference_id := (packageName pkg ++ "." ++ name)%string |} |}.

Definition reflected (pkg : Package) (name : string) (kind : TypeKind) : ReflectType.t :=
  {| ReflectType.fqn := (packageName pkg ++ "." ++ name)%string;
     ReflectType.assembly_fqn := packageName pkg;
     ReflectType.kind := kind |}.

Definition method (name : string) (static : bool) (definedIn : ReflectType.t) : Method.t :=
  {| Method.name := name; Method.static := static; Method.definingType := definedIn;
     Method.docs := noDocs; Method.parameters := [] |}.

Definition prop (name : string) (static immutable : bool) (definedIn : ReflectType.t)
  : Property.t :=
  {| Property.name := name; Property.static := static; Property.immutable := immutable;
     Property.definingType := definedIn |}.

Definition Base := reflected pkgB "Base" ClassKind.
Definition Mixin := reflected pkgA "Mixin" InterfaceKind.
Definition Printable := reflected pkgA "Printable" InterfaceKind.
Definition Zebra := reflected pkgA "Zebra" InterfaceKind.
Definition WidgetT := reflected pkgA "Widget" ClassKind.

Definition registry : list GoType.t :=
  [goType pkgB "Base"; goType pkgA "Mixin"; goType pkgA "Printable"; goType pkgA "Zebra"].

Definition world : Externals := externals registry.

(** [Widget] (assembly [a]) extends [Base] (assembly [b]), which declares
    [wave] and the property [size], and implements [Mixin] (assembly [a]),
    which declares [greet]; it declares [greet], [run], the static
    [create] and the static property [count] itself, and no instance
    property.  Its ancestors and inherited members are those of the chain
    of base classes, the members of the base class first. *)
Definition Widget : ClassType.t :=
  {| ClassType.fqn := "a.Widget";
     ClassType.assembly_fqn := "a";
     ClassType.docs := noDocs;
     ClassType.base := Some Base;
     ClassType.interfaces := [Mixin];
     ClassType.getAncestors := [Base];
     ClassType.ownMethods :=
       [method "run" false WidgetT; method "greet" false WidgetT;
        method "create" true WidgetT];
     ClassType.ownProperties := [prop "count" true false WidgetT];
     ClassType.allMethods :=
       [method "wave" false Base; method "run" false WidgetT;
        method "greet" false WidgetT; method "create" true WidgetT];
     ClassType.allProperties := [prop "size" false false Base; prop "count" true false WidgetT];
     ClassType.initializer :=
       Some {| Initializer.parameters :=
                 [{| Param.name := "scope"; Param.type := {| TypeReference_id := "string" |} |}];
               Initializer.docs := noDocs |} |}.

(** [Point] (assembly [a]) has no base class and implements [Zebra] and
    [Printable], declared in this order, both of assembly [a]. *)
Definition Point : ClassType.t :=
  {| ClassType.fqn := "a.Point";
     ClassType.assembly_fqn := "a";
     ClassType.docs := noDocs;
     ClassType.base := None;
     ClassType.interfaces := [Zebra; Printable];
     ClassType.getAncestors := [];
     ClassType.ownMethods := [];
     ClassType.ownProperties := [];
     ClassType.allMethods := [];
     ClassType.allProperties := [];
     ClassType.initializer := None |}.

(** [Lonely] (assembly [a]) has no base class and implements nothing. *)
Definition Lonely : ClassType.t :=
  {| ClassType.fqn := "a.Lonely";
     ClassType.assembly_fqn := "a";
     ClassType.docs := noDocs;
     ClassType.base := None;
     ClassType.interfaces := [];
     ClassType.getAncestors := [];
     ClassType.ownMethods := [];
     ClassType.ownProperties := [];
     ClassType.allMethods := [];
     ClassType.allProperties := [];
     ClassType.initializer := None |}.

(** [Orphan] (assembly [a]) extends a class that the registry does not
    hold. *)
Definition Orphan : ClassType.t :=
  {| ClassType.fqn := "a.Orphan";
     ClassType.assembly_fqn := "a";
     ClassType.docs := noDocs;
     ClassType.base := Some (reflected pkgB "Missing" ClassKind);
     ClassType.interfaces := [];
     ClassType.getAncestors := [reflected pkgB "Missing" ClassKind];
     ClassType.ownMethods := [];
     ClassType.ownProperties := [];
     ClassType.allMethods := [];
     ClassType.allProperties := [];
     ClassType.initializer := None |}.

Definition widget : GoClass.t :=
  @new_GoClass world (goType pkgA "Widget") Widget.

(** The property [size] that [Widget] inherits from [Base], and its own
    static property [count], as properties of [widget] *)
Definition sizeProperty : GoProperty :=
  {| GoProperty_parent := goType pkgA "Widget"; property := prop "size" false false Base |}.

Definition countProperty : GoProperty :=
  {| GoProperty_parent := goType pkgA "Widget"; property := prop "count" true false WidgetT |}.

Definition point : GoClass.t := @new_GoClass world (goType pkgA "Point") Point.

End Sample.

(** The scenario of the reference documentation: [Base] (module [a])
    declares [greet]; the interface [Mixin] (module [b]) declares [wave];
    [Widget] (module [a]) extends [Base] and implements [Mixin], so it
    declares [wave] itself. *)
Module Scenario.

Definition Base := Sample.reflected Sample.pkgA "Base" ClassKind.
Definition Mixin := Sample.reflected Sample.pkgB "Mixin" InterfaceKind.
Definition WidgetT := Sample.reflected Sample.pkgA "Widget" ClassKind.

Definition world : Externals :=
  Sample.externals [Sample.goType Sample.pkgA "Base"; Sample.goType Sample.pkgB "Mixin"].

Definition Widget : ClassType.t :=
  {| ClassType.fqn := "a.Widget";
     ClassType.assembly_fqn := "a";
     ClassType.docs := Sample.noDocs;
     ClassType.base := Some Base;
     ClassType.interfaces := [Mixin];
     ClassType.getAncestors := [Base];
     ClassType.ownMethods := [Sample.method "wave" false WidgetT];
     ClassType.ownProperties := [];
     ClassType.allMethods :=
       [Sample.method "greet" false Base; Sample.method "wave" false WidgetT];
     ClassType.allProperties := [];
     ClassType.initializer := None |}.

Definition widget : GoClass.t :=
  @new_GoClass world (Sample.goType Sample.pkgA "Widget") Widget.

End Scenario.

(** [Stray] (assembly [a]) implements [Printable] and an interface that
    the sample registry does not hold. *)
Definition Stray : ClassType.t :=
  {| ClassType.fqn := "a.Stray";
     ClassType.assembly_fqn := "a";
     ClassType.docs := Sample.noDocs;
     ClassType.base := None;
     ClassType.interfaces :=
       [Sample.reflected Sample.pkgB "Ghost" InterfaceKind; Sample.Printable];
     ClassType.getAncestors := [];
     ClassType.ownMethods := [Sample.method "run" false (Sample.reflected Sample.pkgA "Stray" ClassKind)];
     ClassType.ownProperties := [];
     ClassType.allMethods := [Sample.method "run" false (Sample.reflected Sample.pkgA "Stray" ClassKind)];
     ClassType.allProperties := [];
     ClassType.initializer := None |}.

(** ** What reaches [process.stderr]

    [main] writes to the stream itself, [configureLog4js] sends the
    logger there, and the handler at the end of the script prints the
    error of a rejected [main] there with [console.error]. *)

(** The levels that [_logLevel] names, lowest first *)
Inductive Level := ALL | TRACE | DEBUG | INFO | WARN.

(** [_logLevel()] inside [configureLog4js(verbosity)] *)
Definition _logLevel (verbosity : Z) : Level :=
  match verbosity with
  | 0 => WARN
  | 1 => INFO
  | 2 => DEBUG
  | 3 => TRACE
  | _ => ALL
  end%Z.

Definition Level_rank (level : Level) : nat :=
  match level with ALL => 0 | TRACE => 1 | DEBUG => 2 | INFO => 3 | WARN => 4 end.

(** What the stream receives: a string that [process.stderr.write] was
    called with, a line of the logger in its [colored] layout, and an
    error printed by [console.error] *)
Inductive Stderr :=
| plain (s : string)
| colored (level : Level) (s : string)
| console_error (e : JsiiDiff.Error).

(** [log4js] is not among the sources: a logger passes a call on to its
    appender when the level of the call is not below the level of its
    category, and it has no appender on [process.stderr] before it is
    configured so. *)
Definition logged (category : option Level) (level : Level) (s : string) : list Stderr :=
  match category with
  | Some configured =>
      if (Level_rank configured <=? Level_rank level)%nat then [colored level s] else []
  | None => []
  end.

(** The stream after the events [out], oldest first, from a logger of
    the given category level *)
Fixpoint stderr_of (category : option Level) (out : list JsiiDiff.Output) : list Stderr :=
  match out with
  | [] => []
  | JsiiDiff.configureLog4js verbosity :: out' =>
      stderr_of (Some (_logLevel verbosity)) out'
  | JsiiDiff.LOG_debug s :: out' => logged category DEBUG s ++ stderr_of category out'
  | JsiiDiff.LOG_info s :: out' => logged category INFO s ++ stderr_of category out'
  | JsiiDiff.stderr_write s :: out' => plain s :: stderr_of category out'
  end.

(** How the process ends *)
Record Exit := { stderr : list Stderr; code : Z }.

(** The script:
    [main().then(n => process.exit(n)).catch(e => { console.error(e); process.exit(100); })] *)
Definition script `{JsiiDiff.World} (argv : JsiiDiff.Argv) : Exit :=
  match JsiiDiff.main argv with
  | (out, JsiiDiff.Returned n) => {| stderr := stderr_of None out; code := n |}
  | (out, JsiiDiff.Thrown e) =>
      {| stderr := stderr_of None out ++ [console_error e]; code := 100 |}
  end.

(** The strings among them that [process.stderr.write] was called with *)
Definition plains (l : list Stderr) : list string :=
  flat_map (fun x => match x with plain s => [s] | _ => [] end) l.

(** An event that is not a call of [configureLog4js] *)
Definition keepsLevel (o : JsiiDiff.Output) : Prop :=
  match o with JsiiDiff.configureLog4js _ => False | _ => True end.

(** The lines that [main] writes when it found mismatches *)
Definition report (original updated : JsiiDiff.Assembly) (messages : list string)
  : list string :=
  (if (JsiiDiff.name original =? JsiiDiff.name updated)%string then []
   else ["Look like different assemblies: '" ++ JsiiDiff.name original ++ "' vs '"
           ++ JsiiDiff.name updated ++ "'. Comparing is probably pointless..."
           ++ JsiiDiff.LF]%string)
  ++ ["Original assembly: " ++ JsiiDiff.name original ++ "@" ++ JsiiDiff.version original
        ++ JsiiDiff.LF;
      "Updated assembly:  " ++ JsiiDiff.name updated ++ "@" ++ JsiiDiff.version updated
        ++ JsiiDiff.LF;
      "API elements with incompatible changes:" ++ JsiiDiff.LF]%string
  ++ map (fun msg => "- " ++ msg ++ JsiiDiff.LF)%string messages.

(** A sample world for [jsii-diff]: the current directory holds the
    assembly of [local-pkg], every file but [missing] holds an assembly
    named after it, every package but those whose name starts with [gone]
    can be downloaded, and two assemblies differ when their names do. *)
Definition sampleDiffWorld : JsiiDiff.World :=
  {| JsiiDiff.fs_pathExists := fun _ => true;
     JsiiDiff.readAssemblyName := fun _ => JsiiDiff.Returned "local-pkg";
     JsiiDiff.fs_stat_isDirectory :=
       fun file =>
         if (file =? "missing")%string
         then JsiiDiff.Thrown {| JsiiDiff.message := "ENOENT: no such file" |}
         else JsiiDiff.Returned false;
     JsiiDiff.ts_loadModule :=
       fun file => JsiiDiff.Returned {| JsiiDiff.name := file; JsiiDiff.version := "1.0.0" |};
     JsiiDiff.ts_loadFile :=
       fun file => JsiiDiff.Returned {| JsiiDiff.name := file; JsiiDiff.version := "1.0.0" |};
     JsiiDiff.downloadNpmPackage :=
       fun pkg _ =>
         if prefix "gone" pkg
         then JsiiDiff.Returned
                (JsiiDiff.failed {| JsiiDiff.failure := "no_such_package" |})
         else JsiiDiff.Returned
                (JsiiDiff.success {| JsiiDiff.name := pkg; JsiiDiff.version := "1.0.0" |});
     JsiiDiff.showDownloadFailure := JsiiDiff.failure;
     JsiiDiff.compareAssemblies :=
       fun a b _ =>
         if (JsiiDiff.name a =? JsiiDiff.name b)%string
         then {| JsiiDiff.count := 0; JsiiDiff.messages := [] |}
         else {| JsiiDiff.count := 1; JsiiDiff.messages := ["the assembly was renamed"] |} |}.

Definition sampleArgv (original updated : string) : JsiiDiff.Argv :=
  {| JsiiDiff.original := original;
     JsiiDiff.updated := updated;
     JsiiDiff.verbose := 0;
     JsiiDiff.default_stability := "stable" |}.

(** ** More of [class.ts]: the packages a class uses *)

Section Packages.
Context `{Externals}.

(** [GoProperty.usesInitPackage] of [type-member.ts], and
    [getMemberDependencies] and [getParamDependencies] of [../util] *)
Variable GoProperty_usesInitPackage : GoProperty -> bool.
Variable getMemberDependencies_properties : list GoProperty -> list Package.
Variable getMemberDependencies_methods : list ClassMethod -> list Package.
Variable getParamDependencies : list ClassMethod -> list Package.

(** The field [usesInitPackage] of a [ClassMethod], and of a
    [StaticMethod], which overrides it *)
Definition ClassMethod_usesInitPackage (m : ClassMethod) : bool := false.

Definition StaticMethod_usesInitPackage (m : StaticMethod) : bool := true.

(** [this.initializer != null] *)
Definition hasInitializer (c : GoClass.t) : bool :=
  match GoClass.initializer c with Some _ => true | None => false end.

(** [get usesInitPackage()] *)
Definition usesInitPackage (c : GoClass.t) : bool :=
  hasInitializer c
  || existsb ClassMethod_usesInitPackage (GoClass.methods c)
  || existsb GoProperty_usesInitPackage (GoClass.properties c).

(** [get usesRuntimePackage()] *)
Definition usesRuntimePackage (c : GoClass.t) : bool :=
  hasInitializer c
  || (0 <? length (GoClass.methods c))%nat
  || (0 <? length (GoClass.properties c))%nat.

(** [get dependencies()] *)
Definition get_dependencies : M (list Package) :=
  bases <- get_baseTypes ;;
  pkgs <- mapM (fun ref => t <- deref ref ;; ret (GoType.pkg t)) bases ;;
  this <- getThis ;;
  ret (pkgs
       ++ getMemberDependencies_properties (GoClass.properties this)
       ++ getMemberDependencies_methods (GoClass.methods this)
       ++ getParamDependencies (GoClass.methods this)).

End Packages.

(** ** Vocabulary of the further properties *)

(** The state [h] after the calls [l] were written *)
Definition say (l : list Emitted) (h : Heap) : Heap :=
  {| this := this h; lookups := lookups h; written := written h ++ l |}.

(** The depth of open blocks after the calls of [l], from depth [d];
    [None] when a block is opened inside another or closed at depth 0. *)
Fixpoint nesting (d : nat) (l : list Emitted) : option nat :=
  match l with
  | [] => Some d
  | code_openBlock _ :: l' =>
      match d with
      | 0 => nesting 1 l'
      | S _ => None
      end
  | code_closeBlock :: l' =>
      match d with
      | 0 => None
      | S d' => nesting d' l'
      end
  | _ :: l' => nesting d l'
  end.

(** A call that opens and closes no block *)
Definition flat (e : Emitted) : Prop :=
  match e with
  | code_openBlock _ | code_closeBlock => False
  | _ => True
  end.

Section Signatures.
Context `{Externals}.

(** The line that declares a method in the interface *)
Definition signature (m : ClassMethod) : string :=
  (GoMethod_name m ++ "(" ++ GoMethod_paramString m ++ ")" ++ returnTypeString m)%string.

(** The packages of the direct ancestors of a class, as they resolve *)
Definition ancestorPackages (type : ClassType.t) : list Package :=
  map GoType.pkg
      (match toOption (extends_of type) with Some base => [base] | None => [] end
       ++ resolvedInterfaces type).

End Signatures.

(** The states of the object constructed as [c0], whatever the registry
    holds: construction fixed everything but the caches, and a cache is
    unset or right. *)
Definition Sound `{Externals} (c0 : GoClass.t) (h : Heap) : Prop :=
  frozen (this h) = frozen c0 /\ coherent (this h).

(** From every state of the object, [m] returns [a] and writes [l]; and
    [m] throws a [TypeError] after it wrote [l]. *)
Definition yields `{Externals} {A} (c0 : GoClass.t) (m : M A) (a : A) (l : list Emitted)
  : Prop :=
  forall h, Sound c0 h ->
    exists h', m h = (Normal a, h') /\ Sound c0 h' /\ written h' = written h ++ l.

Definition throws `{Externals} {A} (c0 : GoClass.t) (m : M A) (l : list Emitted) : Prop :=
  forall h, Sound c0 h ->
    exists h', m h = (TypeError, h') /\ Sound c0 h' /\ written h' = written h ++ l.

(** The interfaces of a class are in the registry; one of them is not. *)
Definition InterfacesResolved `{Externals} (type : ClassType.t) : Prop :=
  Forall (fun iface => findType (ReflectType.fqn iface) <> None) (ClassType.interfaces type).

Definition InterfaceMissing `{Externals} (type : ClassType.t) : Prop :=
  exists iface,
    In iface (ClassType.interfaces type) /\ findType (ReflectType.fqn iface) = None.

(** What a caller of [loadAssembly] sees but for [requested] *)
Definition outcomeOf (r : list JsiiDiff.Output * JsiiDiff.Outcome JsiiDiff.LoadAssemblyResult)
  : list JsiiDiff.Output * (string * JsiiDiff.Load + JsiiDiff.Error) :=
  (fst r,
   match snd r with
   | JsiiDiff.Returned l => inl (JsiiDiff.resolved l, JsiiDiff.load l)
   | JsiiDiff.Thrown e => inr e
   end).

(** No character of [s] is a line feed. *)
Fixpoint oneLine (s : string) : bool :=
  match s with
  | EmptyString => true
  | String c s' => negb (Ascii.eqb c (ascii_of_nat 10)) && oneLine s'
  end.

(** * Properties *)

(** ** [Array.prototype.sort] *)

Section SortFacts.
Context {A : Type} (comparefn : A -> A -> Z).

Lemma insert_Permutation (x : A) (l : list A) :
  Permutation (x :: l) (insert comparefn x l).
Proof.
  induction l as [|y l IH]; simpl.
  - reflexivity.
  - destruct (comparefn x y <=? 0)%Z.
    + reflexivity.
    + rewrite perm_swap. now apply perm_skip.
Qed.

Lemma Array_sort_Permutation (l : list A) : Permutation l (Array_sort comparefn l).
Proof.
  induction l as [|x l IH]; simpl.
  - constructor.
  - etransitivity; [apply perm_skip, IH | apply insert_Permutation].
Qed.

Lemma Array_sort_In (l : list A) (x : A) : In x (Array_sort comparefn l) <-> In x l.
Proof.
  split; apply Permutation_in;
    [symmetry |]; apply Array_sort_Permutation.
Qed.

Hypothesis total : forall x y, le_by comparefn x y \/ le_by comparefn y x.

Lemma insert_Sorted (x : A) (l : list A) :
  Sorted (le_by comparefn) l -> Sorted (le_by comparefn) (insert comparefn x l).
Proof.
  induction l as [|y l IH]; simpl; intros S.
  - repeat constructor.
  - destruct (Z.leb_spec (comparefn x y) 0) as [L|G].
    + constructor; [assumption | constructor; exact L].
    + inversion S as [|? ? S' Hd]; subst.
      constructor; [now apply IH |].
      assert (Lyx : le_by comparefn y x) by (destruct (total x y) as [T|T]; [unfold le_by in T; lia | exact T]).
      destruct l as [|z l]; simpl.
      * constructor. exact Lyx.
      * destruct (comparefn x z <=? 0)%Z; constructor;
          [exact Lyx | now inversion Hd].
Qed.

Lemma Array_sort_Sorted (l : list A) : Sorted (le_by comparefn) (Array_sort comparefn l).
Proof.
  induction l as [|x l IH]; simpl.
  - constructor.
  - now apply insert_Sorted.
Qed.

End SortFacts.

Lemma defined_map_Some {A} (l : list A) : defined (map Some l) = l.
Proof. induction l; simpl; congruence. Qed.

Lemma holes_map_Some {A} (l : list A) : holes (map Some l) = [].
Proof. induction l; simpl; congruence. Qed.

Lemma Array_sort_sparse_full {A} (cmp : A -> A -> Z) (l : list A) :
  Array_sort_sparse cmp (map Some l) = map Some (Array_sort cmp l).
Proof.
  unfold Array_sort_sparse. now rewrite defined_map_Some, holes_map_Some, app_nil_r.
Qed.

(** ** The sample world *)

Lemma codeUnitCompare_consistent (registry : list GoType.t) :
  @Consistent (Sample.externals registry).
Proof.
  intros a b. simpl. unfold Sample.codeUnitCompare.
  rewrite (String.compare_antisym a b).
  destruct (String.compare b a); simpl; lia.
Qed.

(** ** Flattening *)

Section Flattening.
Context `{Externals}.





Lemma inheritedMethod_spec (type : ClassType.t) (m : Method.t) :
  inheritedMethod type m = true
  <-> Method.static m = false
      /\ ReflectType.fqn (Method.definingType m) <> ClassType.fqn type.
Proof.
  unfold inheritedMethod, isType.
  now rewrite andb_true_iff, !negb_true_iff, String.eqb_neq.
Qed.












End Flattening.

(** ** Running the methods of one object *)

Lemma flat_map_singleton {A B} (f : A -> B) (l : list A) :
  flat_map (fun x => [f x]) l = map f l.
Proof. induction l; simpl; congruence. Qed.

Section Running.
Context `{Externals}.
Variable c0 : GoClass.t.

Lemma frozen_fields (c : GoClass.t) :
  frozen c = frozen c0 ->
  GoClass.super c = GoClass.super c0
  /\ GoClass.type c = GoClass.type c0
  /\ GoClass.methods c = GoClass.methods c0
  /\ GoClass.staticMethods c = GoClass.staticMethods c0
  /\ GoClass.properties c = GoClass.properties c0
  /\ GoClass.staticProperties c = GoClass.staticProperties c0
  /\ GoClass.reimplementedMethods c = GoClass.reimplementedMethods c0
  /\ GoClass.reimplementedProperties c = GoClass.reimplementedProperties c0
  /\ GoClass.initializer c = GoClass.initializer c0.
Proof. unfold frozen. intros E. injection E. intuition. Qed.

Lemma keeps_refl (h : Heap) : keeps h h.
Proof. split; reflexivity. Qed.

Lemma keeps_trans (h1 h2 h3 : Heap) : keeps h1 h2 -> keeps h2 h3 -> keeps h1 h3.
Proof.
  intros [E1 I1] [E2 I2]. split; intros N.
  - rewrite <- (E1 N). apply E2. now rewrite (E1 N).
  - rewrite <- (I1 N). apply I2. now rewrite (I1 N).
Qed.

Lemma runs_ret {A} (a : A) : runs c0 (ret a) a [].
Proof. intros h R. exists h. rewrite app_nil_r. auto using keeps_refl. Qed.

Lemma runs_tell (l : list Emitted) : runs c0 (tell l) tt l.
Proof.
  intros h (F & C & P). eexists. split; [reflexivity |].
  split; [| split; [reflexivity | split; reflexivity]].
  split; [exact F |]. split; [exact C | exact P].
Qed.

Lemma runs_deref {A} (a : A) : runs c0 (deref (Some a)) a [].
Proof. apply runs_ret. Qed.

Lemma runs_bind {A B} (m : M A) (k : A -> M B) (a : A) (b : B) (l1 l2 : list Emitted) :
  runs c0 m a l1 -> runs c0 (k a) b l2 -> runs c0 (bind m k) b (l1 ++ l2).
Proof.
  intros Rm Rk h R.
  destruct (Rm h R) as (h1 & E1 & R1 & W1 & K1).
  destruct (Rk h1 R1) as (h2 & E2 & R2 & W2 & K2).
  exists h2. unfold bind. rewrite E1, E2, W2, W1, app_assoc.
  eauto using keeps_trans.
Qed.

Lemma runs_getThis {B} (k : GoClass.t -> M B) (b : B) (l : list Emitted) :
  (forall c, frozen c = frozen c0 -> runs c0 (k c) b l) ->
  runs c0 (bind getThis k) b l.
Proof.
  intros Rk h R. unfold bind, getThis. apply Rk; [apply R | exact R].
Qed.

Lemma runs_weaken {A} (m : M A) (a : A) (l l' : list Emitted) :
  runs c0 m a l -> l = l' -> runs c0 m a l'.
Proof. now intros R <-. Qed.

Lemma runs_forEach {X} (body : X -> M unit) (out : X -> list Emitted) (l : list X) :
  (forall x, In x l -> runs c0 (body x) tt (out x)) ->
  runs c0 (forEach l body) tt (flat_map out l).
Proof.
  induction l as [|x l IH]; simpl; intros Rb.
  - apply runs_ret.
  - eapply runs_bind; [apply Rb; now left |].
    apply IH. intros y I. apply Rb. now right.
Qed.

Lemma runs_forEach_resolved (f : GoType.t -> Emitted) (l : list GoType.t) :
  runs c0 (forEach (map Some l) (fun i => bind (deref i) (fun iface => tell [f iface])))
       tt (map f l).
Proof.
  eapply runs_weaken.
  - apply runs_forEach with (out := fun i => match i with Some g => [f g] | None => [] end).
    intros [g|] I.
    + eapply runs_weaken; [eapply runs_bind; [apply runs_deref | apply runs_tell] |].
      reflexivity.
    + apply in_map_iff in I. destruct I as (? & ? & ?). discriminate.
  - induction l; simpl; congruence.
Qed.

Hypothesis resolved : Resolved (GoClass.type c0).

Lemma foundInterfaces_resolved :
  foundInterfaces (GoClass.type c0)
  = map Some (defined (foundInterfaces (GoClass.type c0))).
Proof.
  destruct resolved as [_ R]. unfold foundInterfaces.
  induction R as [|i l Hi R IH]; simpl; trivial.
  destruct (findType (ReflectType.fqn i)); [| contradiction].
  simpl. now rewrite <- IH.
Qed.

Lemma implements_of_resolved :
  implements_of (GoClass.type c0) = map Some (resolvedInterfaces (GoClass.type c0)).
Proof.
  unfold implements_of, resolvedInterfaces.
  rewrite foundInterfaces_resolved at 1. apply Array_sort_sparse_full.
Qed.

Lemma mapM_findType (l : list ReflectType.t) (h : Heap) :
  mapM (fun iface => root_findType (ReflectType.fqn iface)) l h
  = (Normal (map (fun iface => findType (ReflectType.fqn iface)) l),
     {| this := this h;
        lookups := lookups h ++ map ReflectType.fqn l;
        written := written h |}).
Proof.
  revert h. induction l as [|i l IH]; intros h; simpl.
  - unfold ret. rewrite app_nil_r. now destruct h.
  - unfold bind at 1. unfold root_findType at 1. unfold bind at 1.
    rewrite IH. simpl. unfold ret. now rewrite <- app_assoc.
Qed.

Lemma runs_get_extends :
  runs c0 get_extends (toOption (extends_of (GoClass.type c0))) [].
Proof.
  intros [c lk wr] (F & (Ce & Ci) & P). simpl in *.
  pose proof (frozen_fields F) as (_ & Ty & _).
  unfold get_extends, bind, getThis, ret, setThis, root_findType. simpl.
  rewrite app_nil_r.
  destruct c as [su ty ms sms ps sps rms rps ex im ini]. simpl in *. subst ty.
  unfold resolutions in P. simpl in *.
  destruct ex as [| |g].
  - (* the first access *)
    unfold extends_of in *.
    destruct (ClassType.base (GoClass.type c0)) as [b|] eqn:Eb; simpl.
    + destruct (findType (ReflectType.fqn b)) as [g|] eqn:Eg;
        [| exfalso; exact (proj1 resolved b Eb Eg)].
      simpl. eexists. split; [reflexivity |].
      split; [| split; [reflexivity | split; simpl; [congruence | reflexivity]]].
      unfold Reachable, coherent, resolutions, extends_of. simpl. rewrite Eb, Eg.
      split; [exact F |].
      split; [split; [now right | exact Ci] |].
      rewrite Permutation_app_comm. simpl. now apply perm_skip.
    + eexists. split; [reflexivity |].
      split; [| split; [reflexivity | split; simpl; [congruence | reflexivity]]].
      unfold Reachable, coherent, resolutions, extends_of. simpl. rewrite Eb.
      split; [exact F |].
      split; [split; [now right | exact Ci] | exact P].
  - destruct Ce as [Ce|Ce]; [discriminate |]. rewrite <- Ce.
    eexists. split; [reflexivity |].
    split; [| split; [reflexivity | apply keeps_refl]].
    unfold Reachable, coherent, resolutions. simpl.
    split; [exact F |].
    split; [split; [now right | exact Ci] | exact P].
  - destruct Ce as [Ce|Ce]; [discriminate |]. rewrite <- Ce.
    eexists. split; [reflexivity |].
    split; [| split; [reflexivity | apply keeps_refl]].
    unfold Reachable, coherent, resolutions. simpl.
    split; [exact F |].
    split; [split; [now right | exact Ci] | exact P].
Qed.

Lemma runs_get_implements :
  runs c0 get_implements (implements_of (GoClass.type c0)) [].
Proof.
  intros [c lk wr] (F & (Ce & Ci) & P). simpl in *.
  pose proof (frozen_fields F) as (_ & Ty & _).
  unfold get_implements, bind, getThis. simpl.
  destruct c as [su ty ms sms ps sps rms rps ex im ini]. simpl in *. subst ty.
  unfold resolutions in P. simpl in *.
  destruct im as [l|].
  - destruct Ci as [Ci|Ci]; [discriminate |]. injection Ci as ->.
    unfold ret. simpl. rewrite app_nil_r.
    eexists. split; [reflexivity |].
    split; [| split; [reflexivity | apply keeps_refl]].
    unfold Reachable, coherent, resolutions. simpl.
    split; [exact F |].
    split; [split; [exact Ce | now right] | exact P].
  - rewrite mapM_findType. simpl. unfold ret. rewrite app_nil_r.
    eexists. split; [reflexivity |].
    split; [| split; [reflexivity | split; simpl; [reflexivity | congruence]]].
    unfold Reachable, coherent, resolutions. simpl.
    split; [exact F |].
    split; [split; [exact Ce | now right] |].
    rewrite app_nil_r in P. now apply Permutation_app_tail.
Qed.

Ltac same_object c Fc :=
  intros c Fc;
  let Su := fresh "Su" in let Ty := fresh "Ty" in let Ms := fresh "Ms" in
  let Sms := fresh "Sms" in let Ps := fresh "Ps" in let Sps := fresh "Sps" in
  let Rms := fresh "Rms" in let Rps := fresh "Rps" in let Ini := fresh "Ini" in
  destruct (frozen_fields Fc) as (Su & Ty & Ms & Sms & Ps & Sps & Rms & Rps & Ini);
  unfold embedded, GoClass.name, GoClass.pkg, GoClass.proxyName, GoClass.fqn;
  rewrite ?Su, ?Ty, ?Ms, ?Sms, ?Ps, ?Sps, ?Rms, ?Rps, ?Ini;
  clear Su Ty Ms Sms Ps Sps Rms Rps Ini.

Lemma runs_if {A} (b : bool) (m1 m2 : M A) (a1 a2 : A) (l1 l2 : list Emitted) :
  runs c0 m1 a1 l1 -> runs c0 m2 a2 l2 ->
  runs c0 (if b then m1 else m2) (if b then a1 else a2) (if b then l1 else l2).
Proof. now destruct b. Qed.

Ltac run :=
  repeat lazymatch goal with
  | |- runs _ (bind _ _) _ _ => eapply runs_bind; [| cbv beta iota]
  | |- runs _ (if _ then _ else _) _ _ => apply runs_if
  | |- runs _ (tell _) _ _ => apply runs_tell
  | |- runs _ (ret _) _ _ => apply runs_ret
  | |- runs _ (deref (Some _)) _ _ => apply runs_deref
  | |- runs _ get_extends _ _ => eassumption
  | |- runs _ get_implements _ _ => eassumption
  | |- runs _ (forEach (map Some _) _) _ _ => apply runs_forEach_resolved
  | |- runs _ (forEach _ _) _ _ => apply runs_forEach; intros ? _
  end.

Lemma runs_emitInterface : runs c0 emitInterface tt (interface_out c0).
Proof.
  unfold emitInterface. apply runs_getThis. same_object c Fc.
  pose proof runs_get_extends as Re.
  pose proof runs_get_implements as Ri. rewrite implements_of_resolved in Ri.
  unfold interface_out.
  destruct (toOption (extends_of (GoClass.type c0))) as [base|];
    (eapply runs_weaken; [run | reflexivity]).
Qed.

Lemma runs_emitStruct : runs c0 emitStruct tt (struct_out c0).
Proof.
  unfold emitStruct. apply runs_getThis. same_object c Fc.
  pose proof runs_get_extends as Re.
  pose proof runs_get_implements as Ri. rewrite implements_of_resolved in Ri.
  unfold struct_out, struct_body.
  destruct (toOption (extends_of (GoClass.type c0))) as [base|].
  - eapply runs_weaken.
    + run.
    + unfold embedExtends, embedImplements, embedded, GoClass.pkg.
      destruct (Package_eqb (GoType.pkg base) (GoType.pkg (GoClass.super c0)));
        destruct (resolvedInterfaces (GoClass.type c0)); reflexivity.
  - destruct (resolvedInterfaces (GoClass.type c0)) as [|i l] eqn:El;
      (eapply runs_weaken; [run; simpl; run | reflexivity]).
Qed.

Lemma runs_emitGetters : runs c0 emitGetters tt (getters_out c0).
Proof.
  unfold emitGetters. apply runs_getThis. same_object c Fc.
  unfold getters_out.
  destruct (length (GoClass.properties c0) =? 0)%nat.
  - apply runs_ret.
  - eapply runs_weaken; [run |].
    rewrite !flat_map_singleton. reflexivity.
Qed.

Lemma runs_emitSetters : runs c0 emitSetters tt (setters_out c0).
Proof.
  unfold emitSetters. apply runs_getThis. same_object c Fc.
  unfold setters_out.
  eapply runs_weaken; [run |].
  rewrite !flat_map_singleton. reflexivity.
Qed.

Lemma runs_emit : runs c0 emit tt (emit_out c0).
Proof.
  unfold emit, emit_out.
  eapply runs_bind; [apply runs_emitInterface |].
  eapply runs_bind; [apply runs_emitStruct |].
  eapply runs_bind; [apply runs_emitGetters |].
  apply runs_getThis. intros c Fc.
  destruct (frozen_fields Fc) as (Su & Ty & Ms & Sms & Ps & Sps & Rms & Rps & Ini).
  unfold emitStaticProperty, GoClass.name.
  rewrite Su, Ms, Sms, Sps, Rms, Ini.
  unfold constructor_out, statics_out, methods_out.
  destruct (GoClass.initializer c0) as [i|];
    (eapply runs_weaken;
     [ eapply runs_bind; [apply runs_tell || apply runs_ret |];
       eapply runs_bind; [apply runs_emitSetters |]; run
     | rewrite <- ?app_assoc; reflexivity ]).
Qed.

Lemma runs_get_baseTypes :
  runs c0 get_baseTypes
       (match toOption (extends_of (GoClass.type c0)) with
        | Some base => [Some base]
        | None => []
        end ++ implements_of (GoClass.type c0)) [].
Proof.
  unfold get_baseTypes.
  pose proof runs_get_extends as Re.
  pose proof runs_get_implements as Ri.
  destruct (toOption (extends_of (GoClass.type c0))) as [base|];
    (eapply runs_weaken; [run | reflexivity]).
Qed.

Lemma runs_emitRegistration :
  runs c0 emitRegistration tt
       [ code_open (JSII_RT_ALIAS ++ ".RegisterClass(")%string;
         code_line (quote ++ GoClass.fqn c0 ++ quote ++ ",")%string;
         code_line ("reflect.TypeOf((*" ++ GoClass.name c0 ++ ")(nil)).Elem(),")%string;
         emitProxyMakerFunction
           (match toOption (extends_of (GoClass.type c0)) with
            | Some base => [Some base]
            | None => []
            end ++ implements_of (GoClass.type c0));
         code_close ")" ].
Proof.
  unfold emitRegistration. apply runs_getThis. same_object c Fc.
  eapply runs_weaken.
  - do 3 (eapply runs_bind; [apply runs_tell |]).
    eapply runs_bind; [apply runs_get_baseTypes |]. run.
  - reflexivity.
Qed.

End Running.

(** ** The states an object goes through *)

Section Reachability.
Context `{Externals}.
Variables (this0 : GoType.t) (type : ClassType.t).
Hypothesis resolved : Resolved type.

Let c0 : GoClass.t := new_GoClass this0 type.

Lemma resolved_c0 : Resolved (GoClass.type c0).
Proof. exact resolved. Qed.

Lemma fresh_Reachable : Reachable c0 (fresh c0).
Proof.
  split; [reflexivity |]. split.
  - split; now left.
  - reflexivity.
Qed.

Lemma perform_runs (o : Operation) (h : Heap) :
  Reachable c0 h ->
  Reachable c0 (perform o h) /\ keeps h (perform o h).
Proof.
  intros R. destruct o; simpl.
  - destruct (runs_get_extends resolved_c0 R) as (h' & E & R' & _ & K). now rewrite E.
  - destruct (runs_get_implements R) as (h' & E & R' & _ & K). now rewrite E.
  - destruct (runs_get_baseTypes resolved_c0 R) as (h' & E & R' & _ & K). now rewrite E.
  - destruct (runs_emit resolved_c0 R) as (h' & E & R' & _ & K). now rewrite E.
  - destruct (runs_emitRegistration resolved_c0 R) as (h' & E & R' & _ & K). now rewrite E.
Qed.

Lemma performAll_runs (ops : list Operation) (h : Heap) :
  Reachable c0 h ->
  Reachable c0 (performAll ops h) /\ keeps h (performAll ops h).
Proof.
  revert h. induction ops as [|o ops IH]; intros h R; simpl.
  - split; [exact R | apply keeps_refl].
  - destruct (perform_runs o R) as [R1 K1].
    destruct (IH _ R1) as [R2 K2].
    split; [exact R2 | eapply keeps_trans; eassumption].
Qed.

Lemma resolutions_references (c : GoClass.t) :
  GoClass.type c = type ->
  exists rest, Permutation (resolutions c ++ rest) (references type).
Proof.
  intros E. unfold resolutions, references. rewrite E.
  set (ifaces := map ReflectType.fqn (ClassType.interfaces type)).
  destruct (GoClass._extends c), (ClassType.base type) as [b|],
    (GoClass._implements c); simpl;
    first [ exists []; rewrite ?app_nil_r; reflexivity
          | exists ifaces; reflexivity
          | exists [ReflectType.fqn b]; rewrite Permutation_app_comm; reflexivity
          | exists (ReflectType.fqn b :: ifaces); reflexivity ].
Qed.

Lemma Reachable_type (h : Heap) : Reachable c0 h -> GoClass.type (this h) = type.
Proof. intros (F & _). now destruct (frozen_fields F) as (_ & Ty & _). Qed.

Lemma cached_extends (h : Heap) :
  Reachable c0 h ->
  GoClass._extends (this h) <> undefined ->
  get_extends h = (Normal (toOption (extends_of type)), h).
Proof.
  intros R N. pose proof (Reachable_type R) as Ty.
  destruct R as (_ & ([Ce|Ce] & _) & _); [contradiction |].
  unfold get_extends, bind, getThis, ret. rewrite Ty in Ce.
  simpl. destruct (GoClass._extends (this h)) eqn:E; [contradiction | |];
    simpl; rewrite E, <- Ce; reflexivity.
Qed.

Lemma cached_implements (h : Heap) :
  Reachable c0 h ->
  GoClass._implements (this h) <> None ->
  get_implements h = (Normal (implements_of type), h).
Proof.
  intros R N. pose proof (Reachable_type R) as Ty.
  destruct R as (_ & (_ & [Ci|Ci]) & _); [contradiction |].
  unfold get_implements, bind, getThis, ret. rewrite Ty in Ci.
  simpl. rewrite Ci. simpl. now rewrite Ci.
Qed.

Lemma extends_settles (h : Heap) :
  Reachable c0 h -> GoClass._extends (this (snd (get_extends h))) <> undefined.
Proof.
  intros R. pose proof (Reachable_type R) as Ty.
  unfold get_extends, bind, getThis, ret, setThis, root_findType. simpl.
  destruct (GoClass._extends (this h)) eqn:E; simpl; rewrite ?E; try discriminate.
  rewrite Ty.
  destruct (ClassType.base type) as [b|] eqn:Eb; simpl; [| discriminate].
  destruct (findType (ReflectType.fqn b)) eqn:Eg; simpl; [discriminate |].
  exfalso. exact (proj1 resolved b Eb Eg).
Qed.

Lemma implements_settles (h : Heap) :
  GoClass._implements (this (snd (get_implements h))) <> None.
Proof.
  unfold get_implements, bind, getThis, ret, setThis. simpl.
  destruct (GoClass._implements (this h)) eqn:E; simpl; rewrite ?E; try discriminate.
  rewrite mapM_findType. simpl. discriminate.
Qed.

End Reachability.

Lemma Widget_Resolved : @Resolved Sample.world Sample.Widget.
Proof.
  split.
  - intros b E. injection E as <-. discriminate.
  - repeat constructor; discriminate.
Qed.

Lemma Point_Resolved : @Resolved Sample.world Sample.Point.
Proof.
  split.
  - intros b E. discriminate.
  - repeat constructor; discriminate.
Qed.



(** C1, at the scenario of the reference documentation.  [Widget] has two
    direct ancestors, and one of them, the interface [Mixin], belongs to
    another assembly; but the constructor looks for another assembly
    among the base classes only, finds none, and leaves both
    re-implementation lists unset.  [emit] then embeds the proxy struct
    of [Base] and the interface [Mixin] side by side and implements
    [wave] alone, not the inherited [greet]. *)
Theorem flattening_misses_foreign_interface :
  Reflected Scenario.Widget
  /\ @moreThanOneDirectBase Scenario.Widget
  /\ namesForeignAncestor Scenario.Widget
  /\ In Scenario.Mixin (ClassType.interfaces Scenario.Widget)
  /\ ReflectType.assembly_fqn Scenario.Mixin <> ClassType.assembly_fqn Scenario.Widget
  /\ ~ @hasForeignAncestor Scenario.Widget
  /\ GoClass.reimplementedMethods Scenario.widget = None
  /\ GoClass.reimplementedProperties Scenario.widget = None
  /\ exists h',
       @emit Scenario.world (fresh Scenario.widget) = (Normal tt, h')
       /\ In (code_line "jsiiProxy_Base // extends a.Base") (written h')
       /\ In (code_line "b.Mixin // implements b.Mixin") (written h')
       /\ map (fun m => Method.name (method m)) (@methodCalls (written h')) = ["wave"].
Proof.
  split.
  { split; [now exists [] |].
    split; [repeat constructor |].
    split; [repeat constructor; simpl; intuition discriminate |].
    split; [constructor |].
    split;
      repeat (apply Forall_cons; [first [left; reflexivity | right; left; reflexivity] |]);
      apply Forall_nil. }
  split; [unfold moreThanOneDirectBase, directBases; simpl; lia |].
  split; [exists Scenario.Mixin; split; [right; left; now left | discriminate] |].
  split; [now left |].
  split; [discriminate |].
  split.
  { intros (a & [<-|[]] & F). now apply F. }
  split; [reflexivity |]. split; [reflexivity |].
  eexists. split; [vm_compute; reflexivity |].
  split; [vm_compute; tauto |]. split; [vm_compute; tauto |]. reflexivity.
Qed.

(** ** The proxy struct *)

Section Struct.
Context `{Externals}.
Variables (this0 : GoType.t) (type : ClassType.t).

Lemma resolvedInterfaces_Permutation :
  Resolved type ->
  Permutation (map Some (resolvedInterfaces type)) (foundInterfaces type).
Proof.
  intros R.
  pose proof (@foundInterfaces_resolved _ (new_GoClass this0 type) R) as E.
  simpl in E. rewrite E.
  apply Permutation_map. symmetry. apply Array_sort_Permutation.
Qed.

Lemma resolvedInterfaces_length :
  Resolved type ->
  length (resolvedInterfaces type) = length (ClassType.interfaces type).
Proof.
  intros R.
  rewrite <- (length_map Some), (Permutation_length (resolvedInterfaces_Permutation R)).
  apply length_map.
Qed.

Lemma extends_of_base :
  Resolved type ->
  forall base, ClassType.base type = Some base ->
               exists c, toOption (extends_of type) = Some c
                         /\ findType (ReflectType.fqn base) = Some c.
Proof.
  intros [R _] base E. unfold extends_of. rewrite E.
  destruct (findType (ReflectType.fqn base)) as [c|] eqn:F.
  - now exists c.
  - now destruct (R base E).
Qed.

Lemma struct_body_embeds :
  Resolved type ->
  directBases type >= 1 ->
  struct_body (new_GoClass this0 type)
  = match toOption (extends_of type) with
    | Some base => [embedExtends (new_GoClass this0 type) base]
    | None => []
    end
    ++ map (embedImplements (new_GoClass this0 type)) (resolvedInterfaces type).
Proof.
  intros R D. unfold struct_body. simpl.
  destruct (toOption (extends_of type)) as [g|] eqn:Eg.
  - now destruct (resolvedInterfaces type).
  - pose proof (resolvedInterfaces_length R) as L.
    destruct (resolvedInterfaces type); [| reflexivity].
    exfalso. unfold directBases in D.
    destruct (ClassType.base type) as [b|] eqn:Eb.
    + destruct (extends_of_base R Eb) as (c & Ec & _). congruence.
    + simpl in *. lia.
Qed.

(** C4, as [emitStruct] has it.  For a class with at least one direct
    ancestor, all of them in the registry, the body of the proxy struct
    embeds the base class first, if there is one, and then the implemented
    interfaces sorted by fully-qualified name, which need not be the order
    the class declares them in; each ancestor is embedded as its proxy
    struct when it is in the package of the class and as its scoped
    interface name otherwise. *)
Theorem emitStruct_embeds_sorted :
  Resolved type ->
  Consistent ->
  directBases type >= 1 ->
  exists h' ifaces,
    emitStruct (fresh (new_GoClass this0 type)) = (Normal tt, h')
    /\ written h'
       = structHeader (new_GoClass this0 type)
         ++ match ClassType.base type with
            | Some base =>
                match findType (ReflectType.fqn base) with
                | Some c => [embedExtends (new_GoClass this0 type) c]
                | None => []
                end
            | None => []
            end
         ++ map (embedImplements (new_GoClass this0 type)) ifaces
         ++ blockEnd
    /\ Permutation (map Some ifaces) (foundInterfaces type)
    /\ Sorted fqnLe ifaces
    /\ forall ancestor,
         embedded (new_GoClass this0 type) ancestor
         = if Package_eqb (GoType.pkg ancestor) (GoType.pkg this0)
           then GoType.proxyName ancestor
           else scopedInterfaceName (Build_GoTypeRef (GoType.type_reference ancestor))
                                    (GoType.pkg this0).
Proof.
  intros R total D.
  destruct (runs_emitStruct (resolved_c0 this0 R) (fresh_Reachable this0 type))
    as (h' & E & _ & W & _).
  exists h', (resolvedInterfaces type).
  split; [exact E |]. split.
  - rewrite W. simpl. unfold struct_out. rewrite (struct_body_embeds R D).
    rewrite <- !app_assoc. do 2 f_equal.
    unfold extends_of.
    destruct (ClassType.base type) as [b|]; [| reflexivity].
    now destruct (findType (ReflectType.fqn b)).
  - split; [exact (resolvedInterfaces_Permutation R) |].
    split; [| reflexivity].
    apply Array_sort_Sorted. intros x y. apply total.
Qed.

(** C5.  For a class with neither a base class nor an interface, the
    body of the proxy struct is the one padding field and nothing else. *)
Theorem emitStruct_padding :
  ClassType.base type = None ->
  ClassType.interfaces type = [] ->
  exists h',
    emitStruct (fresh (new_GoClass this0 type)) = (Normal tt, h')
    /\ written h'
       = [ code_line ("// The jsii proxy struct for " ++ GoType.name this0)%string;
           code_openBlock ("type " ++ GoType.proxyName this0 ++ " struct")%string;
           code_line "_ byte // padding";
           code_closeBlock;
           code_line_empty ].
Proof.
  intros B I.
  assert (R : Resolved type).
  { split; [intros b E; congruence | rewrite I; constructor]. }
  destruct (runs_emitStruct (resolved_c0 this0 R) (fresh_Reachable this0 type))
    as (h' & E & _ & W & _).
  exists h'. split; [exact E |].
  rewrite W. simpl. unfold struct_out, struct_body, resolvedInterfaces, foundInterfaces,
    extends_of. simpl. rewrite B, I. reflexivity.
Qed.

End Struct.

(** ** What [emit] writes *)

Lemma flat_map_flat_map {A B C} (f : A -> list B) (g : B -> list C) (l : list A) :
  flat_map g (flat_map f l) = flat_map (fun x => flat_map g (f x)) l.
Proof.
  induction l as [|x l IH]; simpl; trivial.
  now rewrite flat_map_app, IH.
Qed.

Lemma flat_map_nil {A B} (f : A -> list B) (l : list A) :
  (forall x, f x = []) -> flat_map f l = [].
Proof. intros E. induction l as [|x l IH]; simpl; trivial. now rewrite E, IH. Qed.

Lemma flat_map_map {A B C} (f : A -> B) (g : B -> list C) (l : list A) :
  flat_map g (map f l) = flat_map (fun x => g (f x)) l.
Proof. induction l as [|x l IH]; simpl; congruence. Qed.

Lemma flat_map_unit {A} (l : list A) : flat_map (fun x => [x]) l = l.
Proof. induction l; simpl; congruence. Qed.

(** *** Strings *)

Lemma prefix_append (p s : string) : prefix p (p ++ s)%string = true.
Proof.
  induction p as [|c p IH]; simpl.
  - now destruct s.
  - destruct (ascii_dec c c); [exact IH | contradiction].
Qed.

Lemma append_associative (a b c : string) : ((a ++ b) ++ c = a ++ b ++ c)%string.
Proof. induction a; simpl; congruence. Qed.

Lemma prefix_empty (s : string) : prefix "" s = true.
Proof. now destruct s. Qed.

Lemma prefix_scoped (name rest : string) :
  prefix (name ++ "_") (name ++ String "_" rest) = true.
Proof.
  change (String "_" rest) with ("_" ++ rest)%string.
  rewrite <- append_associative. apply prefix_append.
Qed.

Section Emit.
Context `{Externals}.
Variables (this0 : GoType.t) (type : ClassType.t).
Hypothesis resolved : Resolved type.

Lemma emit_fresh :
  exists h',
    emit (fresh (new_GoClass this0 type)) = (Normal tt, h')
    /\ written h' = emit_out (new_GoClass this0 type).
Proof.
  destruct (runs_emit (resolved_c0 this0 resolved) (fresh_Reachable this0 type))
    as (h' & E & _ & W & _).
  exists h'. split; [exact E | exact W].
Qed.

Lemma constructions_GoClassConstructor_emit (i : GoClassConstructor.t) :
  constructions (GoClassConstructor_emit i) = [i].
Proof.
  unfold GoClassConstructor_emit. now destruct (truthy _).
Qed.

Ltac solve_nil :=
  intros; simpl;
  repeat match goal with |- context [if ?b then _ else _] => destruct b; simpl end;
  reflexivity.

Ltac drop_nil :=
  repeat match goal with
         | |- context [flat_map ?f ?l] => rewrite (flat_map_nil f l) by solve_nil
         end.

Ltac select_all c :=
  unfold emit_out, interface_out, struct_out, struct_body, getters_out,
    constructor_out, setters_out, statics_out, methods_out, structHeader, blockEnd;
  destruct (toOption (extends_of (GoClass.type c)));
  destruct (resolvedInterfaces (GoClass.type c));
  destruct (length (GoClass.properties c) =? 0)%nat;
  rewrite ?flat_map_app, ?flat_map_flat_map, ?flat_map_map;
  drop_nil; simpl; rewrite ?app_nil_r.

Lemma constructions_emit_out (c : GoClass.t) :
  constructions (emit_out c)
  = match GoClass.initializer c with Some i => [i] | None => [] end.
Proof.
  unfold constructions.
  select_all c; destruct (GoClass.initializer c); trivial;
    apply constructions_GoClassConstructor_emit.
Qed.

Lemma getterProxies_emit_out (c : GoClass.t) :
  getterProxies (emit_out c)
  = if (length (GoClass.properties c) =? 0)%nat
    then []
    else GoClass.properties c ++ orEmpty (GoClass.reimplementedProperties c).
Proof.
  unfold getterProxies.
  select_all c; destruct (GoClass.initializer c) as [i|]; simpl;
    try (unfold GoClassConstructor_emit; destruct (truthy _); simpl);
    rewrite ?flat_map_unit, ?app_nil_r, <- ?app_assoc; trivial.
Qed.

Lemma setterProxies_emit_out (c : GoClass.t) :
  setterProxies (emit_out c)
  = GoClass.properties c ++ orEmpty (GoClass.reimplementedProperties c).
Proof.
  unfold setterProxies.
  select_all c; destruct (GoClass.initializer c) as [i|]; simpl;
    try (unfold GoClassConstructor_emit; destruct (truthy _); simpl);
    rewrite ?flat_map_unit, ?app_nil_r, <- ?app_assoc; trivial.
Qed.

Lemma methodCalls_emit_out (c : GoClass.t) :
  methodCalls (emit_out c)
  = GoClass.staticMethods c ++ GoClass.methods c
    ++ orEmpty (GoClass.reimplementedMethods c).
Proof.
  unfold methodCalls.
  select_all c; destruct (GoClass.initializer c) as [i|]; simpl;
    try (unfold GoClassConstructor_emit; destruct (truthy _); simpl);
    rewrite ?flat_map_unit, ?app_nil_r, <- ?app_assoc; trivial.
Qed.

Lemma In_constructions (i : GoClassConstructor.t) (l : list Emitted) :
  In (ClassConstructor_emit i) l <-> In i (constructions l).
Proof.
  unfold constructions. rewrite in_flat_map. split.
  - intros I. exists (ClassConstructor_emit i). split; [exact I | now left].
  - intros (e & I & J). destruct e; simpl in J; try contradiction.
    destruct J as [-> | []]. exact I.
Qed.

Lemma paramString_join (l : list GoParameter) :
  (if (length l =? 0)%nat then "" else join ", " (map GoParameter_toString l))
  = join ", " (map GoParameter_toString l).
Proof. now destruct l. Qed.

Lemma openedBlocks_app (a b : list Emitted) :
  openedBlocks (a ++ b) = openedBlocks a ++ openedBlocks b.
Proof. apply flat_map_app. Qed.

Lemma openedBlocks_none {A} (f : A -> list Emitted) (l : list A) :
  (forall x, openedBlocks (f x) = []) -> openedBlocks (flat_map f l) = [].
Proof.
  intros E. unfold openedBlocks. rewrite flat_map_flat_map. now apply flat_map_nil.
Qed.

Lemma openedBlocks_map_none {A} (f : A -> Emitted) (l : list A) :
  (forall x, openedBlocks [f x] = []) -> openedBlocks (map f l) = [].
Proof.
  intros E. rewrite <- flat_map_singleton. now apply openedBlocks_none.
Qed.

Lemma openedBlocks_each {A} (f : A -> list Emitted) (g : A -> list string) (l : list A) :
  (forall x, openedBlocks (f x) = g x) ->
  openedBlocks (flat_map f l) = flat_map g l.
Proof.
  intros E. unfold openedBlocks. rewrite flat_map_flat_map.
  induction l as [|x l IH]; [reflexivity |]. cbn [flat_map]. rewrite IH. f_equal. apply E.
Qed.

Lemma openedBlocks_interface_out (c : GoClass.t) :
  openedBlocks (interface_out c) = [("type " ++ GoClass.name c ++ " interface")%string].
Proof.
  unfold interface_out, blockEnd. rewrite !openedBlocks_app.
  rewrite (openedBlocks_map_none (interfaceName c)) by reflexivity.
  rewrite (openedBlocks_none (fun p => [emitGetterDecl p; emitSetterDecl p])) by reflexivity.
  rewrite (openedBlocks_none ClassMethod_emitDecl) by reflexivity.
  destruct (toOption (extends_of (GoClass.type c))); reflexivity.
Qed.

Lemma openedBlocks_struct_out (c : GoClass.t) :
  openedBlocks (struct_out c) = [("type " ++ GoClass.proxyName c ++ " struct")%string].
Proof.
  unfold struct_out, struct_body, structHeader, blockEnd. rewrite !openedBlocks_app.
  assert (E : forall l, openedBlocks (map (embedImplements c) l) = []).
  { intros l. now apply openedBlocks_map_none. }
  destruct (toOption (extends_of (GoClass.type c))),
    (resolvedInterfaces (GoClass.type c)) as [|i l];
    rewrite ?openedBlocks_app, ?E; reflexivity.
Qed.

Lemma openedBlocks_getters_out (c : GoClass.t) : openedBlocks (getters_out c) = [].
Proof.
  unfold getters_out. destruct (length (GoClass.properties c) =? 0)%nat; [reflexivity |].
  rewrite !openedBlocks_app, !(openedBlocks_map_none emitGetterProxy) by reflexivity.
  reflexivity.
Qed.

Lemma openedBlocks_setters_out (c : GoClass.t) : openedBlocks (setters_out c) = [].
Proof.
  unfold setters_out.
  rewrite !openedBlocks_app, !(openedBlocks_map_none emitSetterProxy) by reflexivity.
  reflexivity.
Qed.

Lemma openedBlocks_constructor_out (c : GoClass.t) :
  openedBlocks (constructor_out c)
  = match GoClass.initializer c with Some i => [constructorFunction i] | None => [] end.
Proof.
  unfold constructor_out. destruct (GoClass.initializer c) as [i|]; [| reflexivity].
  unfold GoClassConstructor_emit, constructorFunction.
  rewrite paramString_join, openedBlocks_app.
  destruct (truthy _); reflexivity.
Qed.

Lemma openedBlocks_statics_out (c : GoClass.t) :
  openedBlocks (statics_out c)
  = map staticFunction (GoClass.staticMethods c)
    ++ flat_map (staticAccessors c) (GoClass.staticProperties c).
Proof.
  unfold statics_out. rewrite openedBlocks_app.
  rewrite (openedBlocks_each StaticMethod_emit (fun m => [staticFunction m])) by reflexivity.
  rewrite flat_map_singleton. f_equal.
  apply openedBlocks_each. intros p.
  unfold emitStaticProperty, staticAccessors, staticGetter, staticSetter.
  rewrite openedBlocks_app. now destruct (GoProperty_immutable p).
Qed.

Lemma openedBlocks_methods_out (c : GoClass.t) :
  openedBlocks (methods_out c)
  = map methodFunction (GoClass.methods c ++ orEmpty (GoClass.reimplementedMethods c)).
Proof.
  unfold methods_out. rewrite openedBlocks_app, map_app.
  rewrite !(openedBlocks_each ClassMethod_emit (fun m => [methodFunction m])) by reflexivity.
  now rewrite !flat_map_singleton.
Qed.

Lemma openedBlocks_emit_out (c : GoClass.t) :
  openedBlocks (emit_out c)
  = [ ("type " ++ GoClass.name c ++ " interface")%string;
      ("type " ++ GoClass.proxyName c ++ " struct")%string ]
    ++ match GoClass.initializer c with Some i => [constructorFunction i] | None => [] end
    ++ map staticFunction (GoClass.staticMethods c)
    ++ flat_map (staticAccessors c) (GoClass.staticProperties c)
    ++ map methodFunction (GoClass.methods c ++ orEmpty (GoClass.reimplementedMethods c)).
Proof.
  unfold emit_out. rewrite !openedBlocks_app.
  rewrite openedBlocks_interface_out, openedBlocks_struct_out, openedBlocks_getters_out,
    openedBlocks_constructor_out, openedBlocks_setters_out, openedBlocks_statics_out,
    openedBlocks_methods_out.
  cbn [app]. now rewrite <- !app_assoc.
Qed.

(** C6.  [emit] writes the runtime call of a constructor exactly when
    the class declares an initializer, and then once: in a function named
    [New] followed by the name of the class, which takes the projected
    parameters of the initializer and returns the type that [emit]
    declares as the interface of the class.  A class without initializer
    gets no construction function. *)
Theorem constructor_emitted_iff :
  exists h',
    emit (fresh (new_GoClass this0 type)) = (Normal tt, h')
    /\ constructions (written h')
       = match ClassType.initializer type with
         | Some init => [new_GoClassConstructor this0 init]
         | None => []
         end
    /\ (forall i, In (ClassConstructor_emit i) (written h')
                  <-> exists init, ClassType.initializer type = Some init
                                   /\ i = new_GoClassConstructor this0 init)
    /\ (forall init, ClassType.initializer type = Some init ->
        exists before after,
          written h'
          = before
            ++ [ code_openBlock
                   ("func New" ++ GoType.name this0 ++ "("
                      ++ join ", " (map GoParameter_toString
                                        (map (Build_GoParameter this0)
                                             (Initializer.parameters init)))
                      ++ ") " ++ GoType.name this0)%string;
                 ClassConstructor_emit (new_GoClassConstructor this0 init);
                 code_closeBlock;
                 code_line_empty ]
            ++ after)
    /\ In (code_openBlock ("type " ++ GoType.name this0 ++ " interface")%string)
          (written h').
Proof.
  destruct emit_fresh as (h' & E & W).
  exists h'. split; [exact E |].
  assert (C : constructions (written h')
              = match ClassType.initializer type with
                | Some init => [new_GoClassConstructor this0 init]
                | None => []
                end).
  { rewrite W, constructions_emit_out. simpl.
    now destruct (ClassType.initializer type). }
  split; [exact C |]. split; [| split].
  - intros i. rewrite In_constructions, C.
    destruct (ClassType.initializer type) as [init|]; simpl.
    + split.
      * intros [<- | []]. now exists init.
      * intros (init' & Ei & ->). injection Ei as ->. now left.
    + split; [contradiction | intros (init' & Ei & _); discriminate].
  - intros init Ei.
    exists (interface_out (new_GoClass this0 type) ++ struct_out (new_GoClass this0 type)
            ++ getters_out (new_GoClass this0 type)
            ++ if truthy (summary (Initializer.docs init))
               then [code_line ("// " ++ Docs_toString (Initializer.docs init))%string]
               else []).
    exists (setters_out (new_GoClass this0 type) ++ statics_out (new_GoClass this0 type)
            ++ methods_out (new_GoClass this0 type)).
    rewrite W. unfold emit_out, constructor_out.
    cbn [GoClass.initializer new_GoClass]. rewrite Ei.
    unfold GoClassConstructor_emit.
    cbn [GoClassConstructor.parameters GoClassConstructor.parent GoClassConstructor.type
         new_GoClassConstructor].
    rewrite paramString_join, <- !app_assoc. reflexivity.
  - rewrite W. unfold emit_out, interface_out. simpl. right. now left.
Qed.

Lemma emitInterface_fresh :
  exists h',
    emitInterface (fresh (new_GoClass this0 type)) = (Normal tt, h')
    /\ written h' = interface_out (new_GoClass this0 type).
Proof.
  destruct (runs_emitInterface (resolved_c0 this0 resolved) (fresh_Reachable this0 type))
    as (h' & E & _ & W & _).
  exists h'. split; [exact E | exact W].
Qed.

Lemma instance_methods_only (m : ClassMethod) :
  In m (GoClass.methods (new_GoClass this0 type)
        ++ orEmpty (GoClass.reimplementedMethods (new_GoClass this0 type))) ->
  Method.static (method m) = false.
Proof.
  intros I. apply in_app_or in I. destruct I as [I|I].
  - simpl in I. apply Array_sort_In, in_map_iff in I.
    destruct I as (x & <- & I). apply filter_In in I.
    now apply negb_true_iff.
  - cbn [GoClass.reimplementedMethods new_GoClass] in I.
    destruct (hasMultipleBases type && _); [| contradiction].
    simpl in I. apply Array_sort_In, in_map_iff in I.
    destruct I as (x & <- & I). apply filter_In in I.
    destruct I as (_ & I). now apply inheritedMethod_spec in I.
Qed.

(** C7, as [emit] has it.  The interface declares the own members that
    are not static and none else.  Of the blocks that [emit] opens, the
    functions without a receiver are the construction function, if
    there is one, and then one function for every static method and,
    for every static property, a getter function and, unless the
    property is immutable, a setter function: each of them once, in this
    order, with a name that starts with the name of the class and [_].
    Every other function has the proxy struct as its receiver and
    implements a member that is not static. *)
Theorem statics_are_free_functions :
  let c := new_GoClass this0 type in
  exists hi h',
    emitInterface (fresh c) = (Normal tt, hi)
    /\ emit (fresh c) = (Normal tt, h')
    /\ written hi
       = [ documenter_emit (ClassType.docs type);
           code_openBlock ("type " ++ GoType.name this0 ++ " interface")%string ]
         ++ match toOption (extends_of type) with
            | Some base => [interfaceName c base]
            | None => []
            end
         ++ map (interfaceName c) (resolvedInterfaces type)
         ++ flat_map (fun p => [emitGetterDecl p; emitSetterDecl p]) (GoClass.properties c)
         ++ flat_map ClassMethod_emitDecl (GoClass.methods c)
         ++ [code_closeBlock; code_line_empty]
    /\ Permutation (map property (GoClass.properties c))
                   (filter (fun p => negb (Property.static p)) (ClassType.ownProperties type))
    /\ Permutation (map method (GoClass.methods c))
                   (filter (fun m => negb (Method.static m)) (ClassType.ownMethods type))
    /\ written h'
       = written hi ++ struct_out c ++ getters_out c ++ constructor_out c ++ setters_out c
         ++ flat_map StaticMethod_emit (GoClass.staticMethods c)
         ++ flat_map (emitStaticProperty c) (GoClass.staticProperties c)
         ++ methods_out c
    /\ openedBlocks (written h')
       = [ ("type " ++ GoType.name this0 ++ " interface")%string;
           ("type " ++ GoType.proxyName this0 ++ " struct")%string ]
         ++ match GoClass.initializer c with
            | Some i => [constructorFunction i]
            | None => []
            end
         ++ map staticFunction (GoClass.staticMethods c)
         ++ flat_map (staticAccessors c) (GoClass.staticProperties c)
         ++ map methodFunction
                (GoClass.methods c ++ orEmpty (GoClass.reimplementedMethods c))
    /\ Permutation (map method (GoClass.staticMethods c))
                   (filter (fun m => Method.static m) (ClassType.ownMethods type))
    /\ Permutation (map property (GoClass.staticProperties c))
                   (filter (fun p => Property.static p) (ClassType.ownProperties type))
    /\ Forall (fun m => ClassMethod_parent m = this0) (GoClass.staticMethods c)
    /\ Forall (fun m => Method.static (method m) = false)
              (GoClass.methods c ++ orEmpty (GoClass.reimplementedMethods c))
    /\ Forall (fun header => prefix ("func " ++ GoType.name this0 ++ "_") header = true)
              (map staticFunction (GoClass.staticMethods c)
               ++ flat_map (staticAccessors c) (GoClass.staticProperties c))
    /\ (forall m, openedBlocks (StaticMethod_emit m) = [staticFunction m])
    /\ (forall p, openedBlocks (emitStaticProperty c p) = staticAccessors c p).
Proof.
  intros c.
  destruct emitInterface_fresh as (hi & Ei & Wi).
  destruct emit_fresh as (h' & E & W).
  fold c in Ei, Wi, E, W.
  assert (Ps : Forall (fun m => ClassMethod_parent m = this0) (GoClass.staticMethods c)).
  { apply Forall_forall. intros m I. simpl in I.
    apply Array_sort_In, in_map_iff in I. now destruct I as (x & <- & _). }
  exists hi, h'.
  split; [exact Ei |]. split; [exact E |].
  split. { rewrite Wi. unfold interface_out, blockEnd. reflexivity. }
  split.
  { simpl. rewrite <- Array_sort_Permutation, map_map. simpl. now rewrite map_id. }
  split.
  { simpl. rewrite <- Array_sort_Permutation, map_map. simpl. now rewrite map_id. }
  split.
  { rewrite W, Wi. unfold emit_out, statics_out. now rewrite <- !app_assoc. }
  split. { rewrite W. apply openedBlocks_emit_out. }
  split.
  { simpl. rewrite <- Array_sort_Permutation, map_map. simpl. now rewrite map_id. }
  split.
  { simpl. rewrite <- Array_sort_Permutation, map_map. simpl. now rewrite map_id. }
  split; [exact Ps |].
  split. { apply Forall_forall. exact instance_methods_only. }
  split.
  { apply Forall_app. split.
    - apply Forall_forall. intros header I. apply in_map_iff in I.
      destruct I as (m & <- & I). rewrite Forall_forall in Ps.
      unfold staticFunction. rewrite (Ps m I).
      change (prefix (GoType.name this0 ++ "_")
                     (GoType.name this0
                      ++ String "_" (GoMethod_name m ++ "(" ++ GoMethod_paramString m ++ ")"
                                       ++ returnTypeString m)) = true).
      apply prefix_scoped.
    - apply Forall_forall. intros header I. apply in_flat_map in I.
      destruct I as (p & _ & I).
      assert (G : prefix ("func " ++ GoType.name this0 ++ "_") (staticGetter c p) = true).
      { unfold staticGetter.
        change (prefix (GoType.name this0 ++ "_")
                       ((GoType.name this0 ++ String "_" (toPascalCase (GoProperty_name p)))
                        ++ "() " ++ GoProperty_returnType p) = true).
        rewrite append_associative. apply prefix_scoped. }
      assert (S : prefix ("func " ++ GoType.name this0 ++ "_") (staticSetter c p) = true).
      { unfold staticSetter.
        change (prefix (GoType.name this0 ++ "_")
                       ((GoType.name this0
                         ++ String "_" ("Set" ++ toPascalCase (GoProperty_name p)))
                        ++ "(val " ++ GoProperty_returnType p ++ ")") = true).
        rewrite append_associative. apply prefix_scoped. }
      unfold staticAccessors in I.
      destruct I as [<- | I]; [exact G |].
      destruct (GoProperty_immutable p); [contradiction |].
      destruct I as [<- | []]. exact S. }
  split; [reflexivity |].
  intros p. unfold emitStaticProperty, staticAccessors, staticGetter, staticSetter.
  rewrite openedBlocks_app. now destruct (GoProperty_immutable p).
Qed.

(** For a class without instance properties of its own, [emit] writes
    no getter proxy at all, though it writes the setter proxies of the
    re-implemented properties. *)
Lemma getters_skipped_without_own_properties :
  GoClass.properties (new_GoClass this0 type) = [] ->
  exists h',
    emit (fresh (new_GoClass this0 type)) = (Normal tt, h')
    /\ getterProxies (written h') = []
    /\ setterProxies (written h')
       = orEmpty (GoClass.reimplementedProperties (new_GoClass this0 type)).
Proof.
  intros P. destruct emit_fresh as (h' & E & W).
  exists h'. split; [exact E |].
  rewrite W, getterProxies_emit_out, setterProxies_emit_out, P. split; reflexivity.
Qed.

Lemma emit_again (ops : list Operation) :
  exists h',
    emit (performAll ops (fresh (new_GoClass this0 type))) = (Normal tt, h')
    /\ written h'
       = written (performAll ops (fresh (new_GoClass this0 type)))
         ++ emit_out (new_GoClass this0 type).
Proof.
  destruct (performAll_runs resolved ops (fresh_Reachable this0 type)) as [R _].
  destruct (runs_emit (resolved_c0 this0 resolved) R) as (h' & E & _ & W & _).
  exists h'. split; [exact E | exact W].
Qed.

(** C8.  Whatever was done with the object of a class before ([emit]
    itself and the getters included), [emit] writes the same calls in the
    same order as on the object fresh from its constructor; the members
    are in the order of their names and the interfaces in the order of
    their fully-qualified names. *)
Theorem emit_deterministic :
  Consistent ->
  exists out ifaces,
    (forall ops,
        exists h',
          emit (performAll ops (fresh (new_GoClass this0 type))) = (Normal tt, h')
          /\ written h' = written (performAll ops (fresh (new_GoClass this0 type))) ++ out)
    /\ (forall ops,
          fst (get_implements (performAll ops (fresh (new_GoClass this0 type))))
          = Normal (map Some ifaces))
    /\ Sorted fqnLe ifaces
    /\ Sorted nameLe (GoClass.methods (new_GoClass this0 type))
    /\ Sorted nameLe (GoClass.staticMethods (new_GoClass this0 type))
    /\ Sorted nameLe (GoClass.properties (new_GoClass this0 type))
    /\ Sorted nameLe (GoClass.staticProperties (new_GoClass this0 type))
    /\ Sorted nameLe (orEmpty (GoClass.reimplementedMethods (new_GoClass this0 type)))
    /\ Sorted nameLe (orEmpty (GoClass.reimplementedProperties (new_GoClass this0 type))).
Proof.
  intros total.
  assert (Sm : forall l : list ClassMethod, Sorted nameLe (Array_sort byName l))
    by (intros l; apply Array_sort_Sorted; intros x y; apply total).
  assert (Sp : forall l : list GoProperty, Sorted nameLe (Array_sort byName l))
    by (intros l; apply Array_sort_Sorted; intros x y; apply total).
  exists (emit_out (new_GoClass this0 type)), (resolvedInterfaces type).
  split; [exact emit_again |]. split.
  { intros ops.
    destruct (performAll_runs resolved ops (fresh_Reachable this0 type)) as [R _].
    destruct (runs_get_implements R) as (h' & E & _).
    rewrite E. cbn [fst]. f_equal.
    exact (@implements_of_resolved _ _ (resolved_c0 this0 resolved)). }
  split. { apply Array_sort_Sorted. intros x y. apply total. }
  cbn [new_GoClass GoClass.methods GoClass.staticMethods GoClass.properties
       GoClass.staticProperties GoClass.reimplementedMethods
       GoClass.reimplementedProperties].
  repeat split; try apply Sm; try apply Sp.
  - destruct (hasMultipleBases type && _); [apply Sm | constructor].
  - destruct (hasMultipleBases type && _); [apply Sp | constructor].
Qed.

(** C9.  The constructor leaves both caches unset and computes the
    re-implementation lists, which nothing changes afterwards.  The first
    access to [extends], and to [implements], asks the registry for the
    base class, and for each interface; however the object is used, the
    registry is asked at most once for each reference of the class, and
    after an access every later access returns the same value and leaves
    the whole state, the record of lookups included, as it is. *)
Theorem ancestors_resolved_once :
  GoClass._extends (new_GoClass this0 type) = undefined
  /\ GoClass._implements (new_GoClass this0 type) = None
  /\ lookups (snd (get_extends (fresh (new_GoClass this0 type))))
     = match ClassType.base type with
       | Some base => [ReflectType.fqn base]
       | None => []
       end
  /\ lookups (snd (get_implements (fresh (new_GoClass this0 type))))
     = map ReflectType.fqn (ClassType.interfaces type)
  /\ forall ops,
       let h := performAll ops (fresh (new_GoClass this0 type)) in
       (exists rest, Permutation (lookups h ++ rest) (references type))
       /\ GoClass.reimplementedMethods (this h)
          = GoClass.reimplementedMethods (new_GoClass this0 type)
       /\ GoClass.reimplementedProperties (this h)
          = GoClass.reimplementedProperties (new_GoClass this0 type)
       /\ fst (get_extends h) = Normal (toOption (extends_of type))
       /\ fst (get_implements h) = Normal (implements_of type)
       /\ (forall ops',
             let h' := performAll ops' (snd (get_extends h)) in
             get_extends h' = (Normal (toOption (extends_of type)), h'))
       /\ (forall ops',
             let h' := performAll ops' (snd (get_implements h)) in
             get_implements h' = (Normal (implements_of type), h')).
Proof.
  split; [reflexivity |]. split; [reflexivity |].
  split.
  { unfold get_extends, bind, getThis, ret, setThis, root_findType. simpl.
    now destruct (ClassType.base type). }
  split.
  { unfold get_implements, bind, getThis, ret, setThis. simpl.
    now rewrite mapM_findType. }
  intros ops h.
  destruct (performAll_runs resolved ops (fresh_Reachable this0 type)) as [R _].
  fold h in R.
  split.
  { destruct (resolutions_references (this h) (Reachable_type R)) as (rest & P).
    exists rest. rewrite <- P. apply Permutation_app_tail. apply R. }
  destruct (frozen_fields (proj1 R)) as (_ & _ & _ & _ & _ & _ & Rm & Rp & _).
  split; [exact Rm |]. split; [exact Rp |].
  destruct (runs_get_extends (resolved_c0 this0 resolved) R) as (he & Ee & Re & _ & _).
  destruct (runs_get_implements R) as (hi & Ei & Ri & _ & _).
  split; [now rewrite Ee |]. split; [now rewrite Ei |].
  split.
  - intros ops' h'.
    destruct (performAll_runs resolved ops'
                (proj1 (perform_runs resolved op_extends R))) as [R' [K' _]].
    apply (cached_extends R').
    pose proof (extends_settles resolved R) as N.
    unfold h'. rewrite (K' N). exact N.
  - intros ops' h'.
    destruct (performAll_runs resolved ops'
                (proj1 (perform_runs resolved op_implements R))) as [R' [_ K']].
    apply (cached_implements R').
    pose proof (implements_settles h) as N.
    unfold h'. rewrite (K' N). exact N.
Qed.

End Emit.

(** ** The sample world, again *)

Lemma Lonely_bare :
  ClassType.base Sample.Lonely = None /\ ClassType.interfaces Sample.Lonely = [].
Proof. split; reflexivity. Qed.

(** Where the registry does not hold the base class, [_extends] stays
    unset and every access to [extends] asks the registry again. *)
Lemma unresolved_base_is_looked_up_again :
  lookups (snd (@get_extends Sample.world
                  (snd (@get_extends Sample.world
                          (fresh (@new_GoClass Sample.world
                                    (Sample.goType Sample.pkgA "Orphan") Sample.Orphan))))))
  = ["b.Missing"; "b.Missing"].
Proof. reflexivity. Qed.

(** C3 at [Widget], which needs flattening and inherits the property
    [size] but declares no instance property: [emit] writes the setter
    proxy of [size] and no getter proxy for it. *)
Theorem reimplemented_getter_missing :
  GoClass.properties Sample.widget = []
  /\ GoClass.reimplementedProperties Sample.widget = Some [Sample.sizeProperty]
  /\ exists h',
       @emit Sample.world (fresh Sample.widget) = (Normal tt, h')
       /\ setterProxies (written h') = [Sample.sizeProperty]
       /\ getterProxies (written h') = []
       /\ ~ In (emitGetterProxy Sample.sizeProperty) (written h').
Proof.
  split; [reflexivity |]. split; [reflexivity |].
  eexists. split; [vm_compute; reflexivity |].
  split; [reflexivity |]. split; [reflexivity |].
  simpl. intuition discriminate.
Qed.

(** C4 holds of [Point] in the sample world. *)
Lemma emitStruct_embeds_sorted_witness :
  @Resolved Sample.world Sample.Point
  /\ @directBases Sample.Point >= 1
  /\ exists h' ifaces,
       @emitStruct Sample.world (fresh Sample.point) = (Normal tt, h')
       /\ Permutation (map Some ifaces) (@foundInterfaces Sample.world Sample.Point)
       /\ Sorted (@fqnLe Sample.world) ifaces.
Proof.
  assert (D : @directBases Sample.Point >= 1) by (unfold directBases; simpl; lia).
  split; [exact Point_Resolved |]. split; [exact D |].
  destruct (@emitStruct_embeds_sorted Sample.world (Sample.goType Sample.pkgA "Point")
              Sample.Point Point_Resolved (codeUnitCompare_consistent Sample.registry) D)
    as (h' & ifaces & E & _ & P & S & _).
  exists h', ifaces. split; [exact E |]. split; [exact P | exact S].
Defined.

(** C4, as the claim has it, fails on [Point]: it declares [Zebra]
    before [Printable], and its proxy struct embeds [Printable] before
    [Zebra]. *)
Lemma emitStruct_not_in_declared_order :
  map ReflectType.fqn (ClassType.interfaces Sample.Point) = ["a.Zebra"; "a.Printable"]
  /\ written (snd (@emitStruct Sample.world (fresh Sample.point)))
     = [ code_line "// The jsii proxy struct for Point";
         code_openBlock "type jsiiProxy_Point struct";
         code_line "jsiiProxy_Printable // implements a.Printable";
         code_line "jsiiProxy_Zebra // implements a.Zebra";
         code_closeBlock;
         code_line_empty ]
  /\ written (snd (@emitStruct Sample.world (fresh Sample.point)))
     <> @struct_as_declared Sample.world Sample.point.
Proof.
  split; [reflexivity |]. split; [reflexivity |].
  vm_compute. discriminate.
Qed.

(** C5 holds of [Lonely] in the sample world. *)
Lemma emitStruct_padding_witness :
  exists h',
    @emitStruct Sample.world (fresh (@new_GoClass Sample.world
                                       (Sample.goType Sample.pkgA "Lonely") Sample.Lonely))
    = (Normal tt, h')
    /\ written h'
       = [ code_line "// The jsii proxy struct for Lonely";
           code_openBlock "type jsiiProxy_Lonely struct";
           code_line "_ byte // padding";
           code_closeBlock;
           code_line_empty ].
Proof.
  exact (@emitStruct_padding Sample.world (Sample.goType Sample.pkgA "Lonely")
           Sample.Lonely (proj1 Lonely_bare) (proj2 Lonely_bare)).
Defined.

(** C6 holds of [Widget] in the sample world. *)
Lemma constructor_emitted_iff_witness :
  @Resolved Sample.world Sample.Widget
  /\ exists h',
       @emit Sample.world (fresh Sample.widget) = (Normal tt, h')
       /\ In (code_openBlock "func NewWidget(scope string) Widget") (written h')
       /\ length (constructions (written h')) = 1.
Proof.
  split; [exact Widget_Resolved |].
  destruct (@constructor_emitted_iff Sample.world (Sample.goType Sample.pkgA "Widget")
              Sample.Widget Widget_Resolved) as (h' & E & C & _ & B & _).
  exists h'. split; [exact E |]. split.
  - destruct (B _ eq_refl) as (before & after & W). rewrite W.
    apply in_or_app. right. now left.
  - now rewrite C.
Defined.

(** C7 holds of [Widget] in the sample world. *)
Lemma statics_are_free_functions_witness :
  @Resolved Sample.world Sample.Widget
  /\ exists h',
       @emit Sample.world (fresh Sample.widget) = (Normal tt, h')
       /\ @openedBlocks (written h')
          = [ "type Widget interface"; "type jsiiProxy_Widget struct";
              "func NewWidget(scope string) Widget";
              "func Widget_Create() string";
              "func Widget_Count() string"; "func Widget_SetCount(val string)";
              "func (w *jsiiProxy_Widget) Greet() string";
              "func (w *jsiiProxy_Widget) Run() string";
              "func (w *jsiiProxy_Widget) Wave() string" ].
Proof.
  split; [exact Widget_Resolved |].
  destruct (@statics_are_free_functions Sample.world (Sample.goType Sample.pkgA "Widget")
              Sample.Widget Widget_Resolved)
    as (hi & h' & _ & E & _ & _ & _ & _ & B & _).
  exists h'. split; [exact E |]. rewrite B. reflexivity.
Defined.

(** C7, as the claim has it, fails on [Widget]: its static property
    [count] can be assigned, and is written as two free functions. *)
Lemma static_property_two_functions :
  In (property Sample.countProperty) (ClassType.ownProperties Sample.Widget)
  /\ Property.static (property Sample.countProperty) = true
  /\ In Sample.countProperty (GoClass.staticProperties Sample.widget)
  /\ openedBlocks (@emitStaticProperty Sample.world Sample.widget Sample.countProperty)
     = ["func Widget_Count() string"; "func Widget_SetCount(val string)"]
  /\ length (openedBlocks
               (@emitStaticProperty Sample.world Sample.widget Sample.countProperty))
     <> 1.
Proof.
  split; [now left |]. split; [reflexivity |]. split; [now left |].
  split; [reflexivity |]. discriminate.
Qed.

(** C8 holds of [Widget] in the sample world. *)
Lemma emit_deterministic_witness :
  @Resolved Sample.world Sample.Widget
  /\ exists out,
       forall ops,
         exists h',
           @emit Sample.world (@performAll Sample.world ops (fresh Sample.widget))
           = (Normal tt, h')
           /\ written h'
              = written (@performAll Sample.world ops (fresh Sample.widget)) ++ out.
Proof.
  split; [exact Widget_Resolved |].
  destruct (@emit_deterministic Sample.world (Sample.goType Sample.pkgA "Widget")
              Sample.Widget Widget_Resolved (codeUnitCompare_consistent Sample.registry))
    as (out & ifaces & D & _).
  exists out. exact D.
Defined.

(** C9 holds of [Widget] in the sample world. *)
Lemma ancestors_resolved_once_witness :
  @Resolved Sample.world Sample.Widget
  /\ lookups (snd (@get_extends Sample.world (fresh Sample.widget))) = ["b.Base"]
  /\ forall ops,
       exists rest,
         Permutation (lookups (@performAll Sample.world ops (fresh Sample.widget)) ++ rest)
                     ["b.Base"; "a.Mixin"].
Proof.
  split; [exact Widget_Resolved |].
  destruct (@ancestors_resolved_once Sample.world (Sample.goType Sample.pkgA "Widget")
              Sample.Widget Widget_Resolved) as (_ & _ & L & _ & A).
  split; [exact L |].
  intros ops. exact (proj1 (A ops)).
Defined.

(** ** The exit code of [jsii-diff] *)

Section DiffExit.
Context `{JsiiDiff.World}.

(** A failed load comes from a failed download. *)
Lemma failed_load_is_failed_download (requested : string) (log : list JsiiDiff.Output)
      (l : JsiiDiff.LoadAssemblyResult) (reason : JsiiDiff.DownloadFailure) :
  JsiiDiff.loadAssembly requested = (log, JsiiDiff.Returned l) ->
  JsiiDiff.load l = JsiiDiff.failed reason ->
  exists pkg,
    JsiiDiff.downloadNpmPackage pkg JsiiDiff.loadFromFilesystem
    = JsiiDiff.Returned (JsiiDiff.failed reason).
Proof.
  unfold JsiiDiff.loadAssembly.
  destruct (JsiiDiff.strip_NPM_REGEX requested) as [pkg0|].
  - destruct (if negb (truthy pkg0) then _ else _) as [pkg|e].
    + destruct (JsiiDiff.downloadNpmPackage pkg JsiiDiff.loadFromFilesystem)
        as [download|e] eqn:D.
      * intros E L. injection E as _ <-. simpl in L. subst download. now exists pkg.
      * destruct (JsiiDiff.rethrow _ e). discriminate.
    + destruct (JsiiDiff.rethrow _ e). discriminate.
  - destruct (JsiiDiff.loadFromFilesystem requested) as [a|e].
    + intros E L. injection E as _ <-. discriminate.
    + destruct (JsiiDiff.rethrow _ e). discriminate.
Qed.

(** C10.  [main] returns 0 and writes the notice that ends in
    [Skipping analysis] when loading the original assembly, or loading
    the updated one after it, ends in a failed download; it returns 1
    exactly when both assemblies load and the comparison counts at least
    one mismatch, and 0 when both load and it counts none. *)
Theorem main_exit_code (argv : JsiiDiff.Argv) :
  (forall log l reason,
      JsiiDiff.loadAssembly (JsiiDiff.original argv) = (log, JsiiDiff.Returned l) ->
      JsiiDiff.load l = JsiiDiff.failed reason ->
      snd (JsiiDiff.main argv) = JsiiDiff.Returned 0%Z
      /\ In (JsiiDiff.stderr_write
               ("Could not load '" ++ JsiiDiff.resolved l ++ "': "
                  ++ JsiiDiff.showDownloadFailure reason
                  ++ ". Skipping analysis" ++ JsiiDiff.LF)%string)
            (fst (JsiiDiff.main argv)))
  /\ (forall log l a log' l' reason,
         JsiiDiff.loadAssembly (JsiiDiff.original argv) = (log, JsiiDiff.Returned l) ->
         JsiiDiff.load l = JsiiDiff.success a ->
         JsiiDiff.loadAssembly (JsiiDiff.updated argv) = (log', JsiiDiff.Returned l') ->
         JsiiDiff.load l' = JsiiDiff.failed reason ->
         snd (JsiiDiff.main argv) = JsiiDiff.Returned 0%Z
         /\ In (JsiiDiff.stderr_write
                  ("Could not load '" ++ JsiiDiff.resolved l' ++ "': "
                     ++ JsiiDiff.showDownloadFailure reason
                     ++ ". Skipping analysis" ++ JsiiDiff.LF)%string)
               (fst (JsiiDiff.main argv)))
  /\ (snd (JsiiDiff.main argv) = JsiiDiff.Returned 1%Z
      <-> exists log l a log' l' a',
          JsiiDiff.loadAssembly (JsiiDiff.original argv) = (log, JsiiDiff.Returned l)
          /\ JsiiDiff.load l = JsiiDiff.success a
          /\ JsiiDiff.loadAssembly (JsiiDiff.updated argv) = (log', JsiiDiff.Returned l')
          /\ JsiiDiff.load l' = JsiiDiff.success a'
          /\ (JsiiDiff.count
                (JsiiDiff.compareAssemblies a a'
                   (JsiiDiff.default_stability argv =? "experimental")%string) > 0)%Z)
  /\ (forall log l a log' l' a',
         JsiiDiff.loadAssembly (JsiiDiff.original argv) = (log, JsiiDiff.Returned l) ->
         JsiiDiff.load l = JsiiDiff.success a ->
         JsiiDiff.loadAssembly (JsiiDiff.updated argv) = (log', JsiiDiff.Returned l') ->
         JsiiDiff.load l' = JsiiDiff.success a' ->
         (JsiiDiff.count
            (JsiiDiff.compareAssemblies a a'
               (JsiiDiff.default_stability argv =? "experimental")%string) <= 0)%Z ->
         snd (JsiiDiff.main argv) = JsiiDiff.Returned 0%Z).
Proof.
  unfold JsiiDiff.main, JsiiDiff.skipping.
  destruct (JsiiDiff.loadAssembly (JsiiDiff.original argv)) as [log [l|e]].
  2:{ split; [| split; [| split]].
      - intros ? ? ? E. discriminate.
      - intros ? ? ? ? ? ? E. discriminate.
      - split; [discriminate |].
        intros (? & ? & ? & ? & ? & ? & E & _). discriminate.
      - intros ? ? ? ? ? ? E. discriminate. }
  destruct (JsiiDiff.load l) as [a|reason] eqn:L.
  2:{ split; [| split; [| split]].
      - intros ? ? ? E F. injection E as <- <-. rewrite L in F. injection F as <-.
        split; [reflexivity |]. apply in_or_app. right. now left.
      - intros ? ? ? ? ? ? E F. injection E as <- <-. congruence.
      - split; [discriminate |].
        intros (? & ? & ? & ? & ? & ? & E & F & _). injection E as <- <-. congruence.
      - intros ? ? ? ? ? ? E F. injection E as <- <-. congruence. }
  destruct (JsiiDiff.loadAssembly (JsiiDiff.updated argv)) as [log' [l'|e]].
  2:{ split; [| split; [| split]].
      - intros ? ? ? E F. injection E as <- <-. congruence.
      - intros ? ? ? ? ? ? _ _ E. discriminate.
      - split; [discriminate |].
        intros (? & ? & ? & ? & ? & ? & _ & _ & E & _). discriminate.
      - intros ? ? ? ? ? ? _ _ E. discriminate. }
  destruct (JsiiDiff.load l') as [a'|reason] eqn:L'.
  2:{ split; [| split; [| split]].
      - intros ? ? ? E F. injection E as <- <-. congruence.
      - intros ? ? ? ? ? ? _ _ E' F'. injection E' as <- <-. rewrite L' in F'.
        injection F' as <-. split; [reflexivity |]. apply in_or_app. right. now left.
      - split; [discriminate |].
        intros (? & ? & ? & ? & ? & ? & _ & _ & E & F & _). injection E as <- <-. congruence.
      - intros ? ? ? ? ? ? _ _ E' F'. injection E' as <- <-. congruence. }
  set (m := JsiiDiff.compareAssemblies a a' _).
  assert (Same : forall lg x b lg' x' b',
             (log, @JsiiDiff.Returned JsiiDiff.LoadAssemblyResult l)
             = (lg, JsiiDiff.Returned x) ->
             JsiiDiff.load x = JsiiDiff.success b ->
             (log', @JsiiDiff.Returned JsiiDiff.LoadAssemblyResult l')
             = (lg', JsiiDiff.Returned x') ->
             JsiiDiff.load x' = JsiiDiff.success b' ->
             JsiiDiff.compareAssemblies b b'
               (JsiiDiff.default_stability argv =? "experimental")%string = m).
  { intros ? ? ? ? ? ? E F E' F'. injection E as <- <-. injection E' as <- <-.
    rewrite L in F. rewrite L' in F'. injection F as <-. injection F' as <-.
    reflexivity. }
  split; [| split; [| split]].
  - intros ? ? ? E F. injection E as <- <-. congruence.
  - intros ? ? ? ? ? ? _ _ E' F'. injection E' as <- <-. congruence.
  - destruct (Z.gtb_spec (JsiiDiff.count m) 0) as [G|G]; simpl; split.
    + intros _. exists log, l, a, log', l', a'. repeat split; trivial. fold m. lia.
    + reflexivity.
    + discriminate.
    + intros (? & ? & ? & ? & ? & ? & E & F & E' & F' & C).
      rewrite (Same _ _ _ _ _ _ E F E' F') in C. lia.
  - intros ? ? ? ? ? ? E F E' F' C. rewrite (Same _ _ _ _ _ _ E F E' F') in C.
    destruct (Z.gtb_spec (JsiiDiff.count m) 0) as [G|G]; [lia | reflexivity].
Qed.

End DiffExit.

(** * Further properties *)

(** ** The members of a class *)

Lemma filter_partition {A} (f : A -> bool) (l : list A) :
  Permutation (filter (fun x => negb (f x)) l ++ filter f l) l.
Proof.
  induction l as [|x l IH]; simpl; trivial.
  destruct (f x); simpl.
  - rewrite <- Permutation_middle. now apply perm_skip.
  - now apply perm_skip.
Qed.

Section Members.
Context `{Externals}.
Variables (this0 : GoType.t) (type : ClassType.t).

(** X1.  The constructor loses and repeats no declared member: the
    instance methods together with the static methods are the own methods
    of the class, the first all non-static and the second all static, and
    the same holds for the properties. *)
Theorem own_members_partitioned :
  Permutation (map method (GoClass.methods (new_GoClass this0 type)
                           ++ GoClass.staticMethods (new_GoClass this0 type)))
              (ClassType.ownMethods type)
  /\ Permutation (map property (GoClass.properties (new_GoClass this0 type)
                                ++ GoClass.staticProperties (new_GoClass this0 type)))
                 (ClassType.ownProperties type)
  /\ Forall (fun m => Method.static (method m) = false
                      /\ ClassMethod_parent m = this0)
            (GoClass.methods (new_GoClass this0 type))
  /\ Forall (fun m => Method.static (method m) = true
                      /\ ClassMethod_parent m = this0)
            (GoClass.staticMethods (new_GoClass this0 type))
  /\ Forall (fun p => Property.static (property p) = false
                      /\ GoProperty_parent p = this0)
            (GoClass.properties (new_GoClass this0 type))
  /\ Forall (fun p => Property.static (property p) = true
                      /\ GoProperty_parent p = this0)
            (GoClass.staticProperties (new_GoClass this0 type)).
Proof.
  cbn [new_GoClass GoClass.methods GoClass.staticMethods GoClass.properties
       GoClass.staticProperties].
  split; [| split].
  - rewrite map_app, <- !Array_sort_Permutation, !map_map. cbn [method].
    rewrite !map_id. apply filter_partition.
  - rewrite map_app, <- !Array_sort_Permutation, !map_map. cbn [property].
    rewrite !map_id. apply filter_partition.
  - repeat split; apply Forall_forall; intros x I;
      apply Array_sort_In, in_map_iff in I; destruct I as (y & <- & I);
      apply filter_In in I; destruct I as [_ I]; cbn;
      (split; [| reflexivity]);
      solve [exact I | now apply negb_true_iff].
Qed.

End Members.

(** ** The blocks that [emit] opens *)

Lemma nesting_app (d : nat) (l1 l2 : list Emitted) :
  nesting d (l1 ++ l2)
  = match nesting d l1 with Some d' => nesting d' l2 | None => None end.
Proof.
  revert d. induction l1 as [|e l1 IH]; intros d; simpl; trivial.
  destruct e; trivial; destruct d; trivial.
Qed.

Lemma nesting_flat (d : nat) (l : list Emitted) :
  Forall flat l -> nesting d l = Some d.
Proof.
  induction 1 as [|e l F _ IH]; simpl; trivial.
  destruct e; trivial; contradiction.
Qed.

Lemma nesting_flat_map {A} (f : A -> list Emitted) (l : list A) :
  (forall x, nesting 0 (f x) = Some 0) -> nesting 0 (flat_map f l) = Some 0.
Proof.
  intros B. induction l as [|x l IH]; simpl; trivial.
  now rewrite nesting_app, B.
Qed.

Lemma Forall_flat_map {A B} (P : B -> Prop) (f : A -> list B) (l : list A) :
  (forall x, Forall P (f x)) -> Forall P (flat_map f l).
Proof.
  intros F. induction l as [|x l IH]; simpl; [constructor |].
  apply Forall_app. auto.
Qed.

Lemma Forall_map_all {A B} (P : B -> Prop) (f : A -> B) (l : list A) :
  (forall x, P (f x)) -> Forall P (map f l).
Proof. intros F. induction l; simpl; constructor; auto. Qed.

Lemma nesting_flat_app (d : nat) (l1 l2 : list Emitted) :
  Forall flat l1 -> nesting d (l1 ++ l2) = nesting d l2.
Proof. intros F. now rewrite nesting_app, nesting_flat. Qed.

Lemma nesting_balanced_app (l1 l2 : list Emitted) :
  nesting 0 l1 = Some 0 -> nesting 0 (l1 ++ l2) = nesting 0 l2.
Proof. intros B. now rewrite nesting_app, B. Qed.

Ltac all_flat :=
  repeat first
    [ apply Forall_app; split
    | apply Forall_map_all; intros; exact I
    | apply Forall_flat_map; intros
    | match goal with
      | |- Forall _ (match ?x with _ => _ end) => destruct x
      | |- Forall _ (if ?x then _ else _) => destruct x
      end
    | constructor
    | exact I ].

Section Blocks.
Context `{Externals}.

Lemma nesting_interface_out (c : GoClass.t) : nesting 0 (interface_out c) = Some 0.
Proof.
  unfold interface_out. simpl.
  rewrite !nesting_flat_app by all_flat. reflexivity.
Qed.

Lemma flat_struct_body (c : GoClass.t) : Forall flat (struct_body c).
Proof.
  unfold struct_body.
  destruct (toOption _), (resolvedInterfaces _); simpl; all_flat.
Qed.

Lemma nesting_struct_out (c : GoClass.t) : nesting 0 (struct_out c) = Some 0.
Proof.
  unfold struct_out. simpl.
  now rewrite nesting_flat_app by apply flat_struct_body.
Qed.

Lemma nesting_emit_out (c : GoClass.t) : nesting 0 (emit_out c) = Some 0.
Proof.
  unfold emit_out.
  rewrite (nesting_balanced_app _ _ (nesting_interface_out c)).
  rewrite (nesting_balanced_app _ _ (nesting_struct_out c)).
  rewrite nesting_flat_app by (unfold getters_out; all_flat).
  rewrite nesting_balanced_app.
  2:{ unfold constructor_out. destruct (GoClass.initializer c); trivial.
      unfold GoClassConstructor_emit. now destruct (truthy _). }
  rewrite nesting_flat_app by (unfold setters_out; all_flat).
  rewrite nesting_balanced_app.
  2:{ unfold statics_out. rewrite nesting_balanced_app
        by (apply nesting_flat_map; reflexivity).
      apply nesting_flat_map. intros p. unfold emitStaticProperty.
      now destruct (negb _). }
  unfold methods_out.
  rewrite nesting_balanced_app by (apply nesting_flat_map; reflexivity).
  apply nesting_flat_map. reflexivity.
Qed.

(** X2.  For a class whose references resolve, the blocks that [emit]
    opens are well bracketed: no block is opened inside another, none is
    closed that was not opened, and all are closed at the end. *)
Theorem emit_blocks_balanced (this0 : GoType.t) (type : ClassType.t) :
  Resolved type ->
  exists h',
    emit (fresh (new_GoClass this0 type)) = (Normal tt, h')
    /\ nesting 0 (written h') = Some 0.
Proof.
  intros R. destruct (emit_fresh this0 R) as (h' & E & W).
  exists h'. split; [exact E |]. rewrite W. apply nesting_emit_out.
Qed.

End Blocks.

Lemma emit_blocks_balanced_witness :
  exists h',
    @emit Sample.world (fresh Sample.widget) = (Normal tt, h')
    /\ nesting 0 (written h') = Some 0.
Proof.
  exact (@emit_blocks_balanced Sample.world (Sample.goType Sample.pkgA "Widget")
           Sample.Widget Widget_Resolved).
Defined.

(** ** The ancestors in the struct, the interface and the registration *)

Section Ancestors.
Context `{Externals}.
Variables (this0 : GoType.t) (type : ClassType.t).
Hypothesis resolved : Resolved type.

Lemma directBases_resolved :
  length (match toOption (extends_of type) with Some base => [base] | None => [] end
          ++ resolvedInterfaces type)
  = directBases type.
Proof.
  rewrite length_app, (resolvedInterfaces_length this0 resolved).
  unfold directBases. f_equal.
  destruct (ClassType.base type) as [b|] eqn:B.
  - destruct (extends_of_base resolved B) as (c & -> & _). reflexivity.
  - unfold extends_of. now rewrite B.
Qed.

(** X3.  For a class whose references resolve, the proxy struct has one
    field for each direct ancestor, and the one padding field when there
    is none. *)
Theorem struct_one_field_per_ancestor :
  exists h' body,
    emitStruct (fresh (new_GoClass this0 type)) = (Normal tt, h')
    /\ written h' = structHeader (new_GoClass this0 type) ++ body ++ blockEnd
    /\ length body = Nat.max 1 (directBases type)
    /\ (directBases type = 0 -> body = [code_line "_ byte // padding"])
    /\ (directBases type >= 1 ->
        Forall (fun e => exists ancestor,
                    e = embedExtends (new_GoClass this0 type) ancestor
                    \/ e = embedImplements (new_GoClass this0 type) ancestor)
               body).
Proof.
  destruct (runs_emitStruct (resolved_c0 this0 resolved) (fresh_Reachable this0 type))
    as (h' & E & _ & W & _).
  exists h', (struct_body (new_GoClass this0 type)).
  split; [exact E |]. split; [exact W |].
  pose proof directBases_resolved as D.
  destruct (directBases type) as [|n] eqn:Dn.
  - assert (B : struct_body (new_GoClass this0 type) = [code_line "_ byte // padding"]).
    { unfold struct_body. cbn [GoClass.type new_GoClass].
      destruct (toOption (extends_of type)); [discriminate |].
      now destruct (resolvedInterfaces type). }
    rewrite B. split; [reflexivity |]. split; [reflexivity | lia].
  - assert (G : S n >= 1) by lia. rewrite <- Dn in G.
    rewrite (struct_body_embeds this0 resolved G).
    split; [| split; [discriminate |]].
    + rewrite length_app, length_map. rewrite length_app in D.
      destruct (toOption (extends_of type)); simpl in *; lia.
    + intros _. apply Forall_app. split.
      * destruct (toOption (extends_of type)); repeat constructor. eexists. now left.
      * apply Forall_map_all. intros a. exists a. now right.
Qed.

(** X4.  For a class whose references resolve, [baseTypes], the
    interface and the registration list the same ancestors in the same
    order: the base class as the registry holds it, if the class has
    one, and then the interfaces that the class implements, as the
    registry holds them, sorted by fully-qualified name; one for each
    direct ancestor. *)
Theorem ancestors_agree :
  Consistent ->
  exists ifaces hb hi hr,
    let bases :=
      match ClassType.base type with
      | Some base => defined [findType (ReflectType.fqn base)]
      | None => []
      end ++ ifaces in
    ifaces = Array_sort byFqn (defined (foundInterfaces type))
    /\ Permutation (map Some ifaces) (foundInterfaces type)
    /\ Sorted fqnLe ifaces
    /\ length bases = directBases type
    /\ get_baseTypes (fresh (new_GoClass this0 type)) = (Normal (map Some bases), hb)
    /\ written hb = []
    /\ emitInterface (fresh (new_GoClass this0 type)) = (Normal tt, hi)
    /\ written hi
       = [ documenter_emit (ClassType.docs type);
           code_openBlock ("type " ++ GoType.name this0 ++ " interface")%string ]
         ++ map (interfaceName (new_GoClass this0 type)) bases
         ++ flat_map (fun p => [emitGetterDecl p; emitSetterDecl p])
                     (GoClass.properties (new_GoClass this0 type))
         ++ flat_map ClassMethod_emitDecl (GoClass.methods (new_GoClass this0 type))
         ++ blockEnd
    /\ emitRegistration (fresh (new_GoClass this0 type)) = (Normal tt, hr)
    /\ written hr
       = [ code_open (JSII_RT_ALIAS ++ ".RegisterClass(")%string;
           code_line (quote ++ GoType.fqn this0 ++ quote ++ ",")%string;
           code_line ("reflect.TypeOf((*" ++ GoType.name this0 ++ ")(nil)).Elem(),")%string;
           emitProxyMakerFunction (map Some bases);
           code_close ")" ].
Proof.
  intros total.
  pose proof (resolved_c0 this0 resolved) as R0.
  pose proof (fresh_Reachable this0 type) as F.
  destruct (runs_get_baseTypes R0 F) as (hb & Eb & _ & Wb & _).
  destruct (runs_emitInterface R0 F) as (hi & Ei & _ & Wi & _).
  destruct (runs_emitRegistration R0 F) as (hr & Er & _ & Wr & _).
  pose proof (@implements_of_resolved _ _ R0) as I. cbn [GoClass.type new_GoClass] in *.
  exists (resolvedInterfaces type), hb, hi, hr.
  assert (B : match ClassType.base type with
              | Some base => defined [findType (ReflectType.fqn base)]
              | None => []
              end
              = match toOption (extends_of type) with Some base => [base] | None => [] end).
  { unfold extends_of. destruct (ClassType.base type) as [base|]; [| reflexivity].
    now destruct (findType (ReflectType.fqn base)). }
  cbv zeta. rewrite B.
  split; [reflexivity |].
  split; [exact (resolvedInterfaces_Permutation this0 resolved) |].
  split. { apply Array_sort_Sorted. intros x y. apply total. }
  split; [exact directBases_resolved |].
  assert (M : match toOption (extends_of type) with
              | Some base => [Some base]
              | None => []
              end ++ implements_of type
              = map Some (match toOption (extends_of type) with
                          | Some base => [base]
                          | None => []
                          end ++ resolvedInterfaces type)).
  { rewrite map_app, I. now destruct (toOption (extends_of type)). }
  rewrite M in Eb, Wr.
  split; [exact Eb |]. split; [exact Wb |]. split; [exact Ei |].
  split; [| split; [exact Er | exact Wr]].
  rewrite Wi. unfold interface_out. cbn [GoClass.type new_GoClass app].
  rewrite map_app, <- !app_assoc. do 2 f_equal.
  now destruct (toOption (extends_of type)).
Qed.

End Ancestors.

(** ** Methods, accessors and packages *)

Lemma flat_map_split {A B} (f : A -> list B) (l : list A) (x : A) :
  In x l -> exists before after, flat_map f l = before ++ f x ++ after.
Proof.
  intros I. destruct (in_split _ _ I) as (l1 & l2 & ->).
  exists (flat_map f l1), (flat_map f l2).
  now rewrite flat_map_app.
Qed.

Lemma positive_length {A} (l : list A) :
  (0 <? length l)%nat = true <-> exists x, In x l.
Proof.
  destruct l as [|x l]; simpl.
  - split; [discriminate | intros (? & [])].
  - split; [intros _; exists x; now left | reflexivity].
Qed.

Section Uses.
Context `{Externals}.
Variables (this0 : GoType.t) (type : ClassType.t).

Lemma In_methods (m : ClassMethod) :
  In m (GoClass.methods (new_GoClass this0 type))
  <-> exists x, m = Build_ClassMethod this0 x
                /\ In x (ClassType.ownMethods type) /\ Method.static x = false.
Proof.
  cbn [new_GoClass GoClass.methods].
  rewrite Array_sort_In, in_map_iff.
  split; intros (x & E & I).
  - apply filter_In in I. destruct I as [I S]. apply negb_true_iff in S. now exists x.
  - exists x. split; [now symmetry |]. apply filter_In.
    split; [tauto |]. now apply negb_true_iff.
Qed.

Lemma In_properties (p : GoProperty) :
  In p (GoClass.properties (new_GoClass this0 type))
  <-> exists x, p = Build_GoProperty this0 x
                /\ In x (ClassType.ownProperties type) /\ Property.static x = false.
Proof.
  cbn [new_GoClass GoClass.properties].
  rewrite Array_sort_In, in_map_iff.
  split; intros (x & E & I).
  - apply filter_In in I. destruct I as [I S]. apply negb_true_iff in S. now exists x.
  - exists x. split; [now symmetry |]. apply filter_In.
    split; [tauto |]. now apply negb_true_iff.
Qed.

(** X7.  [usesRuntimePackage] holds exactly when the class declares an
    initializer, an instance method or an instance property; static
    members and inherited members do not count. *)
Theorem usesRuntimePackage_iff :
  usesRuntimePackage (new_GoClass this0 type) = true
  <-> ClassType.initializer type <> None
      \/ (exists m, In m (ClassType.ownMethods type) /\ Method.static m = false)
      \/ (exists p, In p (ClassType.ownProperties type) /\ Property.static p = false).
Proof.
  unfold usesRuntimePackage, hasInitializer.
  rewrite !orb_true_iff, !positive_length.
  assert (I : (match GoClass.initializer (new_GoClass this0 type) with
               | Some _ => true
               | None => false
               end = true) <-> ClassType.initializer type <> None).
  { cbn [new_GoClass GoClass.initializer].
    destruct (ClassType.initializer type); split; congruence. }
  rewrite I.
  assert (M : (exists x, In x (GoClass.methods (new_GoClass this0 type)))
              <-> exists m, In m (ClassType.ownMethods type) /\ Method.static m = false).
  { split.
    - intros (m & Im). apply In_methods in Im. destruct Im as (x & _ & Ix). now exists x.
    - intros (x & Ix). exists (Build_ClassMethod this0 x). apply In_methods. now exists x. }
  assert (P : (exists x, In x (GoClass.properties (new_GoClass this0 type)))
              <-> exists p, In p (ClassType.ownProperties type)
                            /\ Property.static p = false).
  { split.
    - intros (p & Ip). apply In_properties in Ip. destruct Ip as (x & _ & Ix).
      now exists x.
    - intros (x & Ix). exists (Build_GoProperty this0 x). apply In_properties.
      now exists x. }
  rewrite M, P. tauto.
Qed.

(** X8.  [usesInitPackage] never depends on the methods of the class,
    static ones included though each of them uses the init package: it
    holds exactly when the class declares an initializer or one of its
    instance properties uses the init package. *)
Theorem usesInitPackage_iff (GoProperty_usesInitPackage : GoProperty -> bool) :
  usesInitPackage GoProperty_usesInitPackage (new_GoClass this0 type) = true
  <-> ClassType.initializer type <> None
      \/ exists p,
           In p (ClassType.ownProperties type)
           /\ Property.static p = false
           /\ GoProperty_usesInitPackage (Build_GoProperty this0 p) = true.
Proof.
  unfold usesInitPackage, hasInitializer.
  assert (M : existsb ClassMethod_usesInitPackage
                      (GoClass.methods (new_GoClass this0 type)) = false).
  { induction (GoClass.methods (new_GoClass this0 type)); simpl; trivial. }
  rewrite M, orb_false_r, orb_true_iff, existsb_exists.
  cbn [new_GoClass GoClass.initializer].
  split.
  - intros [I | (p & Ip & U)].
    + left. destruct (ClassType.initializer type); congruence.
    + right. apply In_properties in Ip. destruct Ip as (x & -> & Ix & S). now exists x.
  - intros [I | (x & Ix & S & U)].
    + left. destruct (ClassType.initializer type); congruence.
    + right. exists (Build_GoProperty this0 x). split; [| exact U].
      apply In_properties. now exists x.
Qed.

Hypothesis resolved : Resolved type.

(** X5.  For a class whose references resolve, every instance method of
    the class is declared in the interface with its signature and
    implemented further down, as a function with the same signature
    whose receiver is the proxy struct that [emit] declares. *)
Theorem declared_methods_implemented :
  exists h',
    emit (fresh (new_GoClass this0 type)) = (Normal tt, h')
    /\ In (code_openBlock ("type " ++ GoType.proxyName this0 ++ " struct")%string)
          (written h')
    /\ forall m,
         In m (GoClass.methods (new_GoClass this0 type)) ->
         exists before between after,
           written h'
           = before ++ [code_line (signature m)] ++ between
             ++ [ documenter_emit (Method.docs (method m));
                  code_openBlock ("func (" ++ ClassMethod_instanceArg m ++ " *"
                                    ++ GoType.proxyName this0 ++ ") "
                                    ++ signature m)%string;
                  MethodCall_emit m;
                  code_closeBlock;
                  code_line_empty ]
             ++ after.
Proof.
  destruct (emit_fresh this0 resolved) as (h' & E & W).
  exists h'. split; [exact E |]. split.
  { rewrite W. unfold emit_out, struct_out, structHeader.
    apply in_or_app. right. apply in_or_app. left. right. now left. }
  intros m I.
  assert (P : ClassMethod_parent m = this0).
  { apply In_methods in I. now destruct I as (x & -> & _). }
  destruct (flat_map_split ClassMethod_emitDecl _ _ I) as (d1 & d2 & D).
  destruct (flat_map_split ClassMethod_emit _ _ I) as (i1 & i2 & J).
  rewrite W. unfold emit_out, interface_out, methods_out. rewrite D, J.
  unfold ClassMethod_emitDecl, ClassMethod_emit. rewrite P. fold (signature m).
  exists ([ documenter_emit (ClassType.docs type);
            code_openBlock ("type " ++ GoType.name this0 ++ " interface")%string ]
          ++ match toOption (extends_of type) with
             | Some base => [interfaceName (new_GoClass this0 type) base]
             | None => []
             end
          ++ map (interfaceName (new_GoClass this0 type)) (resolvedInterfaces type)
          ++ flat_map (fun p => [emitGetterDecl p; emitSetterDecl p])
                      (GoClass.properties (new_GoClass this0 type))
          ++ d1).
  exists (d2 ++ blockEnd ++ struct_out (new_GoClass this0 type)
          ++ getters_out (new_GoClass this0 type)
          ++ constructor_out (new_GoClass this0 type)
          ++ setters_out (new_GoClass this0 type)
          ++ statics_out (new_GoClass this0 type) ++ i1).
  exists (i2 ++ flat_map ClassMethod_emit
                         (orEmpty (GoClass.reimplementedMethods (new_GoClass this0 type)))).
  rewrite <- !app_assoc. reflexivity.
Qed.

(** X6.  For a class whose references resolve, [emit] writes one
    runtime method call for each static method, each instance method and
    each re-implemented method, in this order, and one setter proxy for
    each instance property and each re-implemented property; when the
    class has an instance property of its own, it writes the getter
    proxies of the same properties in the same order. *)
Theorem emit_runtime_calls :
  exists h',
    emit (fresh (new_GoClass this0 type)) = (Normal tt, h')
    /\ methodCalls (written h')
       = GoClass.staticMethods (new_GoClass this0 type)
         ++ GoClass.methods (new_GoClass this0 type)
         ++ orEmpty (GoClass.reimplementedMethods (new_GoClass this0 type))
    /\ setterProxies (written h')
       = GoClass.properties (new_GoClass this0 type)
         ++ orEmpty (GoClass.reimplementedProperties (new_GoClass this0 type))
    /\ (GoClass.properties (new_GoClass this0 type) <> [] ->
        getterProxies (written h') = setterProxies (written h')).
Proof.
  destruct (emit_fresh this0 resolved) as (h' & E & W).
  exists h'. split; [exact E |].
  rewrite W, methodCalls_emit_out, setterProxies_emit_out, getterProxies_emit_out.
  split; [reflexivity |]. split; [reflexivity |].
  intros N. destruct (GoClass.properties (new_GoClass this0 type)); [contradiction |].
  reflexivity.
Qed.

End Uses.

(** ** What [emit] does when the registry lacks an ancestor *)

Lemma holes_missing {A} (l : list (option A)) :
  In None l -> exists rest, holes l = None :: rest.
Proof.
  induction l as [|[a|] l IH]; simpl; intros I.
  - contradiction.
  - destruct I as [I|I]; [discriminate | now apply IH].
  - now eexists.
Qed.

Section Lenient.
Context `{Externals}.
Variable c0 : GoClass.t.

Lemma yields_ret {A} (a : A) : yields c0 (ret a) a [].
Proof. intros h S. exists h. rewrite app_nil_r. auto. Qed.

Lemma yields_tell (l : list Emitted) : yields c0 (tell l) tt l.
Proof. intros h S. eexists. split; [reflexivity |]. split; [exact S | reflexivity]. Qed.

Lemma yields_deref {A} (a : A) : yields c0 (deref (Some a)) a [].
Proof. apply yields_ret. Qed.

Lemma throws_deref {A} : throws c0 (@deref A None) [].
Proof. intros h S. exists h. rewrite app_nil_r. auto. Qed.

Lemma yields_bind {A B} (m : M A) (k : A -> M B) (a : A) (b : B) (l1 l2 : list Emitted) :
  yields c0 m a l1 -> yields c0 (k a) b l2 -> yields c0 (bind m k) b (l1 ++ l2).
Proof.
  intros Ym Yk h S.
  destruct (Ym h S) as (h1 & E1 & S1 & W1).
  destruct (Yk h1 S1) as (h2 & E2 & S2 & W2).
  exists h2. unfold bind. rewrite E1, E2, W2, W1, app_assoc. auto.
Qed.

Lemma throws_first {A B} (m : M A) (k : A -> M B) (l : list Emitted) :
  throws c0 m l -> throws c0 (bind m k) l.
Proof.
  intros Tm h S. destruct (Tm h S) as (h1 & E1 & S1 & W1).
  exists h1. unfold bind. rewrite E1. auto.
Qed.

Lemma throws_later {A B} (m : M A) (k : A -> M B) (a : A) (l1 l2 : list Emitted) :
  yields c0 m a l1 -> throws c0 (k a) l2 -> throws c0 (bind m k) (l1 ++ l2).
Proof.
  intros Ym Tk h S.
  destruct (Ym h S) as (h1 & E1 & S1 & W1).
  destruct (Tk h1 S1) as (h2 & E2 & S2 & W2).
  exists h2. unfold bind. rewrite E1, E2, W2, W1, app_assoc. auto.
Qed.

Lemma yields_getThis {B} (k : GoClass.t -> M B) (b : B) (l : list Emitted) :
  (forall c, frozen c = frozen c0 -> yields c0 (k c) b l) ->
  yields c0 (bind getThis k) b l.
Proof. intros Yk h S. unfold bind, getThis. apply Yk; [apply S | exact S]. Qed.

Lemma throws_getThis {B} (k : GoClass.t -> M B) (l : list Emitted) :
  (forall c, frozen c = frozen c0 -> throws c0 (k c) l) ->
  throws c0 (bind getThis k) l.
Proof. intros Tk h S. unfold bind, getThis. apply Tk; [apply S | exact S]. Qed.

Lemma yields_weaken {A} (m : M A) (a : A) (l l' : list Emitted) :
  yields c0 m a l -> l = l' -> yields c0 m a l'.
Proof. now intros Y <-. Qed.

Lemma throws_weaken {A} (m : M A) (l l' : list Emitted) :
  throws c0 m l -> l = l' -> throws c0 m l'.
Proof. now intros T <-. Qed.

Lemma yields_if {A} (b : bool) (m1 m2 : M A) (a1 a2 : A) (l1 l2 : list Emitted) :
  yields c0 m1 a1 l1 -> yields c0 m2 a2 l2 ->
  yields c0 (if b then m1 else m2) (if b then a1 else a2) (if b then l1 else l2).
Proof. now destruct b. Qed.

Lemma yields_forEach {X} (body : X -> M unit) (out : X -> list Emitted) (l : list X) :
  (forall x, In x l -> yields c0 (body x) tt (out x)) ->
  yields c0 (forEach l body) tt (flat_map out l).
Proof.
  induction l as [|x l IH]; simpl; intros Yb.
  - apply yields_ret.
  - eapply yields_bind; [apply Yb; now left |].
    apply IH. intros y I. apply Yb. now right.
Qed.

Lemma yields_forEach_resolved (f : GoType.t -> Emitted) (l : list GoType.t) :
  yields c0 (forEach (map Some l) (fun i => bind (deref i) (fun iface => tell [f iface])))
         tt (map f l).
Proof.
  induction l as [|x l IH]; simpl.
  - apply yields_ret.
  - eapply yields_weaken.
    + eapply yields_bind; [| apply IH].
      eapply yields_bind; [apply yields_deref | apply yields_tell].
    + reflexivity.
Qed.

(** The loop stops at the first interface that did not resolve. *)
Lemma throws_forEach_missing (f : GoType.t -> Emitted) (l : list GoType.t)
      (rest : list (option GoType.t)) :
  throws c0 (forEach (map Some l ++ None :: rest)
                     (fun i => bind (deref i) (fun iface => tell [f iface])))
         (map f l).
Proof.
  induction l as [|x l IH]; simpl.
  - apply throws_first, throws_first, throws_deref.
  - eapply throws_weaken.
    + eapply throws_later; [| apply IH].
      eapply yields_bind; [apply yields_deref | apply yields_tell].
    + reflexivity.
Qed.

Lemma yields_mapM_pkg (l : list GoType.t) :
  yields c0 (mapM (fun ref => bind (deref ref) (fun t => ret (GoType.pkg t))) (map Some l))
         (map GoType.pkg l) [].
Proof.
  induction l as [|x l IH]; simpl.
  - apply yields_ret.
  - eapply yields_weaken.
    + eapply yields_bind.
      * eapply yields_bind; [apply yields_deref | apply yields_ret].
      * cbv beta. eapply yields_bind; [apply IH | apply yields_ret].
    + reflexivity.
Qed.

(** The getters need nothing of the registry. *)
Lemma yields_get_extends :
  yields c0 get_extends (toOption (extends_of (GoClass.type c0))) [].
Proof.
  intros [c lk wr] (F & (Ce & Ci)). simpl in *.
  pose proof (frozen_fields F) as (_ & Ty & _).
  unfold get_extends, bind, getThis, ret, setThis, root_findType. simpl.
  rewrite app_nil_r.
  destruct c as [su ty ms sms ps sps rms rps ex im ini]. simpl in *. subst ty.
  destruct ex as [| |g].
  - unfold extends_of in *.
    destruct (ClassType.base (GoClass.type c0)) as [b|] eqn:Eb; simpl.
    + destruct (findType (ReflectType.fqn b)) as [g|] eqn:Eg; simpl;
        (eexists; split; [reflexivity |]; split; [| reflexivity];
         unfold Sound, coherent, extends_of; simpl; rewrite Eb, Eg;
         split; [exact F |]; split; [auto | exact Ci]).
    + eexists. split; [reflexivity |]. split; [| reflexivity].
      unfold Sound, coherent, extends_of. simpl. rewrite Eb.
      split; [exact F |]. split; [auto | exact Ci].
  - destruct Ce as [Ce|Ce]; [discriminate |]. rewrite <- Ce.
    eexists. split; [reflexivity |]. split; [| reflexivity].
    unfold Sound, coherent. simpl. split; [exact F |]. split; [auto | exact Ci].
  - destruct Ce as [Ce|Ce]; [discriminate |]. rewrite <- Ce.
    eexists. split; [reflexivity |]. split; [| reflexivity].
    unfold Sound, coherent. simpl. split; [exact F |]. split; [auto | exact Ci].
Qed.

Lemma yields_get_implements :
  yields c0 get_implements (implements_of (GoClass.type c0)) [].
Proof.
  intros [c lk wr] (F & (Ce & Ci)). simpl in *.
  pose proof (frozen_fields F) as (_ & Ty & _).
  unfold get_implements, bind, getThis. simpl.
  destruct c as [su ty ms sms ps sps rms rps ex im ini]. simpl in *. subst ty.
  destruct im as [l|].
  - destruct Ci as [Ci|Ci]; [discriminate |]. injection Ci as ->.
    unfold ret. simpl. rewrite app_nil_r.
    eexists. split; [reflexivity |]. split; [| reflexivity].
    unfold Sound, coherent. simpl. split; [exact F |]. split; [exact Ce | auto].
  - rewrite mapM_findType. simpl. unfold ret. rewrite app_nil_r.
    eexists. split; [reflexivity |]. split; [| reflexivity].
    unfold Sound, coherent. simpl. split; [exact F |]. split; [exact Ce | auto].
Qed.

Lemma implements_of_InterfacesResolved :
  InterfacesResolved (GoClass.type c0) ->
  implements_of (GoClass.type c0) = map Some (resolvedInterfaces (GoClass.type c0)).
Proof.
  intros R. unfold implements_of, resolvedInterfaces.
  assert (E : foundInterfaces (GoClass.type c0)
              = map Some (defined (foundInterfaces (GoClass.type c0)))).
  { unfold foundInterfaces, InterfacesResolved in *.
    induction R as [|i l Hi R IH]; simpl; trivial.
    destruct (findType (ReflectType.fqn i)); [| contradiction].
    simpl. now rewrite <- IH. }
  rewrite E at 1. apply Array_sort_sparse_full.
Qed.

Lemma implements_of_InterfaceMissing :
  InterfaceMissing (GoClass.type c0) ->
  exists rest,
    implements_of (GoClass.type c0)
    = map Some (resolvedInterfaces (GoClass.type c0)) ++ None :: rest.
Proof.
  intros (i & I & N). unfold implements_of, Array_sort_sparse.
  destruct (holes_missing (foundInterfaces (GoClass.type c0))) as (rest & ->).
  - unfold foundInterfaces. apply in_map_iff. now exists i.
  - now exists rest.
Qed.

Ltac same c Fc :=
  intros c Fc;
  let Su := fresh "Su" in let Ty := fresh "Ty" in let Ms := fresh "Ms" in
  let Sms := fresh "Sms" in let Ps := fresh "Ps" in let Sps := fresh "Sps" in
  let Rms := fresh "Rms" in let Rps := fresh "Rps" in let Ini := fresh "Ini" in
  destruct (frozen_fields Fc) as (Su & Ty & Ms & Sms & Ps & Sps & Rms & Rps & Ini);
  unfold embedded, emitStaticProperty, GoClass.name, GoClass.pkg, GoClass.proxyName,
    GoClass.fqn;
  rewrite ?Su, ?Ty, ?Ms, ?Sms, ?Ps, ?Sps, ?Rms, ?Rps, ?Ini;
  clear Su Ty Ms Sms Ps Sps Rms Rps Ini.

Ltac go :=
  repeat lazymatch goal with
  | |- yields _ (bind _ _) _ _ => eapply yields_bind; [| cbv beta iota]
  | |- yields _ (if _ then _ else _) _ _ => apply yields_if
  | |- yields _ (tell _) _ _ => apply yields_tell
  | |- yields _ (ret _) _ _ => apply yields_ret
  | |- yields _ (deref (Some _)) _ _ => apply yields_deref
  | |- yields _ get_extends _ _ => eassumption
  | |- yields _ get_implements _ _ => eassumption
  | |- yields _ (forEach (map Some _) _) _ _ => apply yields_forEach_resolved
  | |- yields _ (forEach _ _) _ _ => apply yields_forEach; intros ? _
  end.

Section AllInterfaces.
Hypothesis resolved : InterfacesResolved (GoClass.type c0).

Lemma yields_emitInterface : yields c0 emitInterface tt (interface_out c0).
Proof.
  unfold emitInterface. apply yields_getThis. same c Fc.
  pose proof yields_get_extends as Ye.
  pose proof yields_get_implements as Yi.
  rewrite (implements_of_InterfacesResolved resolved) in Yi.
  unfold interface_out.
  destruct (toOption (extends_of (GoClass.type c0))) as [base|];
    (eapply yields_weaken; [go | reflexivity]).
Qed.

Lemma yields_emitStruct : yields c0 emitStruct tt (struct_out c0).
Proof.
  unfold emitStruct. apply yields_getThis. same c Fc.
  pose proof yields_get_extends as Ye.
  pose proof yields_get_implements as Yi.
  rewrite (implements_of_InterfacesResolved resolved) in Yi.
  unfold struct_out, struct_body.
  destruct (toOption (extends_of (GoClass.type c0))) as [base|].
  - eapply yields_weaken.
    + go.
    + unfold embedExtends, embedImplements, embedded, GoClass.pkg.
      destruct (Package_eqb (GoType.pkg base) (GoType.pkg (GoClass.super c0)));
        destruct (resolvedInterfaces (GoClass.type c0)); reflexivity.
  - destruct (resolvedInterfaces (GoClass.type c0)) as [|i l] eqn:El;
      (eapply yields_weaken; [go; simpl; go | reflexivity]).
Qed.

Lemma yields_emitGetters : yields c0 emitGetters tt (getters_out c0).
Proof.
  unfold emitGetters. apply yields_getThis. same c Fc.
  unfold getters_out.
  destruct (length (GoClass.properties c0) =? 0)%nat.
  - apply yields_ret.
  - eapply yields_weaken; [go |].
    rewrite !flat_map_singleton. reflexivity.
Qed.

Lemma yields_emitSetters : yields c0 emitSetters tt (setters_out c0).
Proof.
  unfold emitSetters. apply yields_getThis. same c Fc.
  unfold setters_out.
  eapply yields_weaken; [go |].
  rewrite !flat_map_singleton. reflexivity.
Qed.

Lemma yields_emit : yields c0 emit tt (emit_out c0).
Proof.
  unfold emit, emit_out.
  eapply yields_bind; [apply yields_emitInterface |].
  eapply yields_bind; [apply yields_emitStruct |].
  eapply yields_bind; [apply yields_emitGetters |].
  apply yields_getThis. same c Fc.
  unfold constructor_out, statics_out, methods_out, emitStaticProperty, GoClass.name.
  destruct (GoClass.initializer c0) as [i|];
    (eapply yields_weaken;
     [ eapply yields_bind; [apply yields_tell || apply yields_ret |];
       eapply yields_bind; [apply yields_emitSetters |]; go
     | rewrite <- ?app_assoc; reflexivity ]).
Qed.

Lemma yields_get_baseTypes :
  yields c0 get_baseTypes
         (map Some (match toOption (extends_of (GoClass.type c0)) with
                    | Some base => [base]
                    | None => []
                    end ++ resolvedInterfaces (GoClass.type c0))) [].
Proof.
  unfold get_baseTypes.
  pose proof yields_get_extends as Ye.
  pose proof yields_get_implements as Yi.
  rewrite (implements_of_InterfacesResolved resolved) in Yi.
  destruct (toOption (extends_of (GoClass.type c0))) as [base|];
    (eapply yields_weaken; [go | reflexivity]).
Qed.

Lemma yields_get_dependencies
      (forProperties : list GoProperty -> list Package)
      (forMethods forParams : list ClassMethod -> list Package) :
  yields c0 (get_dependencies forProperties forMethods forParams)
         (ancestorPackages (GoClass.type c0)
          ++ forProperties (GoClass.properties c0)
          ++ forMethods (GoClass.methods c0)
          ++ forParams (GoClass.methods c0)) [].
Proof.
  unfold get_dependencies, ancestorPackages.
  eapply yields_weaken.
  - eapply yields_bind; [apply yields_get_baseTypes |].
    eapply yields_bind; [apply yields_mapM_pkg |].
    apply yields_getThis. intros c Fc.
    destruct (frozen_fields Fc) as (_ & _ & -> & _ & -> & _).
    apply yields_ret.
  - reflexivity.
Qed.

End AllInterfaces.

Section OneMissing.
Hypothesis missing : InterfaceMissing (GoClass.type c0).

Lemma throws_emitInterface :
  throws c0 emitInterface
         ([ documenter_emit (ClassType.docs (GoClass.type c0));
            code_openBlock ("type " ++ GoClass.name c0 ++ " interface")%string ]
          ++ match toOption (extends_of (GoClass.type c0)) with
             | Some base => [interfaceName c0 base]
             | None => []
             end
          ++ map (interfaceName c0) (resolvedInterfaces (GoClass.type c0))).
Proof.
  unfold emitInterface. apply throws_getThis. same c Fc.
  pose proof yields_get_extends as Ye.
  pose proof yields_get_implements as Yi.
  destruct (implements_of_InterfaceMissing missing) as (rest & Im).
  rewrite Im in Yi.
  destruct (toOption (extends_of (GoClass.type c0))) as [base|].
  - eapply throws_weaken.
    + eapply throws_later; [apply yields_tell |].
      eapply throws_later; [apply yields_tell |].
      eapply throws_later; [exact Ye |]. cbv beta iota.
      eapply throws_later; [go |].
      eapply throws_later; [exact Yi |]. cbv beta.
      apply throws_first. apply throws_forEach_missing.
    + reflexivity.
  - eapply throws_weaken.
    + eapply throws_later; [apply yields_tell |].
      eapply throws_later; [apply yields_tell |].
      eapply throws_later; [exact Ye |]. cbv beta iota.
      eapply throws_later; [go |].
      eapply throws_later; [exact Yi |]. cbv beta.
      apply throws_first. apply throws_forEach_missing.
    + reflexivity.
Qed.

Lemma throws_emit :
  throws c0 emit
         ([ documenter_emit (ClassType.docs (GoClass.type c0));
            code_openBlock ("type " ++ GoClass.name c0 ++ " interface")%string ]
          ++ match toOption (extends_of (GoClass.type c0)) with
             | Some base => [interfaceName c0 base]
             | None => []
             end
          ++ map (interfaceName c0) (resolvedInterfaces (GoClass.type c0))).
Proof. unfold emit. apply throws_first, throws_emitInterface. Qed.

Lemma throws_get_dependencies
      (forProperties : list GoProperty -> list Package)
      (forMethods forParams : list ClassMethod -> list Package) :
  throws c0 (get_dependencies forProperties forMethods forParams) [].
Proof.
  unfold get_dependencies, get_baseTypes.
  pose proof yields_get_extends as Ye.
  pose proof yields_get_implements as Yi.
  destruct (implements_of_InterfaceMissing missing) as (rest & Im).
  rewrite Im in Yi.
  assert (T : forall pre : list GoType.t,
             throws c0 (mapM (fun ref => bind (deref ref) (fun t => ret (GoType.pkg t)))
                             (map Some pre ++ None :: rest)) []).
  { induction pre as [|x pre IH]; simpl.
    - apply throws_first, throws_first, throws_deref.
    - eapply throws_weaken.
      + eapply throws_later.
        * eapply yields_bind; [apply yields_deref | apply yields_ret].
        * cbv beta. apply throws_first, IH.
      + reflexivity. }
  destruct (toOption (extends_of (GoClass.type c0))) as [base|].
  - eapply throws_weaken.
    + eapply throws_later; [go |]. cbv beta.
      apply throws_first.
      change ([Some base] ++ map Some (resolvedInterfaces (GoClass.type c0)) ++ None :: rest)
        with (map Some (base :: resolvedInterfaces (GoClass.type c0)) ++ None :: rest).
      apply T.
    + reflexivity.
  - eapply throws_weaken.
    + eapply throws_later; [go |]. cbv beta.
      apply throws_first. apply (T (resolvedInterfaces (GoClass.type c0))).
    + reflexivity.
Qed.

End OneMissing.

End Lenient.

Section Missing.
Context `{Externals}.
Variables (this0 : GoType.t) (type : ClassType.t).

Lemma fresh_Sound : Sound (new_GoClass this0 type) (fresh (new_GoClass this0 type)).
Proof. split; [reflexivity |]. split; now left. Qed.

(** X9.  When the registry lacks one of the interfaces that a class
    implements, [emit] throws a [TypeError], whatever else the class has:
    by then it has opened the interface block and written the names of
    the base class and of the interfaces that did resolve, and nothing
    more, so the block stays open.  [dependencies] throws as well, having
    written nothing. *)
Theorem emit_throws_on_missing_interface
        (forProperties : list GoProperty -> list Package)
        (forMethods forParams : list ClassMethod -> list Package) :
  InterfaceMissing type ->
  exists h' hd,
    emit (fresh (new_GoClass this0 type)) = (TypeError, h')
    /\ written h'
       = [ documenter_emit (ClassType.docs type);
           code_openBlock ("type " ++ GoType.name this0 ++ " interface")%string ]
         ++ match toOption (extends_of type) with
            | Some base => [interfaceName (new_GoClass this0 type) base]
            | None => []
            end
         ++ map (interfaceName (new_GoClass this0 type)) (resolvedInterfaces type)
    /\ nesting 0 (written h') = Some 1
    /\ get_dependencies forProperties forMethods forParams (fresh (new_GoClass this0 type))
       = (TypeError, hd)
    /\ written hd = [].
Proof.
  intros Mi.
  destruct (@throws_emit _ (new_GoClass this0 type) Mi _ fresh_Sound) as (h' & E & _ & W).
  destruct (@throws_get_dependencies _ (new_GoClass this0 type) Mi
              forProperties forMethods forParams _ fresh_Sound) as (hd & Ed & _ & Wd).
  exists h', hd. split; [exact E |]. split; [exact W |].
  split; [| split; [exact Ed | exact Wd]].
  rewrite W. simpl. rewrite nesting_flat; trivial. all_flat.
Qed.

(** X10.  When the registry lacks the base class of a class whose
    interfaces resolve, nothing fails: [emit] writes the class as if it
    had no base class, the struct embedding the interfaces only, or the
    padding field when there are none, and [_extends] is still unset
    afterwards. *)
Theorem missing_base_is_dropped (base : ReflectType.t) :
  ClassType.base type = Some base ->
  findType (ReflectType.fqn base) = None ->
  InterfacesResolved type ->
  exists h' hs hi,
    emit (fresh (new_GoClass this0 type)) = (Normal tt, h')
    /\ written h' = emit_out (new_GoClass this0 type)
    /\ GoClass._extends (this h') = undefined
    /\ emitStruct (fresh (new_GoClass this0 type)) = (Normal tt, hs)
    /\ written hs
       = structHeader (new_GoClass this0 type)
         ++ match resolvedInterfaces type with
            | [] => [code_line "_ byte // padding"]
            | ifaces => map (embedImplements (new_GoClass this0 type)) ifaces
            end
         ++ blockEnd
    /\ emitInterface (fresh (new_GoClass this0 type)) = (Normal tt, hi)
    /\ written hi
       = [ documenter_emit (ClassType.docs type);
           code_openBlock ("type " ++ GoType.name this0 ++ " interface")%string ]
         ++ map (interfaceName (new_GoClass this0 type)) (resolvedInterfaces type)
         ++ flat_map (fun p => [emitGetterDecl p; emitSetterDecl p])
                     (GoClass.properties (new_GoClass this0 type))
         ++ flat_map ClassMethod_emitDecl (GoClass.methods (new_GoClass this0 type))
         ++ blockEnd.
Proof.
  intros B N R.
  assert (X : extends_of type = undefined) by (unfold extends_of; now rewrite B, N).
  destruct (@yields_emit _ (new_GoClass this0 type) R _ fresh_Sound)
    as (h' & E & (F & C & _) & W).
  destruct (@yields_emitStruct _ (new_GoClass this0 type) R _ fresh_Sound)
    as (hs & Es & _ & Ws).
  destruct (@yields_emitInterface _ (new_GoClass this0 type) R _ fresh_Sound)
    as (hi & Ei & _ & Wi).
  exists h', hs, hi.
  split; [exact E |]. split; [exact W |]. split.
  { destruct C as [C|C]; [exact C |]. rewrite C.
    destruct (frozen_fields F) as (_ & -> & _). exact X. }
  split; [exact Es |]. split.
  { rewrite Ws. unfold struct_out, struct_body. cbn [GoClass.type new_GoClass app].
    rewrite X. cbn [toOption]. now destruct (resolvedInterfaces type). }
  split; [exact Ei |].
  rewrite Wi. unfold interface_out. cbn [GoClass.type new_GoClass app].
  rewrite X. reflexivity.
Qed.

(** X11.  For a class whose interfaces resolve, [dependencies] writes
    nothing and returns first the packages of the direct ancestors, the
    base class before the interfaces in the order of their
    fully-qualified names, and then what the members depend on. *)
Theorem dependencies_start_with_ancestors
        (forProperties : list GoProperty -> list Package)
        (forMethods forParams : list ClassMethod -> list Package) :
  InterfacesResolved type ->
  exists h',
    get_dependencies forProperties forMethods forParams (fresh (new_GoClass this0 type))
    = (Normal (ancestorPackages type
               ++ forProperties (GoClass.properties (new_GoClass this0 type))
               ++ forMethods (GoClass.methods (new_GoClass this0 type))
               ++ forParams (GoClass.methods (new_GoClass this0 type))),
       h')
    /\ written h' = [].
Proof.
  intros R.
  destruct (@yields_get_dependencies _ (new_GoClass this0 type) R
              forProperties forMethods forParams _ fresh_Sound) as (h' & E & _ & W).
  exists h'. split; [exact E | exact W].
Qed.

End Missing.

Lemma Stray_missing : @InterfaceMissing Sample.world Stray.
Proof.
  exists (Sample.reflected Sample.pkgB "Ghost" InterfaceKind).
  split; [now left | reflexivity].
Qed.

Lemma emit_throws_on_missing_interface_witness :
  exists h',
    @emit Sample.world (fresh (@new_GoClass Sample.world
                                 (Sample.goType Sample.pkgA "Stray") Stray))
    = (TypeError, h')
    /\ written h'
       = [ documenter_emit Sample.noDocs;
           code_openBlock "type Stray interface";
           code_line "a.Printable" ].
Proof.
  destruct (@emit_throws_on_missing_interface Sample.world
              (Sample.goType Sample.pkgA "Stray") Stray
              (fun _ => []) (fun _ => []) (fun _ => []) Stray_missing)
    as (h' & hd & E & W & _).
  exists h'. split; [exact E | exact W].
Defined.

Lemma missing_base_is_dropped_witness :
  exists hs,
    @emitStruct Sample.world (fresh (@new_GoClass Sample.world
                                       (Sample.goType Sample.pkgA "Orphan") Sample.Orphan))
    = (Normal tt, hs)
    /\ written hs
       = [ code_line "// The jsii proxy struct for Orphan";
           code_openBlock "type jsiiProxy_Orphan struct";
           code_line "_ byte // padding";
           code_closeBlock;
           code_line_empty ].
Proof.
  destruct (@missing_base_is_dropped Sample.world (Sample.goType Sample.pkgA "Orphan")
              Sample.Orphan (Sample.reflected Sample.pkgB "Missing" ClassKind)
              eq_refl eq_refl (Forall_nil _))
    as (h' & hs & hi & _ & _ & _ & Es & Ws & _).
  exists hs. split; [exact Es | exact Ws].
Defined.

Lemma dependencies_start_with_ancestors_witness :
  exists h',
    @get_dependencies Sample.world (fun _ => []) (fun _ => []) (fun _ => [])
                      (fresh Sample.widget)
    = (Normal [Sample.pkgB; Sample.pkgA], h')
    /\ written h' = [].
Proof.
  exact (@dependencies_start_with_ancestors Sample.world
           (Sample.goType Sample.pkgA "Widget") Sample.Widget
           (fun _ => []) (fun _ => []) (fun _ => []) (proj2 Widget_Resolved)).
Defined.

Lemma struct_one_field_per_ancestor_witness :
  exists h' body,
    @emitStruct Sample.world (fresh Sample.widget) = (Normal tt, h')
    /\ written h' = @structHeader Sample.widget ++ body ++ blockEnd
    /\ length body = 2.
Proof.
  destruct (@struct_one_field_per_ancestor Sample.world
              (Sample.goType Sample.pkgA "Widget") Sample.Widget Widget_Resolved)
    as (h' & body & E & W & L & _).
  exists h', body. split; [exact E |]. split; [exact W | exact L].
Defined.

Lemma ancestors_agree_witness :
  exists hb,
    @get_baseTypes Sample.world (fresh Sample.widget)
    = (Normal [Some (Sample.goType Sample.pkgB "Base");
               Some (Sample.goType Sample.pkgA "Mixin")], hb).
Proof.
  destruct (@ancestors_agree Sample.world (Sample.goType Sample.pkgA "Widget")
              Sample.Widget Widget_Resolved (codeUnitCompare_consistent Sample.registry))
    as (ifaces & hb & hi & hr & I & _ & _ & _ & E & _).
  exists hb. unfold Sample.widget. rewrite E, I. reflexivity.
Defined.

Lemma declared_methods_implemented_witness :
  exists h',
    @emit Sample.world (fresh Sample.widget) = (Normal tt, h')
    /\ In (code_openBlock "type jsiiProxy_Widget struct") (written h').
Proof.
  destruct (@declared_methods_implemented Sample.world
              (Sample.goType Sample.pkgA "Widget") Sample.Widget Widget_Resolved)
    as (h' & E & I & _).
  exists h'. split; [exact E | exact I].
Defined.

Lemma emit_runtime_calls_witness :
  exists h',
    @emit Sample.world (fresh Sample.widget) = (Normal tt, h')
    /\ length (methodCalls (written h')) = 4.
Proof.
  destruct (@emit_runtime_calls Sample.world (Sample.goType Sample.pkgA "Widget")
              Sample.Widget Widget_Resolved) as (h' & E & M & _).
  exists h'. split; [exact E |]. now rewrite M.
Defined.


(** ** Loading assemblies in [jsii-diff] *)

Lemma substring_all (s : string) : substring 0 (String.length s) s = s.
Proof. induction s as [|c s IH]; simpl; congruence. Qed.

Lemma append_empty_r (s : string) : (s ++ "")%string = s.
Proof. induction s; simpl; congruence. Qed.

Lemma prefix_shorter (p q s : string) :
  prefix (p ++ q) s = true -> prefix p s = true.
Proof.
  revert s. induction p as [|c p IH]; intros s.
  - now destruct s.
  - destruct s as [|b s]; simpl; trivial.
    destruct (ascii_dec c b); [apply IH | trivial].
Qed.

Lemma split_lines_cons (s : string) : exists l ls, JsiiDiff.split_lines s = l :: ls.
Proof.
  induction s as [|c s (l & ls & E)]; simpl.
  - now eexists _, _.
  - destruct (Ascii.eqb c (ascii_of_nat 10)); [now eexists _, _ |].
    rewrite E. now eexists _, _.
Qed.

Lemma split_lines_oneLine (s : string) :
  Forall (fun l => oneLine l = true) (JsiiDiff.split_lines s).
Proof.
  induction s as [|c s IH]; simpl.
  - repeat constructor.
  - destruct (Ascii.eqb c (ascii_of_nat 10)) eqn:C.
    + constructor; [reflexivity | exact IH].
    + destruct (JsiiDiff.split_lines s) as [|l ls]; [repeat constructor; simpl; now rewrite C |].
      inversion IH as [|? ? Hl Hls]; subst.
      constructor; [| exact Hls]. simpl. now rewrite C.
Qed.

Lemma split_lines_append (p s : string) :
  oneLine p = true ->
  JsiiDiff.split_lines (p ++ s)
  = match JsiiDiff.split_lines s with
    | l :: ls => (p ++ l)%string :: ls
    | [] => [p]
    end.
Proof.
  induction p as [|c p IH]; simpl; intros O.
  - now destruct (split_lines_cons s) as (l & ls & ->).
  - apply andb_true_iff in O. destruct O as [C O].
    apply negb_true_iff in C. rewrite C, (IH O).
    destruct (split_lines_cons s) as (l & ls & ->). reflexivity.
Qed.

(** Splitting what was joined gives the lines back. *)
Lemma split_lines_join (l : string) (ls : list string) :
  Forall (fun l => oneLine l = true) (l :: ls) ->
  JsiiDiff.split_lines (join JsiiDiff.LF (l :: ls)) = l :: ls.
Proof.
  revert l. induction ls as [|l' ls IH]; intros l F.
  - inversion F as [|? ? O _]; subst. unfold join. simpl.
    rewrite <- (append_empty_r l) at 1.
    rewrite split_lines_append by exact O. simpl. now rewrite append_empty_r.
  - inversion F as [|? ? O F']; subst.
    change (join JsiiDiff.LF (l :: l' :: ls))
      with (l ++ JsiiDiff.LF ++ join JsiiDiff.LF (l' :: ls))%string.
    rewrite split_lines_append by exact O.
    change (JsiiDiff.LF ++ join JsiiDiff.LF (l' :: ls))%string
      with (String (ascii_of_nat 10) (join JsiiDiff.LF (l' :: ls))).
    cbn [JsiiDiff.split_lines]. rewrite Ascii.eqb_refl, (IH _ F').
    now rewrite append_empty_r.
Qed.

Lemma rethrow_lines (resolved : string) (e : JsiiDiff.Error) :
  let full := ("Error loading assembly '" ++ resolved ++ "': " ++ JsiiDiff.message e)%string in
  3 <= length (JsiiDiff.split_lines full) ->
  JsiiDiff.split_lines (JsiiDiff.message (snd (JsiiDiff.rethrow resolved e)))
  = firstn 3 (JsiiDiff.split_lines full) ++ ["..."].
Proof.
  intros full L. unfold JsiiDiff.rethrow. fold full.
  destruct (Nat.ltb_spec (length (JsiiDiff.split_lines full)) 3) as [Lt|_]; [lia |].
  pose proof (split_lines_oneLine full) as O.
  destruct (JsiiDiff.split_lines full) as [|a [|b [|c rest]]]; simpl in L; try lia.
  cbn [snd JsiiDiff.message firstn app].
  apply split_lines_join.
  inversion O as [|? ? Oa O1]; subst. inversion O1 as [|? ? Ob O2]; subst.
  inversion O2 as [|? ? Oc _]; subst.
  repeat constructor; assumption.
Qed.

Lemma rethrow_prefix (resolved : string) (e : JsiiDiff.Error) :
  prefix "Error loading assembly '" (JsiiDiff.message (snd (JsiiDiff.rethrow resolved e)))
  = true.
Proof.
  unfold JsiiDiff.rethrow.
  set (rest := (resolved ++ "': " ++ JsiiDiff.message e)%string).
  destruct (Nat.ltb_spec (length (JsiiDiff.split_lines ("Error loading assembly '" ++ rest))) 3)
    as [Lt|Ge].
  - apply prefix_append.
  - cbn [snd JsiiDiff.message].
    rewrite split_lines_append in * by reflexivity.
    destruct (split_lines_cons rest) as (l & ls & E). rewrite E in *.
    destruct ls as [|b [|c ls]]; simpl in Ge; try lia.
    cbn [firstn app]. unfold join. cbn [String.concat].
    rewrite append_associative. apply prefix_append.
Qed.

(** X12.  The error that [loadAssembly] rethrows names the assembly and
    never has more than four lines: a message of fewer than three lines
    is kept whole and nothing is logged; a longer one is cut to its first
    three lines and a line of three dots, and all of its lines are
    logged. *)
Theorem rethrow_truncates (resolved : string) (e : JsiiDiff.Error) :
  let full := ("Error loading assembly '" ++ resolved ++ "': " ++ JsiiDiff.message e)%string in
  let lines := JsiiDiff.split_lines full in
  let thrown := snd (JsiiDiff.rethrow resolved e) in
  (length lines < 3 ->
   JsiiDiff.message thrown = full /\ fst (JsiiDiff.rethrow resolved e) = [])
  /\ (3 <= length lines ->
      JsiiDiff.split_lines (JsiiDiff.message thrown) = firstn 3 lines ++ ["..."]
      /\ fst (JsiiDiff.rethrow resolved e) = map JsiiDiff.LOG_info lines)
  /\ length (JsiiDiff.split_lines (JsiiDiff.message thrown)) <= 4
  /\ prefix "Error loading assembly '" (JsiiDiff.message thrown) = true.
Proof.
  intros full lines thrown.
  assert (Short : length lines < 3 ->
                  JsiiDiff.message thrown = full /\ fst (JsiiDiff.rethrow resolved e) = []).
  { intros L. unfold thrown, JsiiDiff.rethrow. fold full. fold lines.
    destruct (Nat.ltb_spec (length lines) 3); [split; reflexivity | lia]. }
  assert (Long : 3 <= length lines ->
                 JsiiDiff.split_lines (JsiiDiff.message thrown) = firstn 3 lines ++ ["..."]
                 /\ fst (JsiiDiff.rethrow resolved e) = map JsiiDiff.LOG_info lines).
  { intros L. split; [exact (rethrow_lines resolved e L) |].
    unfold JsiiDiff.rethrow. fold full. fold lines.
    destruct (Nat.ltb_spec (length lines) 3); [lia | reflexivity]. }
  split; [exact Short |]. split; [exact Long |].
  split; [| apply rethrow_prefix].
  destruct (Nat.lt_ge_cases (length lines) 3) as [L|L].
  - destruct (Short L) as [-> _]. fold lines. lia.
  - destruct (Long L) as [-> _]. rewrite length_app, length_firstn. cbn [length]. lia.
Qed.

Section Loading.
Context `{JsiiDiff.World}.

(** X13.  Whatever makes [loadAssembly] throw, the error it throws
    starts with [Error loading assembly '], so it names the assembly that
    failed to load. *)
Theorem thrown_errors_have_context (requested : string) (log : list JsiiDiff.Output)
        (e : JsiiDiff.Error) :
  JsiiDiff.loadAssembly requested = (log, JsiiDiff.Thrown e) ->
  prefix "Error loading assembly '" (JsiiDiff.message e) = true.
Proof.
  unfold JsiiDiff.loadAssembly.
  assert (C : forall r x,
             (let (lg, e') := JsiiDiff.rethrow r x in
              (lg, @JsiiDiff.Thrown JsiiDiff.LoadAssemblyResult e'))
             = (log, JsiiDiff.Thrown e) ->
             prefix "Error loading assembly '" (JsiiDiff.message e) = true).
  { intros r x. pose proof (rethrow_prefix r x) as P.
    destruct (JsiiDiff.rethrow r x) as [lg e']. intros E. injection E as _ <-. exact P. }
  destruct (JsiiDiff.strip_NPM_REGEX requested) as [pkg0|].
  - destruct (if negb (truthy pkg0) then _ else _) as [pkg|x]; [| apply C].
    destruct (JsiiDiff.downloadNpmPackage pkg JsiiDiff.loadFromFilesystem) as [d|x];
      [discriminate | apply C].
  - destruct (JsiiDiff.loadFromFilesystem requested) as [a|x]; [discriminate | apply C].
Qed.

(** X14.  A request that does not start with [npm:] is loaded from the
    file system, and such a load never ends in a soft failure: if
    [loadAssembly] returns at all, it returns an assembly, under the name
    it was asked for, having logged nothing. *)
Theorem filesystem_load_never_fails_softly (requested : string)
        (log : list JsiiDiff.Output) (l : JsiiDiff.LoadAssemblyResult) :
  prefix "npm:" requested = false ->
  JsiiDiff.loadAssembly requested = (log, JsiiDiff.Returned l) ->
  log = []
  /\ JsiiDiff.requested l = requested
  /\ JsiiDiff.resolved l = requested
  /\ exists assembly,
       JsiiDiff.load l = JsiiDiff.success assembly
       /\ JsiiDiff.loadFromFilesystem requested = JsiiDiff.Returned assembly.
Proof.
  intros P. unfold JsiiDiff.loadAssembly, JsiiDiff.strip_NPM_REGEX. rewrite P.
  assert (P6 : prefix "npm://" requested = false).
  { destruct (prefix "npm://" requested) eqn:Q; trivial.
    rewrite <- P. symmetry. exact (prefix_shorter "npm:" "//" requested Q). }
  rewrite P6.
  destruct (JsiiDiff.loadFromFilesystem requested) as [a|x].
  - intros E. injection E as <- <-. simpl. repeat split. now exists a.
  - destruct (JsiiDiff.rethrow requested x). discriminate.
Qed.

Lemma strip_legacy (p : string) :
  prefix "//" p = false -> JsiiDiff.strip_NPM_REGEX ("npm:" ++ p) = Some p.
Proof.
  intros P. unfold JsiiDiff.strip_NPM_REGEX.
  change (prefix "npm://" ("npm:" ++ p)) with (prefix "//" p). rewrite P.
  change (prefix "npm:" ("npm:" ++ p)) with (prefix "" p). rewrite prefix_empty.
  simpl. now rewrite Nat.sub_0_r, substring_all.
Qed.

Lemma strip_modern (p : string) : JsiiDiff.strip_NPM_REGEX ("npm://" ++ p) = Some p.
Proof.
  unfold JsiiDiff.strip_NPM_REGEX.
  change (prefix "npm://" ("npm://" ++ p)) with (prefix "" p). rewrite prefix_empty.
  simpl. now rewrite Nat.sub_0_r, substring_all.
Qed.

(** X15.  The legacy form [npm:<package>] and the form
    [npm://<package>] of a request load the same package: but for the
    request itself, [loadAssembly] logs, returns and throws the same for
    both, for every package name that is not empty and does not itself
    start with two slashes. *)
Theorem npm_prefix_forms_agree (p : string) :
  truthy p = true ->
  prefix "//" p = false ->
  outcomeOf (JsiiDiff.loadAssembly ("npm:" ++ p))
  = outcomeOf (JsiiDiff.loadAssembly ("npm://" ++ p)).
Proof.
  intros T P. unfold JsiiDiff.loadAssembly.
  rewrite (strip_legacy p P), (strip_modern p), T. cbn [negb].
  destruct (JsiiDiff.downloadNpmPackage p JsiiDiff.loadFromFilesystem) as [d|x].
  - reflexivity.
  - now destruct (JsiiDiff.rethrow _ x).
Qed.

(** X16.  The [@] that starts the name of a scoped package is not taken
    for the start of a version: a scoped package requested without a
    version resolves to its name followed by [@latest], and one requested
    with a version resolves to what was requested. *)
Theorem scoped_package_version (rest : string) (log : list JsiiDiff.Output)
        (l : JsiiDiff.LoadAssemblyResult) :
  JsiiDiff.loadAssembly ("npm://@" ++ rest) = (log, JsiiDiff.Returned l) ->
  JsiiDiff.resolved l
  = ("npm://@" ++ rest
       ++ match index 0 "@" rest with None => "@latest" | Some _ => "" end)%string.
Proof.
  unfold JsiiDiff.loadAssembly.
  change ("npm://@" ++ rest)%string with ("npm://" ++ String "@" rest)%string.
  rewrite strip_modern. cbn [truthy String.eqb negb].
  assert (V : JsiiDiff.no_version (String "@" rest)
              = match index 0 "@" rest with None => true | Some _ => false end).
  { unfold JsiiDiff.no_version. cbn [index]. now destruct (index 0 "@" rest). }
  rewrite V.
  destruct (JsiiDiff.downloadNpmPackage _ JsiiDiff.loadFromFilesystem) as [d|x].
  - intros E. injection E as _ <-. cbn [JsiiDiff.resolved].
    destruct (index 0 "@" rest); simpl; [now rewrite append_empty_r | reflexivity].
  - destruct (JsiiDiff.rethrow _ x). discriminate.
Qed.

(** X17.  With no package name after [npm://], the package is the one
    whose assembly lies in the current directory: when [.jsii] exists and
    names a package, loading [npm://] is loading [npm://<that name>]. *)
Theorem empty_package_is_local_assembly (local : string) :
  JsiiDiff.fs_pathExists ".jsii" = true ->
  JsiiDiff.readAssemblyName ".jsii" = JsiiDiff.Returned local ->
  truthy local = true ->
  outcomeOf (JsiiDiff.loadAssembly "npm://")
  = outcomeOf (JsiiDiff.loadAssembly ("npm://" ++ local)).
Proof.
  intros P R T. unfold JsiiDiff.loadAssembly.
  rewrite (strip_modern local), T.
  change (JsiiDiff.strip_NPM_REGEX "npm://") with (Some EmptyString).
  cbn [truthy String.eqb negb]. unfold JsiiDiff.loadPackageNameFromAssembly.
  rewrite P, R, T. cbn [negb].
  destruct (JsiiDiff.downloadNpmPackage local JsiiDiff.loadFromFilesystem) as [d|x].
  - reflexivity.
  - now destruct (JsiiDiff.rethrow _ x).
Qed.

(** *** The stream *)

Lemma plains_app (a b : list Stderr) : plains (a ++ b) = plains a ++ plains b.
Proof. apply flat_map_app. Qed.

Lemma plains_logged (category : option Level) (level : Level) (s : string) :
  plains (logged category level s) = [].
Proof.
  unfold logged. destruct category as [configured|]; [| reflexivity].
  now destruct (Level_rank configured <=? Level_rank level)%nat.
Qed.

(** What was written with [process.stderr.write] does not depend on the
    logger. *)
Lemma plains_any_level (category category' : option Level) (out : list JsiiDiff.Output) :
  plains (stderr_of category out) = plains (stderr_of category' out).
Proof.
  revert category category'.
  induction out as [|o out IH]; intros category category'; [reflexivity |].
  destruct o; cbn [stderr_of].
  - reflexivity.
  - rewrite !plains_app, !plains_logged. apply IH.
  - rewrite !plains_app, !plains_logged. apply IH.
  - cbn [plains flat_map app]. f_equal. apply IH.
Qed.

Lemma plains_stderr_of_app (category : option Level) (a b : list JsiiDiff.Output) :
  plains (stderr_of category (a ++ b))
  = plains (stderr_of category a) ++ plains (stderr_of category b).
Proof.
  revert category. induction a as [|o a IH]; intros category; [reflexivity |].
  destruct o; cbn [stderr_of app].
  - rewrite IH. f_equal. apply plains_any_level.
  - rewrite !plains_app, IH. now rewrite app_assoc.
  - rewrite !plains_app, IH. now rewrite app_assoc.
  - cbn [plains flat_map app]. f_equal. apply IH.
Qed.

Lemma stderr_of_app (category : option Level) (a b : list JsiiDiff.Output) :
  Forall keepsLevel a ->
  stderr_of category (a ++ b) = stderr_of category a ++ stderr_of category b.
Proof.
  induction 1 as [|o a K _ IH]; [reflexivity |].
  destruct o; cbn [stderr_of app]; [destruct K | | |];
    rewrite IH, ?app_assoc; reflexivity.
Qed.

(** At the level [WARN] the logger lets nothing of [main] through. *)
Lemma stderr_of_WARN (out : list JsiiDiff.Output) :
  Forall keepsLevel out ->
  stderr_of (Some WARN) out = map plain (plains (stderr_of (Some WARN) out)).
Proof.
  induction 1 as [|o out K _ IH]; [reflexivity |].
  destruct o; cbn [stderr_of logged Level_rank Nat.leb app]; [destruct K | | |]; trivial.
  cbn [plains flat_map app map]. f_equal. exact IH.
Qed.

(** All that [loadAssembly] logs, it logs at the level [INFO]. *)
Lemma loadAssembly_logs (requested : string) :
  Forall (fun o => exists line, o = JsiiDiff.LOG_info line)
         (fst (JsiiDiff.loadAssembly requested)).
Proof.
  assert (C : forall r x,
             Forall (fun o => exists line, o = JsiiDiff.LOG_info line)
                    (fst (let (lg, e') := JsiiDiff.rethrow r x in
                          (lg, @JsiiDiff.Thrown JsiiDiff.LoadAssemblyResult e')))).
  { intros r x. unfold JsiiDiff.rethrow.
    destruct (length _ <? 3)%nat; [constructor |]. cbn [fst].
    apply Forall_map_all. intros line. now exists line. }
  unfold JsiiDiff.loadAssembly.
  destruct (JsiiDiff.strip_NPM_REGEX requested) as [pkg0|].
  - destruct (if negb (truthy pkg0) then _ else _) as [pkg|x]; [| apply C].
    destruct (JsiiDiff.downloadNpmPackage pkg JsiiDiff.loadFromFilesystem) as [d|x];
      [constructor | apply C].
  - destruct (JsiiDiff.loadFromFilesystem requested) as [a|x]; [constructor | apply C].
Qed.

Lemma logs_keepLevel (log : list JsiiDiff.Output) :
  Forall (fun o => exists line, o = JsiiDiff.LOG_info line) log -> Forall keepsLevel log.
Proof. apply Forall_impl. intros o (line & ->). exact I. Qed.

Lemma logs_plains (category : option Level) (log : list JsiiDiff.Output) :
  Forall (fun o => exists line, o = JsiiDiff.LOG_info line) log ->
  plains (stderr_of category log) = [].
Proof.
  induction 1 as [|o log (line & ->) _ IH]; [reflexivity |].
  cbn [stderr_of]. now rewrite plains_app, plains_logged.
Qed.

Lemma plains_stderr_of (category : option Level) (out : list JsiiDiff.Output) :
  plains (stderr_of category out)
  = flat_map (fun o => match o with JsiiDiff.stderr_write s => [s] | _ => [] end) out.
Proof.
  revert category. induction out as [|o out IH]; intros category; [reflexivity |].
  destruct o; cbn [stderr_of flat_map app].
  - apply IH.
  - rewrite plains_app, plains_logged. apply IH.
  - rewrite plains_app, plains_logged. apply IH.
  - cbn [plains flat_map app]. f_equal. apply IH.
Qed.

Ltac keeps_level :=
  repeat first
    [ apply Forall_nil
    | apply Forall_cons; [exact I |]
    | apply Forall_app; split
    | assumption
    | apply Forall_map_all; intros; exact I
    | match goal with |- context [if ?b then _ else _] => destruct b end ].

(** [main] configures the logger first, and once. *)
Lemma main_configures_once (argv : JsiiDiff.Argv) :
  exists rest,
    fst (JsiiDiff.main argv) = JsiiDiff.configureLog4js (JsiiDiff.verbose argv) :: rest
    /\ Forall keepsLevel rest.
Proof.
  pose proof (logs_keepLevel (loadAssembly_logs (JsiiDiff.original argv))) as K.
  pose proof (logs_keepLevel (loadAssembly_logs (JsiiDiff.updated argv))) as K'.
  unfold JsiiDiff.main, JsiiDiff.skipping.
  destruct (JsiiDiff.loadAssembly (JsiiDiff.original argv)) as [log [l|x]];
    cbn [fst] in K.
  2:{ eexists. split; [reflexivity |]. keeps_level. }
  destruct (JsiiDiff.load l) as [a|reason].
  2:{ eexists. split; [reflexivity |]. keeps_level. }
  destruct (JsiiDiff.loadAssembly (JsiiDiff.updated argv)) as [log' [l'|x]];
    cbn [fst] in K'.
  2:{ eexists. split; [reflexivity |]. keeps_level. }
  destruct (JsiiDiff.load l') as [a'|reason].
  2:{ eexists. split; [reflexivity |]. keeps_level. }
  destruct (JsiiDiff.count _ >? 0)%Z;
    (eexists; split; [reflexivity |]); keeps_level.
Qed.

(** At verbosity 0 the stream holds what [main] wrote itself, and no
    more. *)
Lemma quiet_run (argv : JsiiDiff.Argv) :
  JsiiDiff.verbose argv = 0%Z ->
  stderr_of None (fst (JsiiDiff.main argv))
  = map plain (plains (stderr_of None (fst (JsiiDiff.main argv)))).
Proof.
  intros V. destruct (main_configures_once argv) as (rest & -> & K).
  rewrite V. cbn [stderr_of _logLevel]. now apply stderr_of_WARN.
Qed.

Lemma script_returned (argv : JsiiDiff.Argv) (n : Z) :
  snd (JsiiDiff.main argv) = JsiiDiff.Returned n ->
  code (script argv) = n
  /\ stderr (script argv) = stderr_of None (fst (JsiiDiff.main argv)).
Proof.
  unfold script. destruct (JsiiDiff.main argv) as [out [m|x]]; cbn [snd fst].
  - intros E. injection E as <-. now split.
  - discriminate.
Qed.

Lemma script_thrown (argv : JsiiDiff.Argv) (e : JsiiDiff.Error) :
  snd (JsiiDiff.main argv) = JsiiDiff.Thrown e ->
  code (script argv) = 100%Z
  /\ stderr (script argv)
     = stderr_of None (fst (JsiiDiff.main argv)) ++ [console_error e].
Proof.
  unfold script. destruct (JsiiDiff.main argv) as [out [m|x]]; cbn [snd fst].
  - discriminate.
  - intros E. injection E as <-. now split.
Qed.

(** X18.  When [loadAssembly] throws for the original assembly, or for
    the updated one once the original is loaded, [main] is rejected with
    that very error: the script prints it with [console.error], after
    whatever the logger let through, and exits with 100.  [main] has
    then not called [process.stderr.write], and at verbosity 0 the error
    is all that [process.stderr] receives. *)
Theorem loading_error_exits_100 (argv : JsiiDiff.Argv) (e : JsiiDiff.Error) :
  (exists log, JsiiDiff.loadAssembly (JsiiDiff.original argv) = (log, JsiiDiff.Thrown e))
  \/ (exists log l a log',
         JsiiDiff.loadAssembly (JsiiDiff.original argv) = (log, JsiiDiff.Returned l)
         /\ JsiiDiff.load l = JsiiDiff.success a
         /\ JsiiDiff.loadAssembly (JsiiDiff.updated argv) = (log', JsiiDiff.Thrown e)) ->
  snd (JsiiDiff.main argv) = JsiiDiff.Thrown e
  /\ code (script argv) = 100%Z
  /\ exists logs,
       stderr (script argv) = logs ++ [console_error e]
       /\ plains logs = []
       /\ (JsiiDiff.verbose argv = 0%Z -> logs = []).
Proof.
  intros D.
  pose proof (loadAssembly_logs (JsiiDiff.original argv)) as W.
  pose proof (loadAssembly_logs (JsiiDiff.updated argv)) as W'.
  assert (T : snd (JsiiDiff.main argv) = JsiiDiff.Thrown e
              /\ plains (stderr_of None (fst (JsiiDiff.main argv))) = []).
  { unfold JsiiDiff.main.
    destruct D as [(log & E) | (log & l & a & log' & E & L & E')].
    - rewrite E in *. cbn [snd fst] in *. split; [reflexivity |].
      rewrite plains_stderr_of_app, (logs_plains None W), plains_stderr_of. reflexivity.
    - rewrite E, L, E' in *. cbn [snd fst] in *. split; [reflexivity |].
      rewrite !plains_stderr_of_app, (logs_plains None W), (logs_plains None W').
      rewrite !plains_stderr_of. reflexivity. }
  destruct T as [T P]. destruct (script_thrown argv T) as [C S].
  split; [exact T |]. split; [exact C |].
  exists (stderr_of None (fst (JsiiDiff.main argv))).
  split; [exact S |]. split; [exact P |].
  intros V. rewrite (quiet_run argv V), P. reflexivity.
Qed.

(** X19.  When both assemblies load and the comparison counts a
    mismatch, [main] returns 1, the script exits with 1, and the calls
    of [process.stderr.write] are, in this order: the warning about
    different assemblies when their names differ, the two assemblies
    with their versions, the heading, and one line for each message of
    the comparison, in the order of the messages.  At verbosity 0 that
    is all that [process.stderr] receives. *)
Theorem mismatches_are_listed (argv : JsiiDiff.Argv) (log log' : list JsiiDiff.Output)
        (l l' : JsiiDiff.LoadAssemblyResult) (a a' : JsiiDiff.Assembly) :
  JsiiDiff.loadAssembly (JsiiDiff.original argv) = (log, JsiiDiff.Returned l) ->
  JsiiDiff.load l = JsiiDiff.success a ->
  JsiiDiff.loadAssembly (JsiiDiff.updated argv) = (log', JsiiDiff.Returned l') ->
  JsiiDiff.load l' = JsiiDiff.success a' ->
  let mismatches :=
    JsiiDiff.compareAssemblies a a' (JsiiDiff.default_stability argv =? "experimental")%string in
  (JsiiDiff.count mismatches > 0)%Z ->
  snd (JsiiDiff.main argv) = JsiiDiff.Returned 1%Z
  /\ code (script argv) = 1%Z
  /\ plains (stderr (script argv)) = report a a' (JsiiDiff.messages mismatches)
  /\ (JsiiDiff.verbose argv = 0%Z ->
      stderr (script argv) = map plain (report a a' (JsiiDiff.messages mismatches))).
Proof.
  intros E L E' L' mismatches C.
  pose proof (loadAssembly_logs (JsiiDiff.original argv)) as W.
  pose proof (loadAssembly_logs (JsiiDiff.updated argv)) as W'.
  assert (T : snd (JsiiDiff.main argv) = JsiiDiff.Returned 1%Z
              /\ plains (stderr_of None (fst (JsiiDiff.main argv)))
                 = report a a' (JsiiDiff.messages mismatches)).
  { unfold JsiiDiff.main. rewrite E, L, E', L' in *. cbn [fst] in W, W'.
    fold mismatches. replace (JsiiDiff.count mismatches >? 0)%Z with true
      by (symmetry; apply Z.gtb_lt; lia).
    cbn [snd fst]. split; [reflexivity |].
    rewrite !plains_stderr_of_app, (logs_plains None W), (logs_plains None W').
    assert (M : forall msgs,
               plains (stderr_of None
                         (map (fun msg => JsiiDiff.stderr_write ("- " ++ msg ++ JsiiDiff.LF))
                              msgs))
               = map (fun msg => "- " ++ msg ++ JsiiDiff.LF)%string msgs).
    { induction msgs as [|m ms IH]; [reflexivity |].
      cbn [map stderr_of plains flat_map app]. f_equal. exact IH. }
    rewrite M, !plains_stderr_of. unfold report.
    destruct (JsiiDiff.name a =? JsiiDiff.name a')%string; reflexivity. }
  destruct T as [T P]. destruct (script_returned argv T) as [K S].
  split; [exact T |]. split; [exact K |]. rewrite S.
  split; [exact P |].
  intros V. rewrite (quiet_run argv V), P. reflexivity.
Qed.

(** X20.  When an assembly is compared with a compatible one of the
    same name, [main] returns 0, the script exits with 0, and [main]
    does not call [process.stderr.write]; at verbosity 0 [process.stderr]
    receives nothing at all. *)
Theorem compatible_run_is_silent (argv : JsiiDiff.Argv) (log log' : list JsiiDiff.Output)
        (l l' : JsiiDiff.LoadAssemblyResult) (a a' : JsiiDiff.Assembly) :
  JsiiDiff.loadAssembly (JsiiDiff.original argv) = (log, JsiiDiff.Returned l) ->
  JsiiDiff.load l = JsiiDiff.success a ->
  JsiiDiff.loadAssembly (JsiiDiff.updated argv) = (log', JsiiDiff.Returned l') ->
  JsiiDiff.load l' = JsiiDiff.success a' ->
  JsiiDiff.name a = JsiiDiff.name a' ->
  (JsiiDiff.count
     (JsiiDiff.compareAssemblies a a'
        (JsiiDiff.default_stability argv =? "experimental")%string) <= 0)%Z ->
  snd (JsiiDiff.main argv) = JsiiDiff.Returned 0%Z
  /\ code (script argv) = 0%Z
  /\ plains (stderr (script argv)) = []
  /\ (JsiiDiff.verbose argv = 0%Z -> stderr (script argv) = []).
Proof.
  intros E L E' L' N C.
  pose proof (loadAssembly_logs (JsiiDiff.original argv)) as W.
  pose proof (loadAssembly_logs (JsiiDiff.updated argv)) as W'.
  assert (T : snd (JsiiDiff.main argv) = JsiiDiff.Returned 0%Z
              /\ plains (stderr_of None (fst (JsiiDiff.main argv))) = []).
  { unfold JsiiDiff.main. rewrite E, L, E', L' in *. cbn [fst] in W, W'.
    replace (JsiiDiff.count _ >? 0)%Z with false
      by (symmetry; rewrite Z.gtb_ltb; apply Z.ltb_ge; lia).
    rewrite N, String.eqb_refl.
    cbn [snd fst negb]. split; [reflexivity |].
    rewrite !plains_stderr_of_app, (logs_plains None W), (logs_plains None W').
    rewrite !plains_stderr_of. reflexivity. }
  destruct T as [T P]. destruct (script_returned argv T) as [K S].
  split; [exact T |]. split; [exact K |]. rewrite S.
  split; [exact P |].
  intros V. rewrite (quiet_run argv V), P. reflexivity.
Qed.

(** X21.  When the original assembly does not load, because
    [loadAssembly] throws or because the download failed, [main] ends
    before it looks at the updated assembly: two command lines that agree
    on the original assembly and on the verbosity then behave alike. *)
Theorem original_failure_ends_the_run (argv argv' : JsiiDiff.Argv) :
  JsiiDiff.original argv = JsiiDiff.original argv' ->
  JsiiDiff.verbose argv = JsiiDiff.verbose argv' ->
  (forall log l a,
      JsiiDiff.loadAssembly (JsiiDiff.original argv) = (log, JsiiDiff.Returned l) ->
      JsiiDiff.load l <> JsiiDiff.success a) ->
  JsiiDiff.main argv = JsiiDiff.main argv'.
Proof.
  intros O V F. unfold JsiiDiff.main. rewrite <- O, <- V.
  destruct (JsiiDiff.loadAssembly (JsiiDiff.original argv)) as [log [l|x]];
    [| reflexivity].
  destruct (JsiiDiff.load l) as [a|reason] eqn:L; [| reflexivity].
  destruct (F log l a eq_refl L).
Qed.

End Loading.

Lemma thrown_errors_have_context_witness :
  exists log e,
    @JsiiDiff.loadAssembly sampleDiffWorld "missing" = (log, JsiiDiff.Thrown e)
    /\ prefix "Error loading assembly '" (JsiiDiff.message e) = true.
Proof.
  eexists. eexists. split; [reflexivity |].
  apply (@thrown_errors_have_context sampleDiffWorld "missing" []). reflexivity.
Defined.

Lemma filesystem_load_never_fails_softly_witness :
  prefix "npm:" "lib.jsii" = false
  /\ exists log l,
       @JsiiDiff.loadAssembly sampleDiffWorld "lib.jsii" = (log, JsiiDiff.Returned l)
       /\ log = []
       /\ JsiiDiff.resolved l = "lib.jsii".
Proof.
  split; [reflexivity |]. eexists. eexists. split; [reflexivity |].
  destruct (@filesystem_load_never_fails_softly sampleDiffWorld "lib.jsii" [] _
              eq_refl eq_refl) as (Lg & _ & R & _).
  split; [exact Lg | exact R].
Defined.

Lemma npm_prefix_forms_agree_witness :
  outcomeOf (@JsiiDiff.loadAssembly sampleDiffWorld "npm:jsii-calc")
  = outcomeOf (@JsiiDiff.loadAssembly sampleDiffWorld "npm://jsii-calc").
Proof.
  apply (@npm_prefix_forms_agree sampleDiffWorld "jsii-calc"); reflexivity.
Defined.

Lemma scoped_package_version_witness :
  exists log l,
    @JsiiDiff.loadAssembly sampleDiffWorld "npm://@scope/calc" = (log, JsiiDiff.Returned l)
    /\ JsiiDiff.resolved l = "npm://@scope/calc@latest".
Proof.
  eexists. eexists. split; [reflexivity |].
  exact (@scoped_package_version sampleDiffWorld "scope/calc" [] _ eq_refl).
Defined.

Lemma empty_package_is_local_assembly_witness :
  outcomeOf (@JsiiDiff.loadAssembly sampleDiffWorld "npm://")
  = outcomeOf (@JsiiDiff.loadAssembly sampleDiffWorld "npm://local-pkg").
Proof.
  apply (@empty_package_is_local_assembly sampleDiffWorld "local-pkg"); reflexivity.
Defined.

Lemma loading_error_exits_100_witness :
  exists e,
    snd (@JsiiDiff.main sampleDiffWorld (sampleArgv "missing" "lib.jsii")) = JsiiDiff.Thrown e
    /\ @script sampleDiffWorld (sampleArgv "missing" "lib.jsii")
       = {| stderr := [console_error e]; code := 100 |}.
Proof.
  eexists.
  destruct (@loading_error_exits_100 sampleDiffWorld (sampleArgv "missing" "lib.jsii")
              {| JsiiDiff.message :=
                   "Error loading assembly 'missing': ENOENT: no such file" |}
              (or_introl (ex_intro _ [] eq_refl)))
    as (T & _).
  split; [exact T | reflexivity].
Defined.

Lemma mismatches_are_listed_witness :
  @script sampleDiffWorld (sampleArgv "old.jsii" "new.jsii")
  = {| stderr :=
         map plain
             (report {| JsiiDiff.name := "old.jsii"; JsiiDiff.version := "1.0.0" |}
                     {| JsiiDiff.name := "new.jsii"; JsiiDiff.version := "1.0.0" |}
                     ["the assembly was renamed"]);
       code := 1 |}.
Proof.
  destruct (@mismatches_are_listed sampleDiffWorld (sampleArgv "old.jsii" "new.jsii")
              [] []
              {| JsiiDiff.requested := "old.jsii"; JsiiDiff.resolved := "old.jsii";
                 JsiiDiff.load := JsiiDiff.success
                                    {| JsiiDiff.name := "old.jsii";
                                       JsiiDiff.version := "1.0.0" |} |}
              {| JsiiDiff.requested := "new.jsii"; JsiiDiff.resolved := "new.jsii";
                 JsiiDiff.load := JsiiDiff.success
                                    {| JsiiDiff.name := "new.jsii";
                                       JsiiDiff.version := "1.0.0" |} |}
              {| JsiiDiff.name := "old.jsii"; JsiiDiff.version := "1.0.0" |}
              {| JsiiDiff.name := "new.jsii"; JsiiDiff.version := "1.0.0" |}
              eq_refl eq_refl eq_refl eq_refl eq_refl) as (_ & K & _ & S).
  specialize (S eq_refl).
  destruct (@script sampleDiffWorld (sampleArgv "old.jsii" "new.jsii")) as [s c].
  cbn [stderr code] in K, S. now rewrite K, S.
Defined.

Lemma compatible_run_is_silent_witness :
  @script sampleDiffWorld (sampleArgv "lib.jsii" "lib.jsii") = {| stderr := []; code := 0 |}.
Proof.
  destruct (@compatible_run_is_silent sampleDiffWorld (sampleArgv "lib.jsii" "lib.jsii")
           [] []
           {| JsiiDiff.requested := "lib.jsii"; JsiiDiff.resolved := "lib.jsii";
              JsiiDiff.load := JsiiDiff.success
                                 {| JsiiDiff.name := "lib.jsii";
                                    JsiiDiff.version := "1.0.0" |} |}
           {| JsiiDiff.requested := "lib.jsii"; JsiiDiff.resolved := "lib.jsii";
              JsiiDiff.load := JsiiDiff.success
                                 {| JsiiDiff.name := "lib.jsii";
                                    JsiiDiff.version := "1.0.0" |} |}
           {| JsiiDiff.name := "lib.jsii"; JsiiDiff.version := "1.0.0" |}
           {| JsiiDiff.name := "lib.jsii"; JsiiDiff.version := "1.0.0" |}
           eq_refl eq_refl eq_refl eq_refl eq_refl)
    as (_ & K & _ & S).
  { vm_compute. discriminate. }
  specialize (S eq_refl).
  destruct (@script sampleDiffWorld (sampleArgv "lib.jsii" "lib.jsii")) as [s c].
  cbn [stderr code] in K, S. now rewrite K, S.
Defined.

Lemma original_failure_ends_the_run_witness :
  @JsiiDiff.main sampleDiffWorld (sampleArgv "npm:gone" "lib.jsii")
  = @JsiiDiff.main sampleDiffWorld (sampleArgv "npm:gone" "missing").
Proof.
  apply (@original_failure_ends_the_run sampleDiffWorld); try reflexivity.
  intros log l a E. vm_compute in E. injection E as _ <-. discriminate.
Defined.
